(** * SEIZ epidemic models on a social network

    A shallow embedding of the Python package [seiz_models]:
    - [base.py]    : [BaseEpidemicModel] ([count_states], [run], [to_json],
                     [save_json], [plot], [save_plot]);
    - [seiz.py]    : [rate_to_prob] and [SEIZModel] (baseline, synchronous);
    - [seiz_bm.py] : [SEIZBMModel] (basic moderator, buffered commit);
    - [seiz_sm.py] : [SEIZSMModel] (smart moderator, three live phases).

    Conventions.
    - A Python [float] is a binary64 value: Rocq's primitive [float], with
      the kernel's operations, so every arithmetic step rounds as it does in
      CPython.
    - A Python [int] is a [Z].
    - A Python [dict] is an insertion-ordered association list ([dict]):
      iteration order decides the order in which random draws are consumed.
    - An exception is the right injection of [result]; the exception that
      leaves a call is the first one raised.
    - The process-wide generator of the [random] module is a value of an
      abstract type [G] threaded through every call that draws from it
      (class [RandomGen]).  What the theorems use of the generator is stated
      as laws of that class; [Lcg] is one lawful generator, used to run the
      models on concrete inputs. *)

From Stdlib Require Import String Ascii.
From Stdlib Require Import ZArith List Bool Lia Permutation.
From Stdlib Require Import QArith Qround.
From Stdlib Require Import Floats.
Import ListNotations.

Local Open Scope Z_scope.

(* ================================================================== *)
(** * Python runtime: exceptions, sequences, dictionaries, numbers    *)
(* ================================================================== *)

Module Py.

(** The exceptions the modelled code can raise. *)
Inductive exn : Type :=
| IndexError
| KeyError
| ValueError (msg : string)
| OverflowError
| NetworkXError.

Definition result (A : Type) : Type := (A + exn)%type.

Definition Ok {A} (a : A) : result A := inl a.
Definition Raise {A} (e : exn) : result A := inr e.

Definition bind {A B} (c : result A) (k : A -> result B) : result B :=
  match c with
  | inl a => k a
  | inr e => inr e
  end.

Definition is_ok {A} (c : result A) : bool :=
  match c with inl _ => true | inr _ => false end.

Definition fmap {A B} (f : A -> B) (c : result A) : result B :=
  match c with
  | inl a => inl (f a)
  | inr e => inr e
  end.

Declare Scope py_scope.
Delimit Scope py_scope with py.

Notation "x <- c ;; k" := (bind c (fun x => k))
  (at level 61, c at next level, right associativity) : py_scope.
Notation "' pat <- c ;; k" := (bind c (fun x => match x with pat => k end))
  (at level 61, pat pattern, c at next level, right associativity) : py_scope.

Local Open Scope py_scope.

(** [for x in xs: acc = f(acc, x)], where the body may raise. *)
Fixpoint foldM {A B} (f : A -> B -> result A) (xs : list B) (a : A)
  : result A :=
  match xs with
  | [] => Ok a
  | x :: xs' => a' <- f a x ;; foldM f xs' a'
  end.

(** [range(lo, hi)]: empty when [hi <= lo]. *)
Definition range (lo hi : Z) : list Z :=
  map (fun k => lo + Z.of_nat k) (seq 0 (Z.to_nat (hi - lo))).

(** [xs[i]] on a list: a negative index counts from the end, an index
    outside [-len, len) raises [IndexError]. *)
Definition getitem {A} (xs : list A) (i : Z) : result A :=
  let n := Z.of_nat (length xs) in
  let j := if i <? 0 then i + n else i in
  if (j <? 0) || (n <=? j) then Raise IndexError
  else match nth_error xs (Z.to_nat j) with
       | Some x => Ok x
       | None => Raise IndexError
       end.

(** Keys with a decidable equality (Python: hashable with [__eq__]). *)
Class Key (K : Type) : Type := {
  keq : K -> K -> bool;
  keq_spec : forall x y, reflect (x = y) (keq x y)
}.

#[export] Instance Key_nat : Key nat :=
  {| keq := Nat.eqb; keq_spec := Nat.eqb_spec |}.

#[export] Instance Key_string : Key string :=
  {| keq := String.eqb; keq_spec := String.eqb_spec |}.

(** ** Insertion-ordered dictionaries *)
Section Dict.
Context {K V : Type} `{Key K}.

Definition dict : Type := list (K * V).

Fixpoint get (d : dict) (k : K) : option V :=
  match d with
  | [] => None
  | (k', v) :: d' => if keq k k' then Some v else get d' k
  end.

(** [d[k]] *)
Definition lookup (d : dict) (k : K) : result V :=
  match get d k with
  | Some v => Ok v
  | None => Raise KeyError
  end.

(** [k in d] *)
Definition contains (d : dict) (k : K) : bool :=
  match get d k with Some _ => true | None => false end.

(** [d[k] = v]: an existing key keeps its position, a new key goes last. *)
Fixpoint set (d : dict) (k : K) (v : V) : dict :=
  match d with
  | [] => [(k, v)]
  | (k', v') :: d' =>
      if keq k k' then (k', v) :: d' else (k', v') :: set d' k v
  end.

Definition keys (d : dict) : list K := map fst d.
Definition values (d : dict) : list V := map snd d.
End Dict.

Arguments dict K V : clear implicits.

(** ** Numbers *)

(** [float(n)] for an [int] that fits a machine word, as [len] does: the
    nearest binary64 value. *)
Definition float_of_int (n : Z) : float :=
  if n <? 0 then PrimFloat.opp (PrimFloat.of_uint63 (Uint63.of_Z (- n)))
  else PrimFloat.of_uint63 (Uint63.of_Z n).

(** [int(x)]: truncation towards zero; [OverflowError] on an infinity,
    [ValueError] on a NaN. *)
Definition int_of_float (x : float) : result Z :=
  match Prim2SF x with
  | S754_zero _ => Ok 0
  | S754_infinity _ => Raise OverflowError
  | S754_nan => Raise (ValueError "cannot convert float NaN to integer")
  | S754_finite s m e =>
      let a := if 0 <=? e then Z.pos m * 2 ^ e else Z.pos m / 2 ^ (- e) in
      Ok (if s then - a else a)
  end.

(** The exact rational value of a finite binary64 number. *)
Definition float_value (x : float) : option Q :=
  match Prim2SF x with
  | S754_zero _ => Some 0%Q
  | S754_finite s m e =>
      let a := if 0 <=? e then inject_Z (Z.pos m * 2 ^ e)
               else Qmake (Z.pos m) (Z.to_pos (2 ^ (- e))) in
      Some (if s then Qopp a else a)
  | _ => None
  end.

(** [sum(xs)] over floats, left to right from the integer [0]. *)
Definition sum (xs : list float) : float :=
  fold_left PrimFloat.add xs (float_of_int 0).

End Py.

Import Py.
Local Open Scope py_scope.

(* ================================================================== *)
(** * The [random] module                                              *)
(* ================================================================== *)

(** Graph nodes.  networkx accepts any hashable value; the generated
    networks of the package label nodes with integers. *)
Definition node : Type := nat.

(** The generator state [G] and the five entry points the models call.
    [rng_randbelow n] is the index drawn by [random.choice] on a sequence of
    length [n]; [rng_sample xs k] is [random.sample(xs, k)] for
    [0 <= k <= len(xs)].  The laws are the library's contract: an index is
    in range, a shuffle permutes, a sample picks [k] positions. *)
Class RandomGen (G : Type) : Type := {
  rng_seed : Z -> G;
  rng_random : G -> float * G;
  rng_randbelow : nat -> G -> nat * G;
  rng_shuffle : list node -> G -> list node * G;
  rng_sample : list node -> nat -> G -> list node * G;
  rng_randbelow_lt :
    forall n g, (0 < n)%nat -> (fst (rng_randbelow n g) < n)%nat;
  rng_shuffle_perm :
    forall xs g, Permutation xs (fst (rng_shuffle xs g));
  rng_sample_incl :
    forall xs k g, incl (fst (rng_sample xs k g)) xs;
  rng_sample_length :
    forall xs k g, (k <= length xs)%nat ->
      length (fst (rng_sample xs k g)) = k
}.

Section Random.
Context {G : Type} `{RandomGen G}.

(** [if seed is not None: random.seed(seed)] *)
Definition seed_if_given (seed : option Z) (g : G) : G :=
  match seed with
  | Some k => rng_seed k
  | None => g
  end.

(** [random.choice(xs)]: [xs[randbelow(len(xs))]], [IndexError] on an
    empty sequence. *)
Definition choice {A} (xs : list A) (g : G) : result (A * G) :=
  match xs with
  | [] => Raise IndexError
  | _ :: _ =>
      let '(i, g') := rng_randbelow (length xs) g in
      x <- getitem xs (Z.of_nat i) ;; Ok (x, g')
  end.

(** [random.sample(xs, k)]: [ValueError] unless [0 <= k <= len(xs)]. *)
Definition sample (xs : list node) (k : Z) (g : G)
  : result (list node * G) :=
  if (k <? 0) || (Z.of_nat (length xs) <? k)
  then Raise (ValueError "Sample larger than population or is negative")
  else Ok (rng_sample xs (Z.to_nat k) g).
End Random.

(* ================================================================== *)
(** * Networks and agent states                                        *)
(* ================================================================== *)

(** A networkx [Graph] as the models read it: the adjacency dictionary, in
    insertion order.  [G.nodes()] lists its keys, [G.neighbors(v)] the
    entry of [v]. *)
Definition Graph : Type := dict node (list node).

Definition nodes (gr : Graph) : list node := keys gr.

Definition neighbors (gr : Graph) (v : node) : result (list node) :=
  match Py.get gr v with
  | Some ns => Ok ns
  | None => Raise NetworkXError
  end.

Definition number_of_nodes (gr : Graph) : Z := Z.of_nat (length gr).

(** [G.number_of_edges()]: half the degree sum, a self-loop adding two to
    the degree of its node. *)
Definition degree (v : node) (ns : list node) : Z :=
  Z.of_nat (length ns) + Z.of_nat (count_occ Nat.eq_dec ns v).

Definition number_of_edges (gr : Graph) : Z :=
  fold_left (fun acc '(v, ns) => acc + degree v ns) gr 0 / 2.

(** What networkx maintains of a graph: each node is listed once and every
    neighbour is a node. *)
Definition wf_graph (gr : Graph) : Prop :=
  NoDup (nodes gr) /\
  forall v ns, In (v, ns) gr -> forall u, In u ns -> In u (nodes gr).

(** The four behavioural states; the source writes them as the strings
    ["S"], ["E"], ["I"] and ["Z"]. *)
Inductive State : Type := Susceptible | Exposed | Infected | Skeptic.

Definition state_name (s : State) : string :=
  match s with
  | Susceptible => "S"
  | Exposed => "E"
  | Infected => "I"
  | Skeptic => "Z"
  end.

Definition state_eqb (a b : State) : bool :=
  match a, b with
  | Susceptible, Susceptible | Exposed, Exposed
  | Infected, Infected | Skeptic, Skeptic => true
  | _, _ => false
  end.

Lemma state_eqb_spec (a b : State) : reflect (a = b) (state_eqb a b).
Proof. destruct a, b; simpl; constructor; congruence. Qed.

Definition all_states : list State :=
  [Susceptible; Exposed; Infected; Skeptic].

(* ================================================================== *)
(** * [base.py]: the abstract base class                               *)
(* ================================================================== *)

(** A parameter value: the constructors take floats and, for the
    smart-moderator variant, two integers. *)
Inductive pyval : Type :=
| PyFloat (x : float)
| PyInt (n : BinNums.Z).

(** A table of counts: what [count_states] returns, and, once the key
    ["step"] is added, one record of the history. *)
Definition Counts : Type := dict string BinNums.Z.

(** [collections.Counter(xs)]: one key per distinct element, in order of
    first occurrence. *)
Definition Counter (xs : list State) : Counts :=
  fold_left
    (fun c s =>
       let k := state_name s in
       Py.set c k (match Py.get c k with Some n => n + 1 | None => 1 end))
    xs [].

(** [[f(x) for x in xs]], where [f] may raise. *)
Fixpoint mapM {A B} (f : A -> result B) (xs : list A) : result (list B) :=
  match xs with
  | [] => Ok []
  | x :: xs' => y <- f x ;; ys <- mapM f xs' ;; Ok (y :: ys)
  end.

Section Base.
Context {G : Type} `{RandomGen G}.

(** The abstract methods of [BaseEpidemicModel], with the two attributes
    every constructor hands to [super().__init__].  [M] holds the fields a
    subclass adds and the simulation store. *)
Class EpidemicModel (M : Type) : Type := {
  class_name : string;
  graph : M -> Graph;
  params : M -> dict string pyval;
  initialize_states :
    M -> float -> float -> option BinNums.Z -> G -> result (M * G);
  step : M -> G -> result (M * G);
  get_states : M -> dict node State
}.

(** An instance of a model class: the subclass part and the two
    attributes [BaseEpidemicModel.__init__] adds.  No [step] and no
    [initialize_states] of the package reads or writes [history] or
    [_current_step]. *)
Record Model (M : Type) : Type := mkModel {
  self : M;
  history : list Counts;
  current_step : BinNums.Z
}.
Arguments mkModel {M}.
Arguments self {M}.
Arguments history {M}.
Arguments current_step {M}.

(** [BaseEpidemicModel.__init__] *)
Definition new {M} (m : M) : Model M :=
  {| self := m; history := []; current_step := 0 |}.

Section Methods.
Context {M : Type} `{EpidemicModel M}.

Definition count_states (m : M) : Counts :=
  let states := get_states m in
  let counts := Counter (values states) in
  fold_left
    (fun counts state =>
       if negb (contains counts state) then Py.set counts state 0
       else counts)
    ["S"; "E"; "I"; "Z"]%string counts.

(** One record of the history: the counts with the key ["step"]. *)
Definition snapshot (m : M) (i : BinNums.Z) : Counts :=
  Py.set (count_states m) "step"%string i.

(** The body of the loop of [run]. *)
Definition run_body (acc : Model M * G) (i : BinNums.Z)
  : result (Model M * G) :=
  let '(o, g) := acc in
  let o := mkModel (self o) (history o) i in
  let counts := snapshot (self o) i in
  let o := mkModel (self o) (history o ++ [counts]) (current_step o) in
  '(m', g') <- step (self o) g ;;
  Ok (mkModel m' (history o) (current_step o), g').

Definition run (o : Model M) (steps : BinNums.Z) (g : G)
  : result (list Counts * Model M * G) :=
  let o := mkModel (self o) [] (current_step o) in
  '(o, g) <- foldM run_body (range 0 steps) (o, g) ;;
  let counts := snapshot (self o) steps in
  let o := mkModel (self o) (history o ++ [counts]) (current_step o) in
  Ok (history o, o, g).

(** The dictionary [to_json] hands to [json.dumps]. *)
Record JsonOutput : Type := {
  model_type : string;
  parameters : dict string pyval;
  network_info : Counts;
  json_history : list Counts
}.

Definition to_json (o : Model M) : result JsonOutput :=
  let output :=
    {| model_type := class_name;
       parameters := params (self o);
       network_info :=
         [("num_nodes"%string, number_of_nodes (graph (self o)));
          ("num_edges"%string, number_of_edges (graph (self o)))];
       json_history := history o |} in
  Ok output.

(** [save_json]: the file system is a table from paths to what was
    written. *)
Definition save_json (o : Model M) (filepath : string)
    (fs : dict string JsonOutput) : result (dict string JsonOutput) :=
  out <- to_json o ;; Ok (Py.set fs filepath out).

(** The series [plot] and [save_plot] hand to matplotlib. *)
Record PlotData : Type := {
  plot_title : string;
  plot_steps : list BinNums.Z;
  s_counts : list BinNums.Z;
  e_counts : list BinNums.Z;
  i_counts : list BinNums.Z;
  z_counts : list BinNums.Z
}.

Definition no_history : exn :=
  ValueError "No history to plot. Run the simulation first.".

Definition plot_series (o : Model M) (title : option string)
  : result PlotData :=
  match history o with
  | [] => Raise no_history
  | _ :: _ =>
      let title := match title with
                   | Some t => t
                   | None => (class_name ++ " Dynamics")%string
                   end in
      steps <- mapM (fun h => lookup h "step"%string) (history o) ;;
      s <- mapM (fun h => lookup h "S"%string) (history o) ;;
      e <- mapM (fun h => lookup h "E"%string) (history o) ;;
      i <- mapM (fun h => lookup h "I"%string) (history o) ;;
      z <- mapM (fun h => lookup h "Z"%string) (history o) ;;
      Ok {| plot_title := title; plot_steps := steps; s_counts := s;
            e_counts := e; i_counts := i; z_counts := z |}
  end.

Definition plot (o : Model M) (title : option string) : result PlotData :=
  plot_series o title.

(** [save_plot]: the same series, drawn into the file [filepath]. *)
Definition save_plot (o : Model M) (filepath : string)
    (title : option string) (fs : dict string PlotData)
  : result (dict string PlotData) :=
  d <- plot_series o title ;; Ok (Py.set fs filepath d).
End Methods.
End Base.

Arguments mkModel {M}.
Arguments self {M}.
Arguments history {M}.
Arguments current_step {M}.

(* ================================================================== *)
(** * [seiz.py]: the baseline model                                    *)
(* ================================================================== *)

(** [math.exp], a binding to the C library: a float, or [OverflowError]
    when the result is out of range. *)
Class MathLib : Type := {
  math_exp : float -> result float
}.

Module SEIZ.
Section SEIZ.
Context {G : Type} `{RandomGen G} `{MathLib}.

(** [1 - math.exp(-rate * dt)] *)
Definition rate_to_prob (rate dt : float) : result float :=
  e <- math_exp (- rate * dt)%float ;; Ok (1 - e)%float.

Record SEIZModel : Type := mkSEIZ {
  seiz_graph : Graph;
  seiz_params : dict string pyval;
  beta : float;
  b : float;
  rho : float;
  eps : float;
  p : float;
  l : float;
  dt : float;
  prob_contact_I : float;
  prob_contact_Z : float;
  prob_E_to_I : float;
  prob_I_to_E : float;
  states : dict node State
}.

Definition with_states (m : SEIZModel) (st : dict node State) : SEIZModel :=
  mkSEIZ (seiz_graph m) (seiz_params m) (beta m) (b m) (rho m) (eps m)
         (p m) (l m) (dt m) (prob_contact_I m) (prob_contact_Z m)
         (prob_E_to_I m) (prob_I_to_E m) st.

(** [SEIZModel.__init__] *)
Definition init (gr : Graph) (beta b rho eps p l dt : float)
  : result (Model SEIZModel) :=
  let params :=
    [("beta", PyFloat beta); ("b", PyFloat b); ("rho", PyFloat rho);
     ("eps", PyFloat eps); ("p", PyFloat p); ("l", PyFloat l);
     ("dt", PyFloat dt)]%string in
  prob_contact_I <- rate_to_prob beta dt ;;
  prob_contact_Z <- rate_to_prob b dt ;;
  prob_E_to_I <- rate_to_prob rho dt ;;
  prob_I_to_E <- rate_to_prob eps dt ;;
  let states :=
    fold_left (fun st v => Py.set st v Susceptible) (nodes gr) [] in
  Ok (new (mkSEIZ gr params beta b rho eps p l dt prob_contact_I
                  prob_contact_Z prob_E_to_I prob_I_to_E states)).

(** The three assignment loops of [initialize_states], on the state
    dictionary. *)
Definition assign (nodes : list node) (s : State)
    (st : dict node State) (i : BinNums.Z) : result (dict node State) :=
  v <- getitem nodes i ;; Ok (Py.set st v s).

Definition seiz_initialize_states (m : SEIZModel)
    (infected_frac skeptic_frac : float) (seed : option BinNums.Z) (g : G)
  : result (SEIZModel * G) :=
  let g := seed_if_given seed g in
  let '(nodes, g) := rng_shuffle (nodes (seiz_graph m)) g in
  let n := Z.of_nat (length nodes) in
  (* Reset all to susceptible *)
  let st := fold_left (fun st v => Py.set st v Susceptible) nodes (states m) in
  (* Set infected *)
  n_infected <- int_of_float (float_of_int n * infected_frac)%float ;;
  st <- foldM (assign nodes Infected) (range 0 n_infected) st ;;
  (* Set skeptics *)
  n_skeptic <- int_of_float (float_of_int n * skeptic_frac)%float ;;
  st <- foldM (assign nodes Skeptic)
              (range n_infected (n_infected + n_skeptic)) st ;;
  Ok (with_states m st, g).

(** [proposals[v].append(s)] on a [defaultdict(list)]. *)
Definition propose (proposals : dict node (list State)) (v : node)
    (s : State) : dict node (list State) :=
  Py.set proposals v
    (match Py.get proposals v with
     | Some ps => ps ++ [s]
     | None => [s]
     end).

(** One neighbour of a spreading node: [source_prob] is the contact
    probability, [adopt_prob] the probability of taking the state [s] of
    the spreader rather than becoming exposed. *)
Definition contact (m : SEIZModel) (contact_prob adopt_prob : float)
    (s : State) (acc : dict node (list State) * G) (neighbor : node)
  : result (dict node (list State) * G) :=
  let '(proposals, g) := acc in
  nb_state <- lookup (states m) neighbor ;;
  if state_eqb nb_state Susceptible then
    let '(u, g) := rng_random g in
    if (u <? contact_prob)%float then
      let '(u', g) := rng_random g in
      if (u' <? adopt_prob)%float
      then Ok (propose proposals neighbor s, g)
      else Ok (propose proposals neighbor Exposed, g)
    else Ok (proposals, g)
  else Ok (proposals, g).

(** Contact-based transitions: the body of the first loop of [step]. *)
Definition contacts (m : SEIZModel) (acc : dict node (list State) * G)
    (item : node * State) : result (dict node (list State) * G) :=
  let '(v, state) := item in
  match state with
  | Infected =>
      ns <- neighbors (seiz_graph m) v ;;
      foldM (contact m (prob_contact_I m) (p m) Infected) ns acc
  | Skeptic =>
      ns <- neighbors (seiz_graph m) v ;;
      foldM (contact m (prob_contact_Z m) (l m) Skeptic) ns acc
  | _ => Ok acc
  end.

(** Internal progressions: the body of the second loop of [step]. *)
Definition internal (m : SEIZModel) (acc : dict node (list State) * G)
    (item : node * State) : dict node (list State) * G :=
  let '(proposals, g) := acc in
  let '(v, state) := item in
  match state with
  | Exposed =>
      let '(u, g) := rng_random g in
      if (u <? prob_E_to_I m)%float then (propose proposals v Infected, g)
      else (proposals, g)
  | Infected =>
      let '(u, g) := rng_random g in
      if (u <? prob_I_to_E m)%float then (propose proposals v Exposed, g)
      else (proposals, g)
  | _ => (proposals, g)
  end.

(** The proposals of one step: both loops, reading [states m] only. *)
Definition collect (m : SEIZModel) (g : G)
  : result (dict node (list State) * G) :=
  acc <- foldM (contacts m) (states m) ([], g) ;;
  Ok (fold_left (internal m) (states m) acc).

(** The body of the third loop of [step]. *)
Definition apply_one (acc : dict node State * G)
    (item : node * list State) : result (dict node State * G) :=
  let '(st, g) := acc in
  let '(v, plist) := item in
  '(chosen, g) <- choice plist g ;;
  Ok (Py.set st v chosen, g).

Definition seiz_step (m : SEIZModel) (g : G) : result (SEIZModel * G) :=
  '(proposals, g) <- collect m g ;;
  '(st, g) <- foldM apply_one proposals (states m, g) ;;
  Ok (with_states m st, g).

Definition seiz_get_states (m : SEIZModel) : dict node State := states m.

#[export] Instance SEIZ_model : EpidemicModel SEIZModel := {|
  class_name := "SEIZModel";
  graph := seiz_graph;
  params := seiz_params;
  initialize_states := seiz_initialize_states;
  step := seiz_step;
  get_states := seiz_get_states
|}.
End SEIZ.
End SEIZ.

(** Node attributes.  networkx keeps one attribute table per node of the
    graph and both moderated constructors store an [Agent] under the key
    ["agent"] of every node: the store is a total map from nodes to agents,
    read and written at the nodes of the graph only. *)
Definition upd {A} (f : node -> A) (v : node) (a : A) : node -> A :=
  fun u => if Nat.eqb u v then a else f u.

(* ================================================================== *)
(** * [seiz_bm.py]: the basic-moderator model                          *)
(* ================================================================== *)

Module SEIZBM.
Section SEIZBM.
Context {G : Type} `{RandomGen G}.

Record Agent : Type := mkAgent { state : State }.

Record SEIZBMModel : Type := mkSEIZBM {
  bm_graph : Graph;
  bm_params : dict string pyval;
  beta : float;
  b : float;
  rho : float;
  p : float;
  epsilon : float;
  l : float;
  mu : float;
  m : float;
  agents : node -> Agent
}.

Definition with_agents (mo : SEIZBMModel) (ag : node -> Agent)
  : SEIZBMModel :=
  mkSEIZBM (bm_graph mo) (bm_params mo) (beta mo) (b mo) (rho mo) (p mo)
           (epsilon mo) (l mo) (mu mo) (m mo) ag.

(** [agent.state = s] on the agent of node [v]. *)
Definition set_state (ag : node -> Agent) (v : node) (s : State)
  : node -> Agent :=
  upd ag v (mkAgent s).

(** [SEIZBMModel.__init__] *)
Definition init (gr : Graph) (beta b rho p epsilon l mu m : float)
  : Model SEIZBMModel :=
  let params :=
    [("beta", PyFloat beta); ("b", PyFloat b); ("rho", PyFloat rho);
     ("p", PyFloat p); ("epsilon", PyFloat epsilon); ("l", PyFloat l);
     ("mu", PyFloat mu); ("m", PyFloat m)]%string in
  let agents :=
    fold_left (fun ag v => upd ag v (mkAgent Susceptible)) (nodes gr)
              (fun _ => mkAgent Susceptible) in
  new (mkSEIZBM gr params beta b rho p epsilon l mu m agents).

Definition assign (nodes : list node) (s : State)
    (ag : node -> Agent) (i : BinNums.Z) : result (node -> Agent) :=
  v <- getitem nodes i ;; Ok (set_state ag v s).

Definition bm_initialize_states (mo : SEIZBMModel)
    (infected_frac skeptic_frac : float) (seed : option BinNums.Z) (g : G)
  : result (SEIZBMModel * G) :=
  let g := seed_if_given seed g in
  let '(nodes, g) := rng_shuffle (nodes (bm_graph mo)) g in
  let n := Z.of_nat (length nodes) in
  (* Reset all to susceptible *)
  let ag :=
    fold_left (fun ag v => set_state ag v Susceptible) nodes (agents mo) in
  (* Set infected *)
  n_infected <- int_of_float (float_of_int n * infected_frac)%float ;;
  ag <- foldM (assign nodes Infected) (range 0 n_infected) ag ;;
  (* Set skeptics *)
  n_skeptic <- int_of_float (float_of_int n * skeptic_frac)%float ;;
  ag <- foldM (assign nodes Skeptic)
              (range n_infected (n_infected + n_skeptic)) ag ;;
  Ok (with_agents mo ag, g).

(** The scan of a susceptible node over its neighbours, up to the first
    [break]: the proposed state, if any. *)
Fixpoint scan_susceptible (mo : SEIZBMModel) (ns : list node) (g : G)
  : option State * G :=
  match ns with
  | [] => (None, g)
  | neighbor :: ns' =>
      match state (agents mo neighbor) with
      | Infected =>
          let '(u, g) := rng_random g in
          if (u <? beta mo)%float then
            let '(u', g) := rng_random g in
            (Some (if (u' <? p mo)%float then Infected else Exposed), g)
          else scan_susceptible mo ns' g
      | Skeptic =>
          let '(u, g) := rng_random g in
          if (u <? b mo)%float then
            let '(u', g) := rng_random g in
            (Some (if (u' <? l mo)%float then Skeptic else Exposed), g)
          else scan_susceptible mo ns' g
      | _ => scan_susceptible mo ns' g
      end
  end.

(** The scan of an exposed node whose own draw against [epsilon]
    failed. *)
Fixpoint scan_exposed (mo : SEIZBMModel) (ns : list node) (g : G)
  : option State * G :=
  match ns with
  | [] => (None, g)
  | neighbor :: ns' =>
      match state (agents mo neighbor) with
      | Infected =>
          let '(u, g) := rng_random g in
          if (u <? rho mo)%float then (Some Infected, g)
          else scan_exposed mo ns' g
      | _ => scan_exposed mo ns' g
      end
  end.

(** The body of the node loop of [step]: [new_states] gains at most the
    entry of [v]. *)
Definition visit (mo : SEIZBMModel) (acc : dict node State * G) (v : node)
  : result (dict node State * G) :=
  let '(new_states, g) := acc in
  let record (r : option State * G) :=
    match r with
    | (Some s, g) => (Py.set new_states v s, g)
    | (None, g) => (new_states, g)
    end in
  match state (agents mo v) with
  | Susceptible =>
      ns <- neighbors (bm_graph mo) v ;;
      Ok (record (scan_susceptible mo ns g))
  | Exposed =>
      let '(u, g) := rng_random g in
      if (u <? epsilon mo)%float then Ok (Py.set new_states v Infected, g)
      else
        ns <- neighbors (bm_graph mo) v ;;
        Ok (record (scan_exposed mo ns g))
  | Infected =>
      let '(u, g) := rng_random g in
      if (u <? mu mo)%float then
        let '(u', g) := rng_random g in
        if (u' <? m mo)%float then Ok (Py.set new_states v Susceptible, g)
        else Ok (new_states, g)
      else Ok (new_states, g)
  | Skeptic => Ok (new_states, g)
  end.

(** Apply state changes: the last loop of [step]. *)
Definition commit (ag : node -> Agent) (new_states : dict node State)
  : node -> Agent :=
  fold_left (fun ag '(v, s) => set_state ag v s) new_states ag.

Definition bm_step (mo : SEIZBMModel) (g : G) : result (SEIZBMModel * G) :=
  '(new_states, g) <- foldM (visit mo) (nodes (bm_graph mo)) ([], g) ;;
  Ok (with_agents mo (commit (agents mo) new_states), g).

Definition bm_get_states (mo : SEIZBMModel) : dict node State :=
  fold_left (fun states v => Py.set states v (state (agents mo v)))
            (nodes (bm_graph mo)) [].

#[export] Instance SEIZBM_model : EpidemicModel SEIZBMModel := {|
  class_name := "SEIZBMModel";
  graph := bm_graph;
  params := bm_params;
  initialize_states := bm_initialize_states;
  step := bm_step;
  get_states := bm_get_states
|}.
End SEIZBM.
End SEIZBM.

(* ================================================================== *)
(** * [seiz_sm.py]: the smart-moderator model                          *)
(* ================================================================== *)

Module SEIZSM.
Section SEIZSM.
Context {G : Type} `{RandomGen G}.

Record Agent : Type := mkAgent {
  state : State;
  profile : list float;
  toxic_messages : BinNums.Z;
  activity_level : BinNums.Z
}.

(** [[random.random(), random.random(), random.random()]] *)
Definition draw_profile (g : G) : list float * G :=
  let '(x1, g) := rng_random g in
  let '(x2, g) := rng_random g in
  let '(x3, g) := rng_random g in
  ([x1; x2; x3], g).

(** [Agent(state)] *)
Definition new_agent (s : State) (g : G) : Agent * G :=
  let '(pr, g) := draw_profile g in
  (mkAgent s pr 0 0, g).

Record SEIZSMModel : Type := mkSEIZSM {
  sm_graph : Graph;
  sm_params : dict string pyval;
  beta : float;
  b : float;
  rho : float;
  p : float;
  epsilon : float;
  l : float;
  n : BinNums.Z;
  theta : BinNums.Z;
  T : float;
  eta : float;
  lambd : float;
  agents : node -> Agent
}.

Definition with_agents (mo : SEIZSMModel) (ag : node -> Agent)
  : SEIZSMModel :=
  mkSEIZSM (sm_graph mo) (sm_params mo) (beta mo) (b mo) (rho mo) (p mo)
           (epsilon mo) (l mo) (n mo) (theta mo) (T mo) (eta mo)
           (lambd mo) ag.

(** [agent.state = s] on the agent of node [v]. *)
Definition set_state (ag : node -> Agent) (v : node) (s : State)
  : node -> Agent :=
  let a := ag v in
  upd ag v (mkAgent s (profile a) (toxic_messages a) (activity_level a)).

(** [SEIZSMModel.__init__]: the agents draw their profiles from the
    shared generator, in node order. *)
Definition init (gr : Graph) (beta b rho p epsilon l : float)
    (n theta : BinNums.Z) (T eta lambd : float) (g : G)
  : Model SEIZSMModel * G :=
  let params :=
    [("beta", PyFloat beta); ("b", PyFloat b); ("rho", PyFloat rho);
     ("p", PyFloat p); ("epsilon", PyFloat epsilon); ("l", PyFloat l);
     ("n", PyInt n); ("theta", PyInt theta); ("T", PyFloat T);
     ("eta", PyFloat eta); ("lambd", PyFloat lambd)]%string in
  let '(agents, g) :=
    fold_left
      (fun '(ag, g) v => let '(a, g) := new_agent Susceptible g in
                         (upd ag v a, g))
      (nodes gr) (fun _ => mkAgent Susceptible [] 0 0, g) in
  (new (mkSEIZSM gr params beta b rho p epsilon l n theta T eta lambd
                 agents), g).

Definition assign (nodes : list node) (s : State)
    (ag : node -> Agent) (i : BinNums.Z) : result (node -> Agent) :=
  v <- getitem nodes i ;; Ok (set_state ag v s).

(** The reset loop of [initialize_states]: state, fresh profile and both
    counters. *)
Definition reset (acc : (node -> Agent) * G) (v : node)
  : (node -> Agent) * G :=
  let '(ag, g) := acc in
  let '(pr, g) := draw_profile g in
  (upd ag v (mkAgent Susceptible pr 0 0), g).

Definition sm_initialize_states (mo : SEIZSMModel)
    (infected_frac skeptic_frac : float) (seed : option BinNums.Z) (g : G)
  : result (SEIZSMModel * G) :=
  let g := seed_if_given seed g in
  let '(nodes, g) := rng_shuffle (nodes (sm_graph mo)) g in
  let n := Z.of_nat (length nodes) in
  (* Reset all to susceptible and regenerate profiles *)
  let '(ag, g) := fold_left reset nodes (agents mo, g) in
  (* Set infected *)
  n_infected <- int_of_float (float_of_int n * infected_frac)%float ;;
  ag <- foldM (assign nodes Infected) (range 0 n_infected) ag ;;
  (* Set skeptics *)
  n_skeptic <- int_of_float (float_of_int n * skeptic_frac)%float ;;
  ag <- foldM (assign nodes Skeptic)
              (range n_infected (n_infected + n_skeptic)) ag ;;
  Ok (with_agents mo ag, g).

(** [sum(agent.profile) / 3.0] *)
Definition compute_toxicity (a : Agent) : float :=
  (Py.sum (profile a) / 3)%float.

Definition moderator_intervention (mo : SEIZSMModel) (a : Agent) (g : G)
  : Agent * G :=
  if theta mo <=? toxic_messages a then
    let dark_trait_factor := (1 - Py.sum (profile a) / 3)%float in
    let effective_eta := (eta mo * dark_trait_factor)%float in
    let '(u, g) := rng_random g in
    if (u <? effective_eta)%float then
      (mkAgent Exposed (profile a) 0 (activity_level a), g)
    else
      let '(u', g) := rng_random g in
      if (u' <? lambd mo)%float then
        (mkAgent Skeptic (profile a) 0 (activity_level a), g)
      else (a, g)
  else (a, g).

(** The body of the sender loop of [send_messages]. *)
Definition send_one (mo : SEIZSMModel)
    (acc : (node -> Agent) * list node * G) (sender : node)
  : (node -> Agent) * list node * G :=
  let '(ag, toxic_senders, g) := acc in
  let a := ag sender in
  let a := mkAgent (state a) (profile a) (toxic_messages a)
                   (activity_level a + 1) in
  match state a with
  | Infected =>
      let toxicity := compute_toxicity a in
      if (T mo <=? toxicity)%float then
        let a := mkAgent (state a) (profile a) (toxic_messages a + 1)
                         (activity_level a) in
        let toxic_senders := toxic_senders ++ [sender] in
        let '(a, g) := moderator_intervention mo a g in
        (upd ag sender a, toxic_senders, g)
      else (upd ag sender a, toxic_senders, g)
  | _ => (upd ag sender a, toxic_senders, g)
  end.

Definition send_messages (mo : SEIZSMModel) (g : G)
  : result (SEIZSMModel * list node * G) :=
  let nodes := nodes (sm_graph mo) in
  '(senders, g) <- sample nodes (Z.min (n mo) (Z.of_nat (length nodes))) g ;;
  let '(ag, toxic_senders, g) :=
    fold_left (send_one mo) senders (agents mo, [], g) in
  Ok (with_agents mo ag, toxic_senders, g).

(** The neighbour loop of [spread_toxicity], on the live store. *)
Definition spread_one (mo : SEIZSMModel) (acc : (node -> Agent) * G)
    (neighbor : node) : (node -> Agent) * G :=
  let '(ag, g) := acc in
  match state (ag neighbor) with
  | Susceptible =>
      let '(u, g) := rng_random g in
      if (u <? beta mo)%float then
        let '(u', g) := rng_random g in
        (set_state ag neighbor
           (if (u' <? p mo)%float then Infected else Exposed), g)
      else (ag, g)
  | Exposed =>
      let '(u, g) := rng_random g in
      if (u <? rho mo)%float then (set_state ag neighbor Infected, g)
      else (ag, g)
  | _ => (ag, g)
  end.

Definition spread_toxicity (mo : SEIZSMModel) (toxic_senders : list node)
    (g : G) : result (SEIZSMModel * G) :=
  '(ag, g) <-
    foldM (fun acc sender =>
             ns <- neighbors (sm_graph mo) sender ;;
             Ok (fold_left (spread_one mo) ns acc))
          toxic_senders (agents mo, g) ;;
  Ok (with_agents mo ag, g).

(** The node loop of [internal_transitions], on the live store. *)
Definition internal_one (mo : SEIZSMModel) (acc : (node -> Agent) * G)
    (v : node) : (node -> Agent) * G :=
  let '(ag, g) := acc in
  match state (ag v) with
  | Exposed =>
      let '(u, g) := rng_random g in
      if (u <? epsilon mo)%float then (set_state ag v Infected, g)
      else
        let '(u', g) := rng_random g in
        if (u' <? lambd mo)%float then (set_state ag v Skeptic, g)
        else (ag, g)
  | _ => (ag, g)
  end.

Definition internal_transitions (mo : SEIZSMModel) (g : G)
  : SEIZSMModel * G :=
  let '(ag, g) :=
    fold_left (internal_one mo) (nodes (sm_graph mo)) (agents mo, g) in
  (with_agents mo ag, g).

Definition sm_step (mo : SEIZSMModel) (g : G) : result (SEIZSMModel * G) :=
  '(mo, toxic_senders, g) <- send_messages mo g ;;
  '(mo, g) <- spread_toxicity mo toxic_senders g ;;
  Ok (internal_transitions mo g).

Definition sm_get_states (mo : SEIZSMModel) : dict node State :=
  fold_left (fun states v => Py.set states v (state (agents mo v)))
            (nodes (sm_graph mo)) [].

#[export] Instance SEIZSM_model : EpidemicModel SEIZSMModel := {|
  class_name := "SEIZSMModel";
  graph := sm_graph;
  params := sm_params;
  initialize_states := sm_initialize_states;
  step := sm_step;
  get_states := sm_get_states
|}.
End SEIZSM.
End SEIZSM.

(* ================================================================== *)
(** * A concrete generator                                             *)
(* ================================================================== *)

(** A 64-bit linear congruential generator with the interface of
    [RandomGen].  It stands in for the Mersenne Twister of CPython wherever
    a model is run on a concrete input; no theorem about the models depends
    on which lawful generator is used. *)
Module Lcg.

Definition next (s : BinNums.Z) : BinNums.Z :=
  (6364136223846793005 * s + 1442695040888963407) mod 2 ^ 64.

Definition seed (k : BinNums.Z) : BinNums.Z := next (k mod 2 ^ 64).

(** A float in [0, 1): the top 53 bits of the state over [2^53]. *)
Definition random (s : BinNums.Z) : float * BinNums.Z :=
  let s' := next s in
  ((PrimFloat.of_uint63 (Uint63.of_Z (s' / 2 ^ 11)) / 0x1p53)%float, s').

Definition randbelow (n : nat) (s : BinNums.Z) : nat * BinNums.Z :=
  let s' := next s in
  (Z.to_nat ((s' / 2 ^ 32) mod Z.of_nat n), s').

(** Insert each element at a drawn position of the shuffled tail. *)
Fixpoint shuffle (xs : list node) (s : BinNums.Z)
  : list node * BinNums.Z :=
  match xs with
  | [] => ([], s)
  | x :: xs' =>
      let '(ys, s) := shuffle xs' s in
      let '(i, s) := randbelow (Datatypes.S (length ys)) s in
      (firstn i ys ++ x :: skipn i ys, s)
  end.

Definition sample (xs : list node) (k : nat) (s : BinNums.Z)
  : list node * BinNums.Z :=
  let '(ys, s) := shuffle xs s in (firstn k ys, s).

Lemma randbelow_lt n s : (0 < n)%nat -> (fst (randbelow n s) < n)%nat.
Proof.
  intros Hn. unfold randbelow. cbn [fst].
  pose proof (Z.mod_pos_bound (next s / 2 ^ 32) (Z.of_nat n)) as Hb.
  lia.
Qed.

Lemma shuffle_perm xs s : Permutation xs (fst (shuffle xs s)).
Proof.
  revert s. induction xs as [|x xs IH]; intros s; simpl.
  - constructor.
  - specialize (IH s). destruct (shuffle xs s) as [ys s1]. simpl in IH.
    destruct (randbelow (Datatypes.S (length ys)) s1) as [i s2]. simpl.
    apply Permutation_cons_app. now rewrite firstn_skipn.
Qed.

Lemma sample_incl xs k s : incl (fst (sample xs k s)) xs.
Proof.
  unfold sample. pose proof (shuffle_perm xs s) as Hp.
  destruct (shuffle xs s) as [ys s1]. simpl in *.
  intros v Hv. apply (Permutation_in v (Permutation_sym Hp)).
  rewrite <- (firstn_skipn k ys). apply in_or_app. now left.
Qed.

Lemma sample_length xs k s :
  (k <= length xs)%nat -> length (fst (sample xs k s)) = k.
Proof.
  intros Hk. unfold sample. pose proof (shuffle_perm xs s) as Hp.
  destruct (shuffle xs s) as [ys s1]. simpl in *.
  apply firstn_length_le. now rewrite <- (Permutation_length Hp).
Qed.

#[export] Instance gen : RandomGen BinNums.Z := {|
  rng_seed := seed;
  rng_random := random;
  rng_randbelow := randbelow;
  rng_shuffle := shuffle;
  rng_sample := sample;
  rng_randbelow_lt := randbelow_lt;
  rng_shuffle_perm := shuffle_perm;
  rng_sample_incl := sample_incl;
  rng_sample_length := sample_length
|}.

End Lcg.

(* ================================================================== *)
(** * The three variants behind one interface                          *)
(* ================================================================== *)

(** A model object of any of the three classes; the methods dispatch on
    the class, as a call through [BaseEpidemicModel] does. *)
Inductive Variant : Type :=
| Baseline (m : SEIZ.SEIZModel)
| BasicModerator (m : SEIZBM.SEIZBMModel)
| SmartModerator (m : SEIZSM.SEIZSMModel).

#[global] Existing Instance SEIZ.SEIZ_model.
#[global] Existing Instance SEIZBM.SEIZBM_model.
#[global] Existing Instance SEIZSM.SEIZSM_model.

Section Variants.
Context {G : Type} `{RandomGen G}.

Definition lift {M} (c : M -> Variant) (r : result (M * G))
  : result (Variant * G) :=
  fmap (fun '(m, g) => (c m, g)) r.

#[export] Instance Variant_model : EpidemicModel Variant := {|
  class_name := "BaseEpidemicModel";
  graph v :=
    match v with
    | Baseline m => graph m
    | BasicModerator m => graph m
    | SmartModerator m => graph m
    end;
  params v :=
    match v with
    | Baseline m => params m
    | BasicModerator m => params m
    | SmartModerator m => params m
    end;
  initialize_states v infected_frac skeptic_frac seed g :=
    match v with
    | Baseline m =>
        lift Baseline (initialize_states m infected_frac skeptic_frac seed g)
    | BasicModerator m =>
        lift BasicModerator
             (initialize_states m infected_frac skeptic_frac seed g)
    | SmartModerator m =>
        lift SmartModerator
             (initialize_states m infected_frac skeptic_frac seed g)
    end;
  step v g :=
    match v with
    | Baseline m => lift Baseline (step m g)
    | BasicModerator m => lift BasicModerator (step m g)
    | SmartModerator m => lift SmartModerator (step m g)
    end;
  get_states v :=
    match v with
    | Baseline m => get_states m
    | BasicModerator m => get_states m
    | SmartModerator m => get_states m
    end
|}.

(** What the constructors establish and no method breaks: the graph is
    a graph, the baseline dictionary has the nodes as its keys, in order,
    and the smart moderator sends a non-negative number of messages. *)
Definition well_formed (v : Variant) : Prop :=
  match v with
  | Baseline m =>
      wf_graph (SEIZ.seiz_graph m) /\
      keys (SEIZ.states m) = nodes (SEIZ.seiz_graph m)
  | BasicModerator m => wf_graph (SEIZBM.bm_graph m)
  | SmartModerator m => wf_graph (SEIZSM.sm_graph m) /\ 0 <= SEIZSM.n m
  end.

(** [k] calls of [step] in a row. *)
Fixpoint steps {M : Type} `{EpidemicModel (G:=G) M} (k : nat) (m : M) (g : G)
  : result (M * G) :=
  match k with
  | O => Ok (m, g)
  | Datatypes.S k' => '(m', g') <- step m g ;; steps k' m' g'
  end.
End Variants.

(** The number of nodes in state [s] of a [get_states] table. *)
Definition population (s : State) (states : dict node State) : BinNums.Z :=
  Z.of_nat (length (filter (state_eqb s) (values states))).

(** [d[k]] for a count that is present, [0] otherwise. *)
Definition count_of (c : Counts) (k : string) : BinNums.Z :=
  match Py.get c k with
  | Some n => n
  | None => 0
  end.

(* ================================================================== *)
(** * Example networks                                                 *)
(* ================================================================== *)

(** The path [0 - 1 - ... - (n-1)]. *)
Definition path (n : nat) : Graph :=
  map (fun v =>
         (v, (if Nat.eqb v 0 then [] else [Nat.pred v]) ++
             (if Nat.eqb (Datatypes.S v) n then [] else [Datatypes.S v])))
      (seq 0 n).

(** A checker for [wf_graph], for concrete networks. *)
Fixpoint nodupb (xs : list node) : bool :=
  match xs with
  | [] => true
  | x :: xs' => negb (existsb (Nat.eqb x) xs') && nodupb xs'
  end.

Definition check_graph (gr : Graph) : bool :=
  nodupb (nodes gr) &&
  forallb (fun '(_, ns) => forallb (fun u => existsb (Nat.eqb u) (nodes gr)) ns)
          gr.

(* ================================================================== *)
(** * A reference [math.exp]                                           *)
(* ================================================================== *)

(** An exponential on binary64 with the special cases of the C function
    (NaN, the infinities, the overflow threshold above which CPython raises
    [OverflowError], the underflow threshold below which the result is
    [+0]); in between, argument reduction by multiples of [ln 2] and a
    Taylor polynomial.  It stands in for the C library wherever the baseline
    constructor is run on a concrete input. *)
Module RefMath.

Definition ln2_hi : float := 0x1.62e42fee00000p-1%float.
Definition ln2_lo : float := 0x1.a39ef35793c76p-33%float.
Definition inv_ln2 : float := 0x1.71547652b82fep+0%float.

(** [sum r^i / i!] for [i <= 14], by Horner's rule. *)
Definition poly (r : float) : float :=
fold_right (fun c acc => (c + r * acc)%float) 0%float
  (map (fun i => (1 / float_of_int i)%float)
       [1; 1; 2; 6; 24; 120; 720; 5040; 40320; 362880; 3628800; 39916800;
        479001600; 6227020800; 87178291200]).

Definition exp (x : float) : result float :=
if PrimFloat.is_nan x then Ok x
else if (0x1.62e42fefa39efp+9 <? x)%float then
  if PrimFloat.is_infinity x then Ok x else Raise OverflowError
else if (x <? -0x1.74910d52d3051p+9)%float then Ok 0%float
else
  let t := (x * inv_ln2)%float in
  match int_of_float (if (t <? 0)%float then t - 0.5 else t + 0.5)%float with
  | inl k =>
      let kf := float_of_int k in
      let r := (x - kf * ln2_hi - kf * ln2_lo)%float in
      Ok (Z.ldexp (poly r) k)
  | inr e => Raise e
  end.

#[export] Instance lib : MathLib := {| math_exp := exp |}.

End RefMath.

(* ================================================================== *)
(** * Example models                                                   *)
(* ================================================================== *)

(** The three models on the path of ten nodes, with the parameter values
    of the package's tests, the generator being [Lcg]. *)
Module Examples.

#[local] Existing Instance Lcg.gen.
#[local] Existing Instance RefMath.lib.
#[local] Set Warnings "-inexact-float".

(** The value of a call that returned. *)
Definition returned {A} (default : A) (r : result A) : A :=
match r with
| inl a => a
| inr _ => default
  end.

Definition baseline10 : Model SEIZ.SEIZModel :=
returned
  (new (SEIZ.mkSEIZ [] [] 0 0 0 0 0 0 0 0 0 0 0 []))
  (SEIZ.init (path 10) 0.3%float 0.2%float 0.2%float 0.1%float 0.5%float
             0.4%float 1%float).

Definition basic10 : Model SEIZBM.SEIZBMModel :=
SEIZBM.init (path 10) 0.3%float 0.2%float 0.2%float 0.5%float 0.1%float
            0.4%float 0.1%float 0.5%float.

Definition smart10 : Model SEIZSM.SEIZSMModel :=
fst (SEIZSM.init (path 10) 0.3%float 0.2%float 0.2%float 0.5%float
                 0.1%float 0.4%float 5 3 0.5%float 0.3%float 0.1%float
                 (Lcg.seed 1)).

(** Nodes 0-2 skeptic, 3-5 infected, 6-7 exposed, 8-9 susceptible. *)
Definition mixed (v : node) : State :=
if Nat.ltb v 3 then Skeptic
else if Nat.ltb v 6 then Infected
else if Nat.ltb v 8 then Exposed
else Susceptible.

Definition basic10_mixed : SEIZBM.SEIZBMModel :=
SEIZBM.with_agents (self basic10) (fun v => SEIZBM.mkAgent (mixed v)).

Definition smart10_mixed : SEIZSM.SEIZSMModel :=
SEIZSM.with_agents (self smart10)
  (fun v => SEIZSM.mkAgent (mixed v) [0.9; 0.8; 0.7]%float 0 0).

Definition baseline10_mixed : SEIZ.SEIZModel :=
SEIZ.with_states (self baseline10)
  (map (fun v => (v, mixed v)) (nodes (path 10))).

(** Infected and susceptible nodes in turn along the path: every
    susceptible node has an infected neighbour on each side. *)
Definition baseline10_alternating : SEIZ.SEIZModel :=
  SEIZ.with_states (self baseline10)
    (map (fun v => (v, if Nat.even v then Infected else Susceptible))
         (nodes (path 10))).

(** A second basic-moderator object over the same graph, every agent
  infected. *)
Definition basic10_infected : SEIZBM.SEIZBMModel :=
SEIZBM.with_agents (self basic10) (fun _ => SEIZBM.mkAgent Infected).

End Examples.

(* ================================================================== *)
(** * Vocabulary of the statements                                     *)
(* ================================================================== *)

(** A table of counts is the census of the state table [states] of a
    network of [n] nodes: under the key of each state stands the number of
    entries of [states] in that state, 0 for a state no node is in, and
    the four counts sum to [n]. *)
Definition census (c : Counts) (states : dict node State) (n : BinNums.Z)
  : Prop :=
  (forall s, Py.get c (state_name s) = Some (population s states)) /\
  (forall s, ~ In s (values states) ->
             Py.get c (state_name s) = Some 0) /\
  population Susceptible states + population Exposed states +
  population Infected states + population Skeptic states = n.

(** The state of each node as the store of a model object has it. *)
Definition state_of (v : Variant) : node -> State :=
  match v with
  | Baseline m =>
      fun u => match Py.get (SEIZ.states m) u with
               | Some s => s
               | None => Susceptible
               end
  | BasicModerator m => fun u => SEIZBM.state (SEIZBM.agents m u)
  | SmartModerator m => fun u => SEIZSM.state (SEIZSM.agents m u)
  end.

Section Over.
Context {G : Type} `{RandomGen G}.

(** A model over the graph of [v]: the invariant of a run. *)
Definition over (v : Variant) (v' : Variant) : Prop :=
  well_formed v' /\ graph v' = graph v.
End Over.

(** ** [count_states] *)

(** The tally of [Counter], started from any table. *)
Definition tally (c : Counts) (xs : list State) : Counts :=
  fold_left
    (fun c s =>
       let k := state_name s in
       Py.set c k (match Py.get c k with Some n => n + 1 | None => 1 end))
    xs c.

(** The zero fill of [count_states]. *)
Definition zero_fill (ks : list string) (c : Counts) : Counts :=
  fold_left
    (fun counts state =>
       if negb (contains counts state) then Py.set counts state 0
       else counts)
    ks c.

(** ** [initialize_states] *)

(** Two computations end alike: related values, or the same exception. *)
Definition ends_alike {A A'} (R : A -> A' -> Prop)
    (r : result A) (r' : result A') : Prop :=
  match r, r' with
  | inl a, inl a' => R a a'
  | inr e, inr e' => e = e'
  | _, _ => False
  end.

(** The three variants run the same three loops over the shuffled node
    list; [plan] is those loops on a bare map from nodes to states. *)
Definition paint (s : State) (f : node -> State) (vs : list node)
  : node -> State :=
  fold_left (fun f v => upd f v s) vs f.

Definition plan_assign (xs : list node) (s : State) (f : node -> State)
    (i : BinNums.Z) : result (node -> State) :=
  v <- getitem xs i ;; Ok (upd f v s).

Definition plan (xs : list node) (infected_frac skeptic_frac : float)
    (f : node -> State) : result (node -> State) :=
  let n := Z.of_nat (length xs) in
  let f := paint Susceptible f xs in
  n_infected <- int_of_float (float_of_int n * infected_frac)%float ;;
  f <- foldM (plan_assign xs Infected) (range 0 n_infected) f ;;
  n_skeptic <- int_of_float (float_of_int n * skeptic_frac)%float ;;
  foldM (plan_assign xs Skeptic) (range n_infected (n_infected + n_skeptic)) f.

(** The indices of an assignment loop that Python accepts on a list of
    [len] items: none at all, or all of them from [-len] to [len - 1] (a
    negative index counts from the end). *)
Definition indices_fit (len lo count : BinNums.Z) : Prop :=
  0 < count -> - len <= lo /\ lo + count <= len.

(** Both loops of [initialize_states] find every index they use inside
    the shuffled list of [n] nodes: the infected loop runs over
    [0, ..., n_infected - 1], the skeptic loop over
    [n_infected, ..., n_infected + n_skeptic - 1]. *)
Definition counts_fit (n n_infected n_skeptic : BinNums.Z) : Prop :=
  indices_fit n 0 n_infected /\ indices_fit n n_infected n_skeptic.

(** The states after a call that fits: of the shuffled nodes [xs], the
    first [ni] infected, the next [nz] skeptic, the others susceptible. *)
Definition final (xs : list node) (ni nz : nat) (f : node -> State)
  : node -> State :=
  paint Skeptic (paint Infected (paint Susceptible f xs) (firstn ni xs))
        (firstn nz (skipn ni xs)).

(** The [get_states] table of a map over the nodes [ks]. *)
Definition table (ks : list node) (f : node -> State) : dict node State :=
  map (fun v => (v, f v)) ks.

(** The shuffled node list of a call of [initialize_states] on the graph
    [gr]. *)
Definition shuffled {G : Type} `{RandomGen G} (seed : option BinNums.Z)
    (gr : Graph) (g : G) : list node :=
  fst (rng_shuffle (nodes gr) (seed_if_given seed g)).

(** The baseline dictionary [st] holds the map [f] on the keys [ks]. *)
Definition holds (ks : list node) (st : dict node State) (f : node -> State)
  : Prop :=
  keys st = ks /\ forall v, In v ks -> Py.get st v = Some (f v).

(** The agents of a moderated model hold the map [f]. *)
Definition bm_agree (ag : node -> SEIZBM.Agent) (f : node -> State) : Prop :=
  forall v, SEIZBM.state (ag v) = f v.

Definition sm_agree (ag : node -> SEIZSM.Agent) (f : node -> State) : Prop :=
  forall v, SEIZSM.state (ag v) = f v.

(** ** Binary64 *)

(** Not a negative number: a zero of either sign, a positive finite value,
    [+inf] or a NaN. *)
Definition not_negative (x : spec_float) : Prop :=
  match x with
  | S754_finite s _ _ => s = false
  | S754_infinity s => s = false
  | _ => True
  end.

(** ** [step] *)

(** A proposal [x] for node [v] that the rules of the baseline allow in
    the configuration [states m]: a contact of a susceptible [v] with an
    infected or skeptic neighbour [u], or the internal progression of an
    exposed or infected [v]. *)
Definition justified (m : SEIZ.SEIZModel) (v : node) (x : State) : Prop :=
  (Py.get (SEIZ.states m) v = Some Susceptible /\
   exists u ns, neighbors (SEIZ.seiz_graph m) u = Ok ns /\ In v ns /\
     ((Py.get (SEIZ.states m) u = Some Infected /\
       (x = Infected \/ x = Exposed)) \/
      (Py.get (SEIZ.states m) u = Some Skeptic /\
       (x = Skeptic \/ x = Exposed)))) \/
  (Py.get (SEIZ.states m) v = Some Exposed /\ x = Infected) \/
  (Py.get (SEIZ.states m) v = Some Infected /\ x = Exposed).

(** What holds of the proposal table of the baseline all along its
    construction. *)
Definition sound (m : SEIZ.SEIZModel) (proposals : dict node (list State))
  : Prop :=
  NoDup (keys proposals) /\
  forall v plist, Py.get proposals v = Some plist ->
    plist <> [] /\ In v (keys (SEIZ.states m)) /\
    Forall (justified m v) plist.

(** The third loop as the specification words it: one draw for each
    proposed node, in the order of the proposal table and each on the
    generator the draw before it left; the draw is
    [randbelow(len(plist))], the index of the proposal taken. *)
Fixpoint one_choice_each {G : Type} `{RandomGen G}
    (proposals : dict node (list State)) (g : G)
  : dict node State * G :=
  match proposals with
  | [] => ([], g)
  | (v, plist) :: rest =>
      let '(i, g1) := rng_randbelow (length plist) g in
      let '(chosen, g') := one_choice_each rest g1 in
      ((v, nth i plist Susceptible) :: chosen, g')
  end.

(** Only nodes that are not skeptic get an entry in the [new_states] of
    the basic moderator. *)
Definition bm_buffer_ok (mo : SEIZBM.SEIZBMModel)
    (new_states : dict node State) : Prop :=
  forall u, Py.get new_states u <> None ->
            SEIZBM.state (SEIZBM.agents mo u) <> Skeptic.

(** Every skeptic of [ag] is a skeptic of [ag']. *)
Definition keeps_skeptics (ag ag' : node -> SEIZSM.Agent) : Prop :=
  forall u, SEIZSM.state (ag u) = Skeptic -> SEIZSM.state (ag' u) = Skeptic.

(** ** Rates and probabilities *)

(** [0 <= x <= 1], as the comparisons of binary64 decide it: false on a
    NaN. *)
Definition in_unit (x : float) : bool := ((0 <=? x) && (x <=? 1))%float.

(** The mantissa [m] at exponent [e <= 0] is a value of at most one. *)
Definition at_most_one (m e : BinNums.Z) : Prop :=
  e <= 0 /\ 0 <= m <= 2 ^ (- e).

(** Two baseline objects that differ at most in the rates and the step
    size they were built from. *)
Definition same_probabilities (m1 m2 : SEIZ.SEIZModel) : Prop :=
  SEIZ.seiz_graph m1 = SEIZ.seiz_graph m2 /\
  SEIZ.states m1 = SEIZ.states m2 /\
  SEIZ.prob_contact_I m1 = SEIZ.prob_contact_I m2 /\
  SEIZ.prob_contact_Z m1 = SEIZ.prob_contact_Z m2 /\
  SEIZ.prob_E_to_I m1 = SEIZ.prob_E_to_I m2 /\
  SEIZ.prob_I_to_E m1 = SEIZ.prob_I_to_E m2 /\
  SEIZ.p m1 = SEIZ.p m2 /\ SEIZ.l m1 = SEIZ.l m2.

(** ** Constructors *)

(** A model as a constructor leaves it over the graph [gr]: well formed,
    every node susceptible. *)
Definition fresh {G : Type} `{RandomGen G} (gr : Graph) (v : Variant)
  : Prop :=
  well_formed v /\ graph v = gr /\
  get_states v = table (nodes gr) (fun _ => Susceptible) /\
  map (fun s => Py.get (count_states v) (state_name s)) all_states =
  [Some (number_of_nodes gr); Some 0; Some 0; Some 0].

(** ** Transitions *)

(** The changes of state one call of [step] can make to a node, class by
    class: a susceptible node can end in any state and a skeptic node in
    none but its own; an exposed node can become infected, and skeptic
    under the smart moderator only; an infected node can fall back to
    exposed in the baseline and under the smart moderator, become skeptic
    under the smart moderator and susceptible under the basic moderator
    only. *)
Definition may_become (v : Variant) (s s' : State) : bool :=
  match s, s' with
  | Susceptible, _ => true
  | Skeptic, Skeptic => true
  | Exposed, (Exposed | Infected) => true
  | Infected, Infected => true
  | Infected, Exposed =>
      match v with BasicModerator _ => false | _ => true end
  | Infected, Susceptible =>
      match v with BasicModerator _ => true | _ => false end
  | (Exposed | Infected), Skeptic =>
      match v with SmartModerator _ => true | _ => false end
  | _, _ => false
  end.

(** [w] is a node whose contact can move the susceptible node [u] in a
    step of [v]: an infected or skeptic node that lists [u] as a neighbour
    in the baseline; an infected or skeptic neighbour of [u] under the
    basic moderator; under the smart moderator an infected node that lists
    [u] as a neighbour and whose toxicity reaches [T]. *)
Definition spreader (v : Variant) (u w : node) : Prop :=
  match v with
  | Baseline m =>
      (exists ns, neighbors (SEIZ.seiz_graph m) w = Ok ns /\ In u ns) /\
      (Py.get (SEIZ.states m) w = Some Infected \/
       Py.get (SEIZ.states m) w = Some Skeptic)
  | BasicModerator m =>
      (exists ns, neighbors (SEIZBM.bm_graph m) u = Ok ns /\ In w ns) /\
      (SEIZBM.state (SEIZBM.agents m w) = Infected \/
       SEIZBM.state (SEIZBM.agents m w) = Skeptic)
  | SmartModerator m =>
      (exists ns, neighbors (SEIZSM.sm_graph m) w = Ok ns /\ In u ns) /\
      SEIZSM.state (SEIZSM.agents m w) = Infected /\
      (SEIZSM.T m <=? SEIZSM.compute_toxicity (SEIZSM.agents m w))%float =
      true
  end.

(** What the entry [s] of a node in state [s0] in the [new_states] buffer
    of the basic moderator can be, [near] telling that some neighbour is
    infected or skeptic. *)
Definition bm_entry (s0 s : State) (near : Prop) : Prop :=
  match s0 with
  | Susceptible => s <> Susceptible /\ near
  | Exposed => s = Infected
  | Infected => s = Susceptible
  | Skeptic => False
  end.

(** The buffer of the basic moderator all along the node loop. *)
Definition bm_buffer_rules (mo : SEIZBM.SEIZBMModel)
    (new_states : dict node State) : Prop :=
  NoDup (keys new_states) /\
  forall u s, Py.get new_states u = Some s ->
    bm_entry (SEIZBM.state (SEIZBM.agents mo u)) s
      (exists w, spreader (BasicModerator mo) u w).

(** The three phases of a step of the smart moderator. *)
Definition send_rule (s s' : State) : bool :=
  match s, s' with
  | Infected, (Exposed | Skeptic) => true
  | _, _ => state_eqb s s'
  end.

Definition spread_rule (s s' : State) : bool :=
  match s, s' with
  | Susceptible, (Exposed | Infected) => true
  | Exposed, Infected => true
  | _, _ => state_eqb s s'
  end.

Definition internal_rule (s s' : State) : bool :=
  match s, s' with
  | Exposed, (Infected | Skeptic) => true
  | _, _ => state_eqb s s'
  end.

(** The agents [ag'] come from [ag] by changes of state that [R] allows,
    every profile being kept. *)
Definition sm_follows (R : State -> State -> bool)
    (ag ag' : node -> SEIZSM.Agent) : Prop :=
  forall u, R (SEIZSM.state (ag u)) (SEIZSM.state (ag' u)) = true /\
            SEIZSM.profile (ag' u) = SEIZSM.profile (ag u).

(** The class whose step can take a node back to the susceptible state. *)
Definition recovers (v : Variant) : bool :=
  match v with
  | BasicModerator _ => true
  | _ => false
  end.

(** Two objects of the same class. *)
Definition same_class (v v' : Variant) : bool :=
  match v, v' with
  | Baseline _, Baseline _ => true
  | BasicModerator _, BasicModerator _ => true
  | SmartModerator _, SmartModerator _ => true
  | _, _ => false
  end.

(** ** The smart moderator *)

(** Two smart-moderator objects that differ at most in [b], in [l] and in
    the parameter table handed to the base class. *)
Definition same_but_b_l (mo1 mo2 : SEIZSM.SEIZSMModel) : Prop :=
  SEIZSM.sm_graph mo1 = SEIZSM.sm_graph mo2 /\
  SEIZSM.agents mo1 = SEIZSM.agents mo2 /\
  (SEIZSM.beta mo1, SEIZSM.rho mo1, SEIZSM.p mo1, SEIZSM.epsilon mo1) =
  (SEIZSM.beta mo2, SEIZSM.rho mo2, SEIZSM.p mo2, SEIZSM.epsilon mo2) /\
  (SEIZSM.n mo1, SEIZSM.theta mo1) = (SEIZSM.n mo2, SEIZSM.theta mo2) /\
  (SEIZSM.T mo1, SEIZSM.eta mo1, SEIZSM.lambd mo1) =
  (SEIZSM.T mo2, SEIZSM.eta mo2, SEIZSM.lambd mo2).

(** The message [random.sample] raises with. *)
Definition sample_error : exn :=
  ValueError "Sample larger than population or is negative".

(** An agent as [initialize_states] of the smart moderator leaves it,
    whatever its state: a profile of three traits, both counters at 0. *)
Definition reset_agent (a : SEIZSM.Agent) : Prop :=
  length (SEIZSM.profile a) = 3%nat /\
  SEIZSM.toxic_messages a = 0 /\ SEIZSM.activity_level a = 0.

(** Two agents that differ at most in their state. *)
Definition same_but_state (a a' : SEIZSM.Agent) : Prop :=
  SEIZSM.profile a' = SEIZSM.profile a /\
  SEIZSM.toxic_messages a' = SEIZSM.toxic_messages a /\
  SEIZSM.activity_level a' = SEIZSM.activity_level a.

(** The activity levels of the agents [ag], summed over the nodes [ks]. *)
Definition activity_sum (ag : node -> SEIZSM.Agent) (ks : list node)
  : BinNums.Z :=
  fold_right Z.add 0 (map (fun v => SEIZSM.activity_level (ag v)) ks).

(** The messages sent so far, over all agents of the network. *)
Definition total_activity (mo : SEIZSM.SEIZSMModel) : BinNums.Z :=
  activity_sum (SEIZSM.agents mo) (nodes (SEIZSM.sm_graph mo)).

(** What no phase of a step of the smart moderator does to the agents:
    from [ag] to [ag'] every profile is kept, no counter of toxic messages
    that was not negative becomes negative, and an infected agent whose
    toxicity is below the threshold [T] stays infected, with its
    counter. *)
Definition sm_inert (T : float) (ag ag' : node -> SEIZSM.Agent) : Prop :=
  forall u,
    SEIZSM.profile (ag' u) = SEIZSM.profile (ag u) /\
    (0 <= SEIZSM.toxic_messages (ag u) ->
     0 <= SEIZSM.toxic_messages (ag' u)) /\
    (SEIZSM.state (ag u) = Infected ->
     (T <=? SEIZSM.compute_toxicity (ag u))%float = false ->
     SEIZSM.state (ag' u) = Infected /\
     SEIZSM.toxic_messages (ag' u) = SEIZSM.toxic_messages (ag u)).

(** No node of the network has left the susceptible state: the model as
    its constructor leaves it, before any call of [initialize_states]. *)
Definition all_susceptible {G : Type} `{RandomGen G} (v : Variant) : Prop :=
  forall u, In u (nodes (graph v)) -> state_of v u = Susceptible.

(** The exception [int] raises on a NaN. *)
Definition nan_error : exn :=
  ValueError "cannot convert float NaN to integer".

(* ================================================================== *)
(** * Dictionaries                                                     *)
(* ================================================================== *)

Section DictFacts.
Context {K V : Type} `{Key K}.
Implicit Types (d : dict K V) (k : K) (v : V).

Lemma keq_refl k : keq k k = true.
Proof. destruct (keq_spec k k); congruence. Qed.

Lemma keq_neq k k' : k <> k' -> keq k k' = false.
Proof. intros Hn. destruct (keq_spec k k'); congruence. Qed.

Lemma get_set_same d k v : Py.get (Py.set d k v) k = Some v.
Proof.
  induction d as [|[k' v'] d IH]; simpl.
  - now rewrite keq_refl.
  - destruct (keq_spec k k') as [->|Hn]; simpl.
    + now rewrite keq_refl.
    + now rewrite (keq_neq _ _ Hn).
Qed.

Lemma get_set_other d k k' v :
  k <> k' -> Py.get (Py.set d k v) k' = Py.get d k'.
Proof.
  intros Hn. induction d as [|[k0 v0] d IH]; simpl.
  - rewrite keq_neq; congruence.
  - destruct (keq_spec k k0) as [->|Hn0]; simpl.
    + rewrite keq_neq; congruence.
    + now rewrite IH.
Qed.

Lemma get_In_keys d k : Py.get d k <> None <-> In k (keys d).
Proof.
  induction d as [|[k' v'] d IH]; simpl.
  - tauto.
  - destruct (keq_spec k k') as [->|Hn].
    + split; [now left | discriminate].
    + rewrite IH. split; [tauto | intros [->|]; tauto].
Qed.

Lemma get_None_keys d k : Py.get d k = None <-> ~ In k (keys d).
Proof.
  rewrite <- get_In_keys. destruct (Py.get d k); split; try tauto;
    try congruence. intros Hn. exfalso. apply Hn. discriminate.
Qed.

Lemma keys_set_in d k v : In k (keys d) -> keys (Py.set d k v) = keys d.
Proof.
  induction d as [|[k' v'] d IH]; simpl; [tauto|].
  intros Hin. destruct (keq_spec k k') as [->|Hn]; simpl; [easy|].
  f_equal. apply IH. destruct Hin; congruence.
Qed.

Lemma keys_set_notin d k v :
  ~ In k (keys d) -> keys (Py.set d k v) = keys d ++ [k].
Proof.
  induction d as [|[k' v'] d IH]; simpl; [easy|].
  intros Hin. destruct (keq_spec k k') as [->|Hn]; simpl; [tauto|].
  f_equal. apply IH. tauto.
Qed.

Lemma set_notin d k v : ~ In k (keys d) -> Py.set d k v = d ++ [(k, v)].
Proof.
  induction d as [|[k' v'] d IH]; simpl; [reflexivity|].
  intros Hin. destruct (keq_spec k k') as [->|Hn]; [tauto|].
  f_equal. apply IH. tauto.
Qed.

Lemma get_In d k v : NoDup (keys d) -> In (k, v) d -> Py.get d k = Some v.
Proof.
  induction d as [|[k' v'] d IH]; simpl; [tauto|].
  intros Hnd [Heq|Hin].
  - inversion Heq; subst. now rewrite keq_refl.
  - inversion Hnd as [|? ? Hk' Hnd']; subst.
    destruct (keq_spec k k') as [->|Hn]; [|now apply IH].
    exfalso. apply Hk'. apply (in_map fst) in Hin. exact Hin.
Qed.

Lemma In_get d k v : Py.get d k = Some v -> In (k, v) d.
Proof.
  induction d as [|[k' v'] d IH]; simpl; [discriminate|].
  destruct (keq_spec k k') as [->|Hn].
  - intros [= ->]. now left.
  - intros Hg. right. now apply IH.
Qed.
End DictFacts.

(* ================================================================== *)
(** * [count_states]                                                   *)
(* ================================================================== *)

Lemma state_name_inj a b : state_name a = state_name b -> a = b.
Proof. destruct a, b; simpl; congruence. Qed.

Lemma state_eqb_refl s : state_eqb s s = true.
Proof. now destruct s. Qed.

Lemma count_of_set_same (c : Counts) k n : count_of (Py.set c k n) k = n.
Proof. unfold count_of. now rewrite get_set_same. Qed.

Lemma count_of_set_other (c : Counts) k k' n :
  k <> k' -> count_of (Py.set c k n) k' = count_of c k'.
Proof. intros Hn. unfold count_of. now rewrite get_set_other. Qed.


Lemma tally_cons c x xs :
  tally c (x :: xs) =
  tally (Py.set c (state_name x)
           (match Py.get c (state_name x) with Some n => n + 1 | None => 1 end))
        xs.
Proof. reflexivity. Qed.

Lemma tally_count xs : forall c s,
  count_of (tally c xs) (state_name s) =
  count_of c (state_name s) + Z.of_nat (length (filter (state_eqb s) xs)).
Proof.
  induction xs as [|x xs IH]; intros c s.
  - simpl. lia.
  - rewrite tally_cons, IH. clear IH. simpl filter.
    destruct (state_eqb_spec s x) as [->|Hn].
    + rewrite count_of_set_same. unfold count_of.
      destruct (Py.get c (state_name x)); simpl length; lia.
    + rewrite count_of_set_other; [lia|].
      intros Heq. apply Hn. symmetry. now apply state_name_inj.
Qed.

Lemma tally_present xs : forall c k,
  Py.get c k <> None -> Py.get (tally c xs) k <> None.
Proof.
  induction xs as [|x xs IH]; intros c k Hk; [exact Hk|].
  rewrite tally_cons. apply IH.
  destruct (string_dec (state_name x) k) as [<-|Hn].
  - rewrite get_set_same. discriminate.
  - now rewrite get_set_other.
Qed.

Lemma tally_seen xs : forall c s,
  In s xs -> Py.get (tally c xs) (state_name s) <> None.
Proof.
  induction xs as [|x xs IH]; intros c s; [simpl; tauto|].
  rewrite tally_cons. intros [->|Hin].
  - apply tally_present. rewrite get_set_same. discriminate.
  - now apply IH.
Qed.


Lemma zero_fill_cons c k ks :
  zero_fill (k :: ks) c =
  zero_fill ks (if negb (contains c k) then Py.set c k 0 else c).
Proof. reflexivity. Qed.

Lemma zero_fill_count ks : forall c k,
  count_of (zero_fill ks c) k = count_of c k.
Proof.
  induction ks as [|k0 ks IH]; intros c k; [easy|].
  rewrite zero_fill_cons, IH. unfold contains.
  destruct (Py.get c k0) eqn:Hg; simpl; [easy|].
  destruct (string_dec k0 k) as [<-|Hn].
  - rewrite count_of_set_same. unfold count_of. now rewrite Hg.
  - now rewrite count_of_set_other.
Qed.

Lemma zero_fill_keeps ks : forall c k,
  Py.get c k <> None -> Py.get (zero_fill ks c) k <> None.
Proof.
  induction ks as [|k0 ks IH]; intros c k Hk; [exact Hk|].
  rewrite zero_fill_cons. apply IH. unfold contains.
  destruct (Py.get c k0) eqn:Hg; simpl; [exact Hk|].
  destruct (string_dec k0 k) as [<-|Hn].
  - rewrite get_set_same. discriminate.
  - now rewrite get_set_other.
Qed.

Lemma zero_fill_present ks : forall c k,
  In k ks -> Py.get (zero_fill ks c) k <> None.
Proof.
  induction ks as [|k0 ks IH]; intros c k; [simpl; tauto|].
  rewrite zero_fill_cons. intros [->|Hin]; [|now apply IH].
  apply zero_fill_keeps. unfold contains.
  destruct (Py.get c k) eqn:Hg; simpl.
  - now rewrite Hg.
  - rewrite get_set_same. discriminate.
Qed.

Lemma population_total (states : dict node State) :
  population Susceptible states + population Exposed states +
  population Infected states + population Skeptic states =
  Z.of_nat (length states).
Proof.
  unfold population, values.
  induction states as [|[v s] states IH]; [reflexivity|].
  destruct s; cbn [map snd filter state_eqb length] in *;
    rewrite ?Nat2Z.inj_succ; lia.
Qed.

Section CountStates.
Context {G : Type} `{RandomGen G} {M : Type} `{EpidemicModel (G:=G) M}.

(** Every state key is present in the result of [count_states], with the
    number of nodes in that state, zero included. *)
Lemma count_states_get (m : M) (s : State) :
  Py.get (count_states m) (state_name s) =
  Some (population s (get_states m)).
Proof.
  assert (Hc : count_of (count_states m) (state_name s) =
               population s (get_states m)).
  { unfold count_states. fold (zero_fill ["S"; "E"; "I"; "Z"]%string).
    rewrite zero_fill_count. unfold Counter.
    fold (tally [] (values (get_states m))).
    rewrite tally_count. unfold population. reflexivity. }
  assert (Hp : Py.get (count_states m) (state_name s) <> None).
  { unfold count_states.
    apply (zero_fill_present ["S"; "E"; "I"; "Z"]%string).
    destruct s; simpl; tauto. }
  unfold count_of in Hc.
  destruct (Py.get (count_states m) (state_name s)); congruence.
Qed.

Lemma count_states_total (m : M) :
  count_of (count_states m) "S" + count_of (count_states m) "E" +
  count_of (count_states m) "I" + count_of (count_states m) "Z" =
  Z.of_nat (length (get_states m)).
Proof.
  pose proof (count_states_get m Susceptible) as HS.
  pose proof (count_states_get m Exposed) as HE.
  pose proof (count_states_get m Infected) as HI.
  pose proof (count_states_get m Skeptic) as HZ.
  simpl state_name in *. unfold count_of. rewrite HS, HE, HI, HZ.
  apply population_total.
Qed.

(** The key ["step"] added by [run] leaves the four counts as they are. *)
Lemma snapshot_get (m : M) (i : BinNums.Z) (s : State) :
  Py.get (snapshot m i) (state_name s) = Some (population s (get_states m)).
Proof.
  unfold snapshot. rewrite get_set_other; [apply count_states_get|].
  destruct s; discriminate.
Qed.

Lemma snapshot_step (m : M) (i : BinNums.Z) :
  Py.get (snapshot m i) "step"%string = Some i.
Proof. unfold snapshot. apply get_set_same. Qed.
End CountStates.

(* ================================================================== *)
(** * Loops that may raise                                             *)
(* ================================================================== *)


Lemma foldM_alike {A A' B} (R : A -> A' -> Prop)
    (f : A -> B -> result A) (f' : A' -> B -> result A') (xs : list B) :
  (forall a a' x, In x xs -> R a a' -> ends_alike R (f a x) (f' a' x)) ->
  forall a a', R a a' -> ends_alike R (foldM f xs a) (foldM f' xs a').
Proof.
  induction xs as [|x xs IH]; intros Hf a a' HR; simpl; [exact HR|].
  pose proof (Hf a a' x (or_introl eq_refl) HR) as Hx.
  destruct (f a x) as [a1|e], (f' a' x) as [a1'|e']; simpl in *; try easy.
  apply IH; [|exact Hx]. intros; apply Hf; [now right | assumption].
Qed.

Lemma foldM_app {A B} (f : A -> B -> result A) (xs ys : list B) (a : A) :
  foldM f (xs ++ ys) a = (a' <- foldM f xs a ;; foldM f ys a').
Proof.
  revert a. induction xs as [|x xs IH]; intros a; simpl; [reflexivity|].
  destruct (f a x); simpl; [apply IH | reflexivity].
Qed.

Lemma foldM_total {A B} (f : A -> B -> result A) (g : A -> B -> A)
    (xs : list B) (a : A) :
  (forall a x, f a x = Ok (g a x)) -> foldM f xs a = Ok (fold_left g xs a).
Proof.
  intros Hf. revert a. induction xs as [|x xs IH]; intros a; simpl.
  - reflexivity.
  - rewrite Hf. simpl. apply IH.
Qed.

Lemma range_nil lo hi : hi <= lo -> range lo hi = [].
Proof.
  intros Hle. unfold range.
  replace (Z.to_nat (hi - lo)) with 0%nat by lia. reflexivity.
Qed.

Lemma range_cons lo hi : lo < hi -> range lo hi = lo :: range (lo + 1) hi.
Proof.
  intros Hlt. unfold range.
  replace (Z.to_nat (hi - lo)) with (Datatypes.S (Z.to_nat (hi - (lo + 1))))
    by lia.
  simpl. f_equal; [lia|].
  rewrite <- seq_shift, map_map. apply map_ext. intros k. lia.
Qed.

Lemma range_length lo hi : length (range lo hi) = Z.to_nat (hi - lo).
Proof. unfold range. now rewrite length_map, length_seq. Qed.

Lemma range_In lo hi i : In i (range lo hi) <-> lo <= i < hi.
Proof.
  unfold range. rewrite in_map_iff. split.
  - intros (k & <- & Hk). apply in_seq in Hk. lia.
  - intros Hi. exists (Z.to_nat (i - lo)). split; [lia|].
    apply in_seq. lia.
Qed.

Lemma range_snoc lo hi : lo <= hi -> range lo (hi + 1) = range lo hi ++ [hi].
Proof.
  intros Hle. unfold range.
  replace (Z.to_nat (hi + 1 - lo)) with (Z.to_nat (hi - lo) + 1)%nat by lia.
  rewrite seq_app, map_app. simpl. f_equal. f_equal. lia.
Qed.

Lemma getitem_nth {A} (xs : list A) (i : BinNums.Z) :
  0 <= i < Z.of_nat (length xs) ->
  exists x, getitem xs i = Ok x /\ nth_error xs (Z.to_nat i) = Some x.
Proof.
  intros Hi. unfold getitem.
  destruct (i <? 0) eqn:Hneg; [lia|].
  replace (i <? 0) with false by lia.
  replace (Z.of_nat (length xs) <=? i) with false by lia. simpl.
  destruct (nth_error xs (Z.to_nat i)) as [x|] eqn:Hx.
  - now exists x.
  - apply nth_error_None in Hx. lia.
Qed.

Lemma getitem_out {A} (xs : list A) (i : BinNums.Z) :
  Z.of_nat (length xs) <= i -> getitem xs i = Raise IndexError.
Proof.
  intros Hi. unfold getitem.
  replace (i <? 0) with false by lia.
  replace (Z.of_nat (length xs) <=? i) with true by lia.
  now rewrite orb_true_r.
Qed.

Lemma getitem_In {A} (xs : list A) (i : BinNums.Z) (x : A) :
  getitem xs i = Ok x -> In x xs.
Proof.
  unfold getitem.
  destruct ((_ <? 0) || _); [discriminate|].
  destruct (nth_error xs _) as [y|] eqn:Hy; [|discriminate].
  intros [= <-]. eapply nth_error_In; eauto.
Qed.

(** A negative index counts from the end of the list. *)
Lemma getitem_wrap {A} (xs : list A) (i : BinNums.Z) :
  - Z.of_nat (length xs) <= i < 0 ->
  getitem xs i = getitem xs (i + Z.of_nat (length xs)).
Proof.
  intros Hi.
  assert (E1 : (i <? 0) = true) by lia.
  assert (E2 : (i + Z.of_nat (length xs) <? 0) = false) by lia.
  unfold getitem. cbv zeta. rewrite E1. cbv iota. rewrite E2. cbv iota.
  rewrite E2. reflexivity.
Qed.

Lemma getitem_below {A} (xs : list A) (i : BinNums.Z) :
  i < - Z.of_nat (length xs) -> getitem xs i = Raise IndexError.
Proof.
  intros Hi.
  assert (E1 : (i <? 0) = true) by lia.
  assert (E2 : (i + Z.of_nat (length xs) <? 0) = true) by lia.
  unfold getitem. cbv zeta. rewrite E1. cbv iota. rewrite E2.
  reflexivity.
Qed.

(* ================================================================== *)
(** * The assignment made by [initialize_states]                       *)
(* ================================================================== *)





Lemma upd_same {A} (f : node -> A) v a : upd f v a v = a.
Proof. unfold upd. now rewrite Nat.eqb_refl. Qed.

Lemma upd_other {A} (f : node -> A) v u a : u <> v -> upd f v a u = f u.
Proof. intros Hn. unfold upd. now apply Nat.eqb_neq in Hn as ->. Qed.

Lemma paint_cons s f v vs : paint s f (v :: vs) = paint s (upd f v s) vs.
Proof. reflexivity. Qed.

Lemma paint_out s vs : forall f x, ~ In x vs -> paint s f vs x = f x.
Proof.
  induction vs as [|v vs IH]; intros f x Hni; [reflexivity|].
  rewrite paint_cons, IH by (simpl in Hni; tauto).
  apply upd_other. intros ->. simpl in Hni. tauto.
Qed.

Lemma paint_in s vs : forall f x, In x vs -> paint s f vs x = s.
Proof.
  induction vs as [|v vs IH]; intros f x Hin; [destruct Hin|].
  rewrite paint_cons. destruct (in_dec Nat.eq_dec x vs) as [Hi|Hni].
  - now apply IH.
  - destruct Hin as [->|]; [|tauto].
    rewrite paint_out by assumption. apply upd_same.
Qed.

Lemma skipn_nth {A} (xs : list A) (k : nat) (x : A) :
  nth_error xs k = Some x -> skipn k xs = x :: skipn (Datatypes.S k) xs.
Proof.
  revert k. induction xs as [|y xs IH]; intros [|k]; simpl; try discriminate.
  - now intros [= ->].
  - intros Hk. now apply IH.
Qed.

(** A loop over indices inside the list paints that slice. *)
Lemma assign_range xs s (k : nat) : forall (lo : nat) f,
  (lo + k <= length xs)%nat ->
  foldM (plan_assign xs s) (range (Z.of_nat lo) (Z.of_nat (lo + k))) f =
  Ok (paint s f (firstn k (skipn lo xs))).
Proof.
  induction k as [|k IH]; intros lo f Hle.
  - rewrite range_nil by lia. reflexivity.
  - rewrite range_cons by lia. simpl foldM. unfold plan_assign at 1.
    destruct (getitem_nth xs (Z.of_nat lo)) as (x & -> & Hx); [lia|].
    rewrite Nat2Z.id in Hx. simpl bind.
    replace (Z.of_nat lo + 1) with (Z.of_nat (Datatypes.S lo)) by lia.
    replace (lo + Datatypes.S k)%nat with (Datatypes.S lo + k)%nat by lia.
    rewrite IH by lia. rewrite (skipn_nth _ _ _ Hx). reflexivity.
Qed.

(** A loop that runs past the end of the list raises [IndexError]. *)
Lemma assign_overflow xs s (k : nat) : forall (lo : nat) f,
  (lo <= length xs)%nat -> (length xs < lo + k)%nat ->
  foldM (plan_assign xs s) (range (Z.of_nat lo) (Z.of_nat (lo + k))) f =
  Raise IndexError.
Proof.
  induction k as [|k IH]; intros lo f Hlo Hhi; [lia|].
  rewrite range_cons by lia. simpl foldM. unfold plan_assign at 1.
  destruct (Nat.eq_dec lo (length xs)) as [->|Hn].
  - rewrite getitem_out by lia. reflexivity.
  - destruct (getitem_nth xs (Z.of_nat lo)) as (x & -> & Hx); [lia|].
    simpl bind.
    replace (Z.of_nat lo + 1) with (Z.of_nat (Datatypes.S lo)) by lia.
    replace (lo + Datatypes.S k)%nat with (Datatypes.S lo + k)%nat by lia.
    apply IH; lia.
Qed.

Section Plan.
Variables (xs : list node) (infected_frac skeptic_frac : float).
Variables (n_infected n_skeptic : BinNums.Z).
Let n : BinNums.Z := Z.of_nat (length xs).
Hypothesis Hinf :
  int_of_float (float_of_int n * infected_frac)%float = Ok n_infected.
Hypothesis Hske :
  int_of_float (float_of_int n * skeptic_frac)%float = Ok n_skeptic.
Hypothesis Hinf0 : 0 <= n_infected.


Lemma skeptic_loop f :
  n_infected <= n ->
  foldM (plan_assign xs Skeptic)
        (range n_infected (n_infected + n_skeptic)) f =
  if n_infected + Z.max 0 n_skeptic <=? n
  then Ok (paint Skeptic f
             (firstn (Z.to_nat n_skeptic) (skipn (Z.to_nat n_infected) xs)))
  else Raise IndexError.
Proof.
  intros Hle. destruct (Z_le_gt_dec n_skeptic 0) as [Hneg|Hpos].
  - rewrite range_nil by lia.
    replace (n_infected + Z.max 0 n_skeptic <=? n) with true by lia.
    replace (Z.to_nat n_skeptic) with 0%nat by lia. reflexivity.
  - destruct (n_infected + Z.max 0 n_skeptic <=? n) eqn:Hfit.
    + pose proof (assign_range xs Skeptic (Z.to_nat n_skeptic)
                    (Z.to_nat n_infected)) as H2.
      rewrite Nat2Z.inj_add, !Z2Nat.id in H2 by lia.
      apply H2. unfold n in *. lia.
    + pose proof (assign_overflow xs Skeptic (Z.to_nat n_skeptic)
                    (Z.to_nat n_infected)) as H2.
      rewrite Nat2Z.inj_add, !Z2Nat.id in H2 by lia.
      apply H2; unfold n in *; lia.
Qed.

Lemma plan_fits f :
  n_infected + Z.max 0 n_skeptic <= n ->
  plan xs infected_frac skeptic_frac f =
  Ok (final xs (Z.to_nat n_infected) (Z.to_nat n_skeptic) f).
Proof.
  intros Hfit. unfold plan. fold n. rewrite Hinf. simpl bind.
  pose proof (assign_range xs Infected (Z.to_nat n_infected) 0
                (paint Susceptible f xs)) as H1.
  simpl Z.of_nat in H1. rewrite Nat.add_0_l, Z2Nat.id in H1 by lia.
  rewrite H1 by (unfold n in *; lia). simpl bind. rewrite Hske. simpl bind.
  rewrite skeptic_loop by lia.
  replace (n_infected + Z.max 0 n_skeptic <=? n) with true by lia.
  reflexivity.
Qed.

Lemma plan_overflows f :
  n < n_infected + Z.max 0 n_skeptic ->
  plan xs infected_frac skeptic_frac f = Raise IndexError.
Proof.
  intros Hover. unfold plan. fold n. rewrite Hinf. simpl bind.
  destruct (Z_le_gt_dec n_infected n) as [Hle|Hgt].
  - pose proof (assign_range xs Infected (Z.to_nat n_infected) 0
                  (paint Susceptible f xs)) as H1.
    simpl Z.of_nat in H1. rewrite Nat.add_0_l, Z2Nat.id in H1 by lia.
    rewrite H1 by (unfold n in *; lia). simpl bind. rewrite Hske.
    simpl bind. rewrite skeptic_loop by lia.
    replace (n_infected + Z.max 0 n_skeptic <=? n) with false by lia.
    reflexivity.
  - pose proof (assign_overflow xs Infected (Z.to_nat n_infected) 0
                  (paint Susceptible f xs)) as H1.
    simpl Z.of_nat in H1. rewrite Nat.add_0_l, Z2Nat.id in H1 by lia.
    rewrite H1 by (unfold n in *; lia). reflexivity.
Qed.
End Plan.

(** ** Any two counts *)

Lemma getitem_inside {A} (xs : list A) (i : BinNums.Z) :
  - Z.of_nat (length xs) <= i < Z.of_nat (length xs) ->
  exists x, getitem xs i = Ok x /\ In x xs.
Proof.
  intros Hi. destruct (Z_lt_ge_dec i 0) as [Hneg|Hpos].
  - rewrite getitem_wrap by lia.
    destruct (getitem_nth xs (i + Z.of_nat (length xs))) as (x & Hx & Hn);
      [lia|].
    exists x. split; [exact Hx | eapply getitem_In; exact Hx].
  - destruct (getitem_nth xs i) as (x & Hx & Hn); [lia|].
    exists x. split; [exact Hx | eapply getitem_In; exact Hx].
Qed.

Lemma getitem_outside {A} (xs : list A) (i : BinNums.Z) :
  i < - Z.of_nat (length xs) \/ Z.of_nat (length xs) <= i ->
  getitem xs i = Raise IndexError.
Proof.
  intros [Hi|Hi]; [now apply getitem_below | now apply getitem_out].
Qed.

(** An assignment loop over the indices [lo, ..., lo + k - 1]. *)
Lemma assign_loop_returns (xs : list node) (s : State) (k : nat) :
  forall (lo : BinNums.Z) f,
  indices_fit (Z.of_nat (length xs)) lo (Z.of_nat k) ->
  exists f',
    foldM (plan_assign xs s) (range lo (lo + Z.of_nat k)) f = Ok f' /\
    forall u, f' u = f u \/ (In u xs /\ f' u = s).
Proof.
  induction k as [|k IH]; intros lo f Hfit.
  - rewrite range_nil by lia. exists f. split; [reflexivity | now left].
  - destruct Hfit as [Hlo Hhi]; [lia|].
    rewrite range_cons by lia. cbn [foldM]. unfold plan_assign at 1.
    destruct (getitem_inside xs lo) as (x & Hx & Hin); [lia|].
    rewrite Hx. unfold Ok at 1. cbn [bind]. unfold Ok at 1. cbn [bind].
    destruct (IH (lo + 1) (upd f x s)) as (f' & Hf & Hu).
    { intros _. lia. }
    replace (lo + Z.of_nat (Datatypes.S k)) with (lo + 1 + Z.of_nat k)
      by lia.
    exists f'. split; [exact Hf|]. intros u.
    destruct (Hu u) as [Hsame|Hset]; [|now right].
    rewrite Hsame. unfold upd. destruct (Nat.eqb_spec u x) as [->|_];
      [right; now split | now left].
Qed.

Lemma assign_loop_raises (xs : list node) (s : State) (k : nat) :
  forall (lo : BinNums.Z) f,
  ~ indices_fit (Z.of_nat (length xs)) lo (Z.of_nat k) ->
  foldM (plan_assign xs s) (range lo (lo + Z.of_nat k)) f = Raise IndexError.
Proof.
  induction k as [|k IH]; intros lo f Hout.
  - elim Hout. intros Hk. lia.
  - rewrite range_cons by lia. cbn [foldM]. unfold plan_assign at 1.
    destruct (Z_lt_ge_dec lo (- Z.of_nat (length xs))) as [Hlow|Hlow].
    { rewrite getitem_outside by lia. reflexivity. }
    destruct (Z_lt_ge_dec lo (Z.of_nat (length xs))) as [Hhigh|Hhigh].
    2:{ rewrite getitem_outside by lia. reflexivity. }
    destruct (getitem_inside xs lo) as (x & Hx & _); [lia|].
    rewrite Hx. unfold Ok at 1. cbn [bind].
    replace (lo + Z.of_nat (Datatypes.S k)) with (lo + 1 + Z.of_nat k)
      by lia.
    apply IH. intros Hfit. apply Hout. intros _.
    destruct k as [|k]; [exfalso; apply Hout; intros _; lia|].
    destruct Hfit as [H1 H2]; lia.
Qed.

Lemma plan_loops (xs : list node) (infected_frac skeptic_frac : float)
    (n_infected n_skeptic : BinNums.Z) (f : node -> State) :
  let n := Z.of_nat (length xs) in
  int_of_float (float_of_int n * infected_frac)%float = Ok n_infected ->
  int_of_float (float_of_int n * skeptic_frac)%float = Ok n_skeptic ->
  plan xs infected_frac skeptic_frac f =
  (f1 <- foldM (plan_assign xs Infected)
               (range 0 (0 + Z.of_nat (Z.to_nat n_infected)))
               (paint Susceptible f xs) ;;
   foldM (plan_assign xs Skeptic)
         (range n_infected (n_infected + Z.of_nat (Z.to_nat n_skeptic))) f1).
Proof.
  intros n Hi Hz. unfold plan. fold n. rewrite Hi. unfold Ok. cbn [bind].
  assert (R1 : range 0 n_infected =
               range 0 (0 + Z.of_nat (Z.to_nat n_infected))).
  { destruct (Z_le_gt_dec n_infected 0) as [Hle|Hgt].
    - rewrite !range_nil by lia. reflexivity.
    - f_equal. lia. }
  assert (R2 : range n_infected (n_infected + n_skeptic) =
               range n_infected (n_infected + Z.of_nat (Z.to_nat n_skeptic))).
  { destruct (Z_le_gt_dec n_skeptic 0) as [Hle|Hgt].
    - rewrite !range_nil by lia. reflexivity.
    - f_equal. lia. }
  rewrite R1.
  destruct (foldM (plan_assign xs Infected) _ _) as [f1|e]; cbn [bind];
    [|reflexivity].
  rewrite Hz. unfold Ok. cbn [bind]. now rewrite R2.
Qed.

Lemma indices_fit_nat (len lo count : BinNums.Z) :
  indices_fit len lo count <->
  indices_fit len lo (Z.of_nat (Z.to_nat count)).
Proof.
  unfold indices_fit. split; intros Hf Hk.
  - assert (Hk' : 0 < count) by lia. destruct (Hf Hk'); lia.
  - assert (Hk' : 0 < Z.of_nat (Z.to_nat count)) by lia.
    destruct (Hf Hk'); lia.
Qed.

(** What the two loops of [initialize_states] do, by the two counts. *)
Lemma plan_outcome (xs : list node) (infected_frac skeptic_frac : float)
    (n_infected n_skeptic : BinNums.Z) (f : node -> State) :
  let n := Z.of_nat (length xs) in
  int_of_float (float_of_int n * infected_frac)%float = Ok n_infected ->
  int_of_float (float_of_int n * skeptic_frac)%float = Ok n_skeptic ->
  (counts_fit n n_infected n_skeptic ->
   exists f',
     plan xs infected_frac skeptic_frac f = Ok f' /\
     (n_infected <= 0 -> forall u, In u xs -> f' u <> Infected)) /\
  (~ counts_fit n n_infected n_skeptic ->
   plan xs infected_frac skeptic_frac f = Raise IndexError).
Proof.
  intros n Hi Hz. rewrite (plan_loops xs _ _ _ _ f Hi Hz). fold n. split.
  - intros [H1 H2]. apply indices_fit_nat in H1. apply indices_fit_nat in H2.
    destruct (assign_loop_returns xs Infected (Z.to_nat n_infected) 0
                (paint Susceptible f xs) H1) as (f1 & E1 & U1).
    rewrite E1. unfold Ok at 1. cbn [bind].
    destruct (assign_loop_returns xs Skeptic (Z.to_nat n_skeptic) n_infected
                f1 H2) as (f2 & E2 & U2).
    rewrite E2. exists f2. split; [reflexivity|].
    intros Hneg u Hu.
    assert (Hf1 : f1 = paint Susceptible f xs).
    { replace (Z.to_nat n_infected) with 0%nat in E1 by lia.
      rewrite range_nil in E1 by lia. cbn [foldM] in E1.
      unfold Ok in E1. now injection E1. }
    destruct (U2 u) as [Hs|[_ Hs]]; rewrite Hs; [|discriminate].
    rewrite Hf1, paint_in by exact Hu. discriminate.
  - intros Hout.
    destruct (Z_le_gt_dec n_infected n) as [Hle|Hgt].
    + destruct (assign_loop_returns xs Infected (Z.to_nat n_infected) 0
                  (paint Susceptible f xs)) as (f1 & E1 & _).
      { intros Hk. unfold n in *. lia. }
      rewrite E1. unfold Ok at 1. cbn [bind].
      apply assign_loop_raises. intros H2. apply Hout.
      split; [intros Hk; unfold n; lia | now apply indices_fit_nat].
    + rewrite assign_loop_raises; [reflexivity|].
      intros H1. destruct H1 as [_ H1]; unfold n in *; lia.
Qed.

Lemma filter_all {A} (q : A -> bool) (xs : list A) :
  (forall x, In x xs -> q x = true) -> filter q xs = xs.
Proof.
  induction xs as [|x xs IH]; intros Hq; simpl; [reflexivity|].
  rewrite (Hq x) by now left. f_equal. apply IH. intros; apply Hq; now right.
Qed.

Lemma filter_none {A} (q : A -> bool) (xs : list A) :
  (forall x, In x xs -> q x = false) -> filter q xs = [].
Proof.
  induction xs as [|x xs IH]; intros Hq; simpl; [reflexivity|].
  rewrite (Hq x) by now left. apply IH. intros; apply Hq; now right.
Qed.

Lemma filter_length_perm {A} (q : A -> bool) (xs ys : list A) :
  Permutation xs ys -> length (filter q xs) = length (filter q ys).
Proof.
  induction 1; simpl; try congruence.
  - destruct (q x); simpl; congruence.
  - destruct (q x), (q y); reflexivity.
Qed.

Lemma population_table s ks f :
  population s (table ks f) =
  Z.of_nat (length (filter (fun v => state_eqb s (f v)) ks)).
Proof.
  unfold population, table, values. rewrite map_map. simpl.
  f_equal. induction ks as [|k ks IH]; simpl; [reflexivity|].
  destruct (state_eqb s (f k)); simpl; congruence.
Qed.

Lemma NoDup_app_disjoint {A} (xs ys : list A) :
  NoDup (xs ++ ys) -> forall x, In x xs -> ~ In x ys.
Proof.
  induction xs as [|a xs IH]; intros Hn x Hx; [destruct Hx|].
  simpl in Hn. inversion Hn as [|? ? Ha Hn']; subst.
  destruct Hx as [->|Hx]; [|now apply IH].
  intros Hy. apply Ha. apply in_or_app. now right.
Qed.

Section Planned.
Variables (xs : list node) (ni nz : nat).
Hypothesis Hnd : NoDup xs.
Hypothesis Hfit : (ni + nz <= length xs)%nat.

Let A := firstn ni xs.
Let B := firstn nz (skipn ni xs).
Let C := skipn nz (skipn ni xs).

Lemma slices : xs = A ++ B ++ C.
Proof. unfold A, B, C. now rewrite !firstn_skipn. Qed.

Lemma slices_NoDup : NoDup (A ++ B ++ C).
Proof. rewrite <- slices. exact Hnd. Qed.


Lemma final_A f v : In v A -> final xs ni nz f v = Infected.
Proof.
  intros Hv. unfold final. fold A B. rewrite paint_out.
  - now apply paint_in.
  - intros Hb. apply (NoDup_app_disjoint _ _ slices_NoDup v Hv).
    apply in_or_app. now left.
Qed.

Lemma final_B f v : In v B -> final xs ni nz f v = Skeptic.
Proof. intros Hv. unfold final. fold A B. now apply paint_in. Qed.

Lemma final_C f v : In v C -> final xs ni nz f v = Susceptible.
Proof.
  intros Hv. pose proof slices_NoDup as Hn.
  assert (HnB : ~ In v B).
  { intros Hb.
    apply (NoDup_app_disjoint _ _ (NoDup_app_remove_l _ _ Hn) v Hb Hv). }
  assert (HnA : ~ In v A).
  { intros Ha. apply (NoDup_app_disjoint _ _ Hn v Ha).
    apply in_or_app. now right. }
  unfold final. fold A B. rewrite !paint_out by assumption.
  apply paint_in. rewrite slices. apply in_or_app. right.
  apply in_or_app. now right.
Qed.

Lemma final_census f s :
  length (filter (fun v => state_eqb s (final xs ni nz f v)) xs) =
  match s with
  | Infected => ni
  | Skeptic => nz
  | Susceptible => (length xs - ni - nz)%nat
  | Exposed => 0%nat
  end.
Proof.
  assert (HA : length A = ni) by (unfold A; apply firstn_length_le; lia).
  assert (HB : length B = nz).
  { unfold B. apply firstn_length_le. rewrite length_skipn. lia. }
  assert (HC : length C = (length xs - ni - nz)%nat).
  { unfold C. rewrite !length_skipn. lia. }
  rewrite slices at 1. rewrite !filter_app, !length_app.
  destruct s.
  - rewrite (filter_none _ A), (filter_none _ B), (filter_all _ C); simpl;
      [lia | | |]; intros v Hv;
      [rewrite final_C | rewrite final_B | rewrite final_A]; easy.
  - rewrite (filter_none _ A), (filter_none _ B), (filter_none _ C); simpl;
      [lia | | |]; intros v Hv;
      [rewrite final_C | rewrite final_B | rewrite final_A]; easy.
  - rewrite (filter_all _ A), (filter_none _ B), (filter_none _ C); simpl;
      [lia | | |]; intros v Hv;
      [rewrite final_C | rewrite final_B | rewrite final_A]; easy.
  - rewrite (filter_none _ A), (filter_all _ B), (filter_none _ C); simpl;
      [lia | | |]; intros v Hv;
      [rewrite final_C | rewrite final_B | rewrite final_A]; easy.
Qed.
End Planned.

(** ** The baseline dictionary against a map *)


Lemma holds_set ks st f v s :
  holds ks st f -> In v ks -> holds ks (Py.set st v s) (upd f v s).
Proof.
  intros [Hk Hg] Hv. split.
  - rewrite keys_set_in; [exact Hk | now rewrite Hk].
  - intros u Hu. destruct (Nat.eq_dec u v) as [->|Hn].
    + now rewrite get_set_same, upd_same.
    + rewrite get_set_other by congruence. rewrite upd_other by exact Hn.
      now apply Hg.
Qed.

Lemma holds_table ks st f : NoDup ks -> holds ks st f -> st = table ks f.
Proof.
  intros Hnd [Hk Hg]. subst ks. induction st as [|[k x] st IH]; [reflexivity|].
  simpl in *. inversion Hnd as [|? ? Hk Hnd']; subst.
  pose proof (Hg k (or_introl eq_refl)) as Hgk. rewrite Nat.eqb_refl in Hgk.
  injection Hgk as ->. f_equal. apply IH; [exact Hnd'|].
  intros u Hu. specialize (Hg u (or_intror Hu)).
  destruct (Nat.eqb_spec u k) as [Heq|Hn]; [|exact Hg].
  subst u. contradiction.
Qed.

Lemma table_holds ks f : NoDup ks -> holds ks (table ks f) f.
Proof.
  intros Hnd. split.
  - unfold table, keys. rewrite map_map. simpl. apply map_id.
  - intros v Hv. apply get_In.
    + unfold table, keys. rewrite map_map. simpl. now rewrite map_id.
    + unfold table. apply in_map_iff. now exists v.
Qed.

Lemma holds_paint ks xs s : forall st f,
  incl xs ks -> holds ks st f ->
  holds ks (fold_left (fun st v => Py.set st v s) xs st) (paint s f xs).
Proof.
  induction xs as [|x xs IH]; intros st f Hin Hh; [exact Hh|].
  rewrite paint_cons. simpl fold_left. apply IH.
  - intros v Hv. apply Hin. now right.
  - apply holds_set; [exact Hh|]. apply Hin. now left.
Qed.

Lemma holds_assign ks xs s idx : forall st f,
  incl xs ks -> holds ks st f ->
  ends_alike (holds ks) (foldM (SEIZ.assign xs s) idx st)
             (foldM (plan_assign xs s) idx f).
Proof.
  intros st f Hin Hh. apply foldM_alike; [|exact Hh].
  intros a a' i _ Ha. unfold SEIZ.assign, plan_assign.
  destruct (getitem xs i) as [v|e] eqn:Hv; simpl; [|reflexivity].
  apply holds_set; [exact Ha|]. apply Hin. eapply getitem_In; eauto.
Qed.

(** A table built key by key, as both moderated [get_states] do. *)
Lemma build_table {A} (h : A -> State) (store : node -> A) ks :
  NoDup ks ->
  fold_left (fun states v => Py.set states v (h (store v))) ks [] =
  table ks (fun v => h (store v)).
Proof.
  intros Hnd.
  assert (Hgen : forall d,
    (forall v, In v ks -> ~ In v (keys d)) ->
    fold_left (fun states v => Py.set states v (h (store v))) ks d =
    d ++ table ks (fun v => h (store v))).
  { induction ks as [|k ks IH]; intros d Hd; simpl.
    - now rewrite app_nil_r.
    - inversion Hnd as [|? ? Hk Hnd']; subst. rewrite IH; [| exact Hnd' |].
      + rewrite set_notin by (apply Hd; now left).
        rewrite <- app_assoc. reflexivity.
      + intros v Hv. rewrite keys_set_notin by (apply Hd; now left).
        intros Hin. apply in_app_or in Hin. destruct Hin as [Hin|[->|[]]].
        * apply (Hd v); [now right | exact Hin].
        * contradiction. }
  apply (Hgen []). intros v _ [].
Qed.

Lemma bind_alike {A A' B B'} (R : A -> A' -> Prop) (R' : B -> B' -> Prop)
    (c : result A) (c' : result A') (k : A -> result B) (k' : A' -> result B') :
  ends_alike R c c' ->
  (forall a a', R a a' -> ends_alike R' (k a) (k' a')) ->
  ends_alike R' (bind c k) (bind c' k').
Proof.
  intros Hc Hk. destruct c, c'; simpl in *; try easy. now apply Hk.
Qed.

Lemma bind_same {A B B'} (R' : B -> B' -> Prop)
    (c : result A) (k : A -> result B) (k' : A -> result B') :
  (forall a, c = Ok a -> ends_alike R' (k a) (k' a)) ->
  ends_alike R' (bind c k) (bind c k').
Proof. intros Hk. destruct c; simpl; [now apply Hk | reflexivity]. Qed.

Lemma bind_alike_last {A A' B} (R : A -> A' -> Prop) (R' : B -> A' -> Prop)
    (c : result A) (c' : result A') (h : A -> B) :
  ends_alike R c c' ->
  (forall a a', R a a' -> R' (h a) a') ->
  ends_alike R' (bind c (fun a => Ok (h a))) c'.
Proof.
  intros Hc Hk. destruct c, c'; simpl in *; try easy. now apply Hk.
Qed.

Section InitPlan.
Context {G : Type} `{RandomGen G}.
Variables (infected_frac skeptic_frac : float) (seed : option BinNums.Z).


Lemma shuffled_perm gr g : Permutation (nodes gr) (shuffled seed gr g).
Proof. apply rng_shuffle_perm. Qed.

Lemma shuffled_incl gr g : incl (shuffled seed gr g) (nodes gr).
Proof.
  intros v Hv. eapply Permutation_in; [|exact Hv].
  apply Permutation_sym, shuffled_perm.
Qed.

(** *** Baseline *)
Lemma seiz_init_plan (m : SEIZ.SEIZModel) (g : G) (f : node -> State) :
  holds (nodes (SEIZ.seiz_graph m)) (SEIZ.states m) f ->
  ends_alike
    (fun r f' =>
       holds (nodes (SEIZ.seiz_graph m)) (SEIZ.states (fst r)) f' /\
       SEIZ.seiz_graph (fst r) = SEIZ.seiz_graph m)
    (SEIZ.seiz_initialize_states m infected_frac skeptic_frac seed g)
    (plan (shuffled seed (SEIZ.seiz_graph m) g) infected_frac skeptic_frac f).
Proof.
  intros Hh. unfold SEIZ.seiz_initialize_states, plan.
  pose proof (shuffled_incl (SEIZ.seiz_graph m) g) as Hin.
  unfold shuffled in *.
  destruct (rng_shuffle (nodes (SEIZ.seiz_graph m)) (seed_if_given seed g))
    as [xs g1]. simpl fst in *.
  apply bind_same. intros n_infected _.
  eapply bind_alike.
  { apply holds_assign; [exact Hin|]. now apply holds_paint. }
  intros st1 f1 H1. apply bind_same. intros n_skeptic _.
  eapply bind_alike_last.
  { apply holds_assign; [exact Hin | exact H1]. }
  intros st2 f2 H2. simpl. now split.
Qed.

(** *** Basic moderator *)

Lemma bm_agree_set ag f v s :
  bm_agree ag f -> bm_agree (SEIZBM.set_state ag v s) (upd f v s).
Proof.
  intros Ha u. unfold SEIZBM.set_state, upd.
  destruct (Nat.eqb u v); [reflexivity | apply Ha].
Qed.

Lemma bm_agree_paint xs s : forall ag f,
  bm_agree ag f ->
  bm_agree (fold_left (fun ag v => SEIZBM.set_state ag v s) xs ag)
           (paint s f xs).
Proof.
  induction xs as [|x xs IH]; intros ag f Ha; [exact Ha|].
  rewrite paint_cons. simpl fold_left. apply IH. now apply bm_agree_set.
Qed.

Lemma bm_agree_assign xs s idx ag f :
  bm_agree ag f ->
  ends_alike bm_agree (foldM (SEIZBM.assign xs s) idx ag)
             (foldM (plan_assign xs s) idx f).
Proof.
  intros Ha. apply foldM_alike; [|exact Ha].
  intros a a' i _ Haa. unfold SEIZBM.assign, plan_assign.
  destruct (getitem xs i) as [v|e]; simpl; [|reflexivity].
  now apply bm_agree_set.
Qed.

Lemma bm_init_plan (m : SEIZBM.SEIZBMModel) (g : G) (f : node -> State) :
  bm_agree (SEIZBM.agents m) f ->
  ends_alike
    (fun r f' =>
       bm_agree (SEIZBM.agents (fst r)) f' /\
       SEIZBM.bm_graph (fst r) = SEIZBM.bm_graph m)
    (SEIZBM.bm_initialize_states m infected_frac skeptic_frac seed g)
    (plan (shuffled seed (SEIZBM.bm_graph m) g) infected_frac skeptic_frac f).
Proof.
  intros Hh. unfold SEIZBM.bm_initialize_states, plan, shuffled.
  destruct (rng_shuffle (nodes (SEIZBM.bm_graph m)) (seed_if_given seed g))
    as [xs g1]. simpl fst.
  apply bind_same. intros n_infected _.
  eapply bind_alike.
  { apply bm_agree_assign. now apply bm_agree_paint. }
  intros st1 f1 H1. apply bind_same. intros n_skeptic _.
  eapply bind_alike_last.
  { apply bm_agree_assign. exact H1. }
  intros st2 f2 H2. simpl. now split.
Qed.

(** *** Smart moderator *)

Lemma sm_agree_set ag f v s :
  sm_agree ag f -> sm_agree (SEIZSM.set_state ag v s) (upd f v s).
Proof.
  intros Ha u. unfold SEIZSM.set_state, upd.
  destruct (Nat.eqb u v); [reflexivity | apply Ha].
Qed.

Lemma sm_agree_reset xs : forall ag g f,
  sm_agree ag f ->
  sm_agree (fst (fold_left SEIZSM.reset xs (ag, g)))
           (paint Susceptible f xs).
Proof.
  induction xs as [|x xs IH]; intros ag g f Ha; [exact Ha|].
  rewrite paint_cons. simpl fold_left.
  change (SEIZSM.reset (ag, g) x) with
    (let '(pr, g1) := SEIZSM.draw_profile g in
     (upd ag x (SEIZSM.mkAgent Susceptible pr 0 0), g1)).
  destruct (SEIZSM.draw_profile g) as [pr g1]. apply IH.
  intros u. unfold upd. destruct (Nat.eqb u x); [reflexivity | apply Ha].
Qed.

Lemma sm_agree_assign xs s idx ag f :
  sm_agree ag f ->
  ends_alike sm_agree (foldM (SEIZSM.assign xs s) idx ag)
             (foldM (plan_assign xs s) idx f).
Proof.
  intros Ha. apply foldM_alike; [|exact Ha].
  intros a a' i _ Haa. unfold SEIZSM.assign, plan_assign.
  destruct (getitem xs i) as [v|e]; simpl; [|reflexivity].
  now apply sm_agree_set.
Qed.

Lemma sm_init_plan (m : SEIZSM.SEIZSMModel) (g : G) (f : node -> State) :
  sm_agree (SEIZSM.agents m) f ->
  ends_alike
    (fun r f' =>
       sm_agree (SEIZSM.agents (fst r)) f' /\
       SEIZSM.sm_graph (fst r) = SEIZSM.sm_graph m /\
       SEIZSM.n (fst r) = SEIZSM.n m)
    (SEIZSM.sm_initialize_states m infected_frac skeptic_frac seed g)
    (plan (shuffled seed (SEIZSM.sm_graph m) g) infected_frac skeptic_frac f).
Proof.
  intros Hh. unfold SEIZSM.sm_initialize_states, plan, shuffled.
  destruct (rng_shuffle (nodes (SEIZSM.sm_graph m)) (seed_if_given seed g))
    as [xs g1]. simpl fst.
  pose proof (sm_agree_reset xs (SEIZSM.agents m) g1 f Hh) as Hr.
  destruct (fold_left SEIZSM.reset xs (SEIZSM.agents m, g1)) as [ag g2].
  simpl fst in Hr.
  apply bind_same. intros n_infected _.
  eapply bind_alike.
  { apply sm_agree_assign. exact Hr. }
  intros st1 f1 H1. apply bind_same. intros n_skeptic _.
  eapply bind_alike_last.
  { apply sm_agree_assign. exact H1. }
  intros st2 f2 H2. simpl. now repeat split.
Qed.
End InitPlan.

(* ================================================================== *)
(** * Binary64 facts                                                   *)
(* ================================================================== *)


Lemma round_aux_sign sx mx ex lx :
  match binary_round_aux prec emax sx mx ex lx with
  | S754_zero s | S754_infinity s | S754_finite s _ _ => s = sx
  | S754_nan => True
  end.
Proof.
  unfold binary_round_aux.
  destruct (shr_fexp prec emax mx ex lx) as [mrs' e'].
  destruct (shr_fexp prec emax _ e' loc_Exact) as [mrs'' e''].
  destruct (shr_m mrs''); [reflexivity | | exact Logic.I].
  destruct (e'' <=? emax - prec); reflexivity.
Qed.

Lemma float_of_int_not_negative (n : BinNums.Z) :
  0 <= n -> not_negative (Prim2SF (float_of_int n)).
Proof.
  intros Hn. unfold float_of_int. replace (n <? 0) with false by lia.
  rewrite FloatAxioms.of_uint63_spec. unfold binary_normalize.
  pose proof (Uint63.to_Z_bounded (Uint63.of_Z n)) as Hb.
  destruct (Uint63Axioms.to_Z (Uint63.of_Z n)) as [|q|q]; simpl; [easy| |lia].
  unfold binary_round.
  destruct (shl_align q 0 _) as [mz ez].
  pose proof (round_aux_sign false (Z.pos mz) ez loc_Exact) as Hs.
  destruct (binary_round_aux _ _ _ _ _ _); simpl; easy.
Qed.

(** [0 <= x] as the comparison of floats decides it. *)
Lemma leb_zero_not_negative (x : float) :
  (0 <=? x)%float = true ->
  not_negative (Prim2SF x) /\ Prim2SF x <> S754_nan.
Proof.
  rewrite FloatAxioms.leb_spec. change (Prim2SF 0) with (S754_zero false).
  unfold SFleb, SFcompare.
  destruct (Prim2SF x) as [s|s| |s m e]; simpl; try easy;
    destruct s; simpl; easy.
Qed.

Lemma mul_not_negative (x y : float) :
  not_negative (Prim2SF x) -> not_negative (Prim2SF y) ->
  not_negative (Prim2SF (x * y)).
Proof.
  rewrite FloatAxioms.mul_spec. unfold SF64mul, SFmul.
  destruct (Prim2SF x) as [sx|sx| |sx mx ex],
           (Prim2SF y) as [sy|sy| |sy my ey]; simpl; try easy;
    try (intros -> ->; reflexivity).
  intros -> ->. simpl.
  pose proof (round_aux_sign false (Z.pos (mx * my)) (ex + ey) loc_Exact) as Hs.
  destruct (binary_round_aux _ _ _ _ _ _); simpl; easy.
Qed.

(** On a value that is not negative, [int] is the floor of the exact
    value. *)
Lemma int_of_float_floor (x : float) (k : BinNums.Z) :
  not_negative (Prim2SF x) -> int_of_float x = Ok k ->
  0 <= k /\ exists q, float_value x = Some q /\ k = Qfloor q.
Proof.
  unfold int_of_float, float_value.
  destruct (Prim2SF x) as [s|s| |s m e]; cbv beta iota; try discriminate.
  - intros _ [= <-]. split; [lia|]. now exists 0%Q.
  - intros Hs Hk. simpl in Hs. subst s.
    assert (Ha : k = if 0 <=? e then Z.pos m * 2 ^ e
                     else Z.pos m / 2 ^ (- e)).
    { unfold Ok in Hk. injection Hk as Hk. symmetry. exact Hk. }
    clear Hk. subst k. destruct (0 <=? e) eqn:He.
    + split; [apply Z.mul_nonneg_nonneg; [lia | apply Z.pow_nonneg; lia]|].
      eexists; split; [reflexivity|]. now rewrite Qfloor_Z.
    + assert (Hp : 0 < 2 ^ (- e)) by (apply Z.pow_pos_nonneg; lia).
      split; [apply Z.div_pos; lia|].
      eexists; split; [reflexivity|]. unfold Qfloor.
      now rewrite Z2Pos.id.
Qed.

(* ================================================================== *)
(** * [initialize_states] on every variant                             *)
(* ================================================================== *)

Section InitVariant.
Context {G : Type} `{RandomGen G}.


Lemma get_states_table (v : Variant) :
  well_formed v -> get_states v = table (nodes (graph v)) (state_of v).
Proof.
  destruct v as [m|m|m]; simpl.
  - intros [[Hnd _] Hk]. unfold SEIZ.seiz_get_states.
    apply holds_table; [exact Hnd|].
    split; [exact Hk|]. intros u Hu.
    destruct (Py.get (SEIZ.states m) u) eqn:Hg; [reflexivity|].
    apply get_None_keys in Hg. now rewrite Hk in Hg.
  - intros [Hnd _]. unfold SEIZBM.bm_get_states.
    now apply (build_table SEIZBM.state).
  - intros [[Hnd _] _]. unfold SEIZSM.sm_get_states.
    now apply (build_table SEIZSM.state).
Qed.

Lemma table_ext ks f f' :
  (forall v, In v ks -> f v = f' v) -> table ks f = table ks f'.
Proof.
  intros Hf. unfold table. apply map_ext_in. intros v Hv.
  now rewrite Hf.
Qed.

(** Every variant assigns the states of [plan] and keeps its graph. *)
Lemma init_plan (v : Variant) infected_frac skeptic_frac seed (g : G) :
  well_formed v ->
  ends_alike
    (fun r f' =>
       get_states (fst r) = table (nodes (graph v)) f' /\
       graph (fst r) = graph v /\ well_formed (fst r))
    (initialize_states v infected_frac skeptic_frac seed g)
    (plan (shuffled seed (graph v) g) infected_frac skeptic_frac
          (state_of v)).
Proof.
  intros Hwf. destruct v as [m|m|m]; simpl in Hwf |- *.
  - destruct Hwf as [Hgr Hk].
    assert (Hh : holds (nodes (SEIZ.seiz_graph m)) (SEIZ.states m)
                       (state_of (Baseline m))).
    { split; [exact Hk|]. intros u Hu. simpl.
      destruct (Py.get (SEIZ.states m) u) eqn:Hg; [reflexivity|].
      apply get_None_keys in Hg. now rewrite Hk in Hg. }
    pose proof (seiz_init_plan infected_frac skeptic_frac seed m g _ Hh)
      as Hp.
    destruct (SEIZ.seiz_initialize_states m _ _ _ g) as [[m' g']|e],
             (plan _ _ _ _) as [f'|e']; simpl in *; try easy.
    destruct Hp as [Hh' Hg']. rewrite Hg'. repeat split; try easy.
    + apply holds_table; [apply Hgr | exact Hh'].
    + apply Hgr.
    + apply Hgr.
    + apply Hh'.
  - assert (Hh : bm_agree (SEIZBM.agents m) (state_of (BasicModerator m)))
      by (intros u; reflexivity).
    pose proof (bm_init_plan infected_frac skeptic_frac seed m g _ Hh)
      as Hp.
    destruct (SEIZBM.bm_initialize_states m _ _ _ g) as [[m' g']|e],
             (plan _ _ _ _) as [f'|e']; simpl in *; try easy.
    destruct Hp as [Hh' Hg']. rewrite Hg'. repeat split; try apply Hwf.
    unfold SEIZBM.bm_get_states. rewrite Hg'.
    rewrite (build_table SEIZBM.state) by apply Hwf.
    apply table_ext. intros u _. apply Hh'.
  - assert (Hh : sm_agree (SEIZSM.agents m) (state_of (SmartModerator m)))
      by (intros u; reflexivity).
    pose proof (sm_init_plan infected_frac skeptic_frac seed m g _ Hh)
      as Hp.
    destruct (SEIZSM.sm_initialize_states m _ _ _ g) as [[m' g']|e],
             (plan _ _ _ _) as [f'|e']; simpl in *; try easy.
    destruct Hp as (Hh' & Hg' & Hn'). rewrite Hg', Hn'.
    repeat split; try apply Hwf.
    unfold SEIZSM.sm_get_states. rewrite Hg'.
    rewrite (build_table SEIZSM.state) by apply Hwf.
    apply table_ext. intros u _. apply Hh'.
Qed.

(** The assignment does not depend on the states held before the call. *)
Lemma plan_forgets xs infected_frac skeptic_frac f f' :
  ends_alike (fun a a' => forall v, In v xs -> a v = a' v)
             (plan xs infected_frac skeptic_frac f)
             (plan xs infected_frac skeptic_frac f').
Proof.
  set (R := fun a a' : node -> State => forall v, In v xs -> a v = a' v).
  assert (Hstep : forall s idx a a', R a a' ->
    ends_alike R (foldM (plan_assign xs s) idx a)
               (foldM (plan_assign xs s) idx a')).
  { intros s idx a a' Ha. apply foldM_alike; [|exact Ha].
    intros b b' i _ Hb. unfold plan_assign.
    destruct (getitem xs i) as [u|e]; simpl; [|reflexivity].
    intros w Hw. unfold upd. destruct (Nat.eqb w u); [reflexivity|].
    now apply Hb. }
  unfold plan. apply bind_same. intros n_infected _.
  eapply bind_alike.
  { apply Hstep. intros v Hv. now rewrite !paint_in. }
  intros a a' Ha. apply bind_same. intros n_skeptic _.
  now apply Hstep.
Qed.
End InitVariant.

Section InitClaims.
Context {G : Type} `{RandomGen G}.

Lemma length_nodes (gr : Graph) :
  Z.of_nat (length (nodes gr)) = number_of_nodes gr.
Proof. unfold nodes, keys, number_of_nodes. now rewrite length_map. Qed.

Lemma length_shuffled seed (gr : Graph) (g : G) :
  Z.of_nat (length (shuffled seed gr g)) = number_of_nodes gr.
Proof.
  rewrite <- (Permutation_length (shuffled_perm seed gr g)).
  apply length_nodes.
Qed.

(** What a call does, by the two counts it computes. *)
Lemma init_outcome (v : Variant) infected_frac skeptic_frac seed (g : G)
    (n_infected n_skeptic : BinNums.Z) :
  let n := number_of_nodes (graph v) in
  well_formed v ->
  int_of_float (float_of_int n * infected_frac)%float = Ok n_infected ->
  int_of_float (float_of_int n * skeptic_frac)%float = Ok n_skeptic ->
  0 <= n_infected ->
  (n_infected + Z.max 0 n_skeptic <= n ->
   exists v' g',
     initialize_states v infected_frac skeptic_frac seed g = Ok (v', g') /\
     graph v' = graph v /\ well_formed v' /\
     get_states v' =
     table (nodes (graph v))
           (final (shuffled seed (graph v) g) (Z.to_nat n_infected)
                  (Z.to_nat n_skeptic) (state_of v))) /\
  (n < n_infected + Z.max 0 n_skeptic ->
   initialize_states v infected_frac skeptic_frac seed g = Raise IndexError).
Proof.
  intros n Hwf Hi Hz Hi0.
  pose proof (init_plan v infected_frac skeptic_frac seed g Hwf) as Hp.
  pose proof (length_shuffled seed (graph v) g) as Hlen. fold n in Hlen.
  split; intros Hn.
  - rewrite (plan_fits _ _ _ n_infected n_skeptic) in Hp;
      rewrite ?Hlen; try assumption.
    destruct (initialize_states v _ _ _ g) as [[v' g']|e]; [|destruct Hp].
    simpl in Hp. destruct Hp as (Hs & Hg & Hw).
    exists v', g'. repeat split; assumption.
  - rewrite (plan_overflows _ _ _ n_infected n_skeptic) in Hp;
      rewrite ?Hlen; try assumption.
    destruct (initialize_states v _ _ _ g) as [[v' g']|e]; [destruct Hp|].
    simpl in Hp. now rewrite Hp.
Qed.

Lemma census_after_init (v : Variant) seed (g : G) (ni nz : nat) s :
  well_formed v ->
  (Z.of_nat ni + Z.of_nat nz <= number_of_nodes (graph v)) ->
  population s
    (table (nodes (graph v))
           (final (shuffled seed (graph v) g) ni nz (state_of v))) =
  match s with
  | Infected => Z.of_nat ni
  | Skeptic => Z.of_nat nz
  | Susceptible => number_of_nodes (graph v) - Z.of_nat ni - Z.of_nat nz
  | Exposed => 0
  end.
Proof.
  intros Hwf Hfit. rewrite population_table.
  pose proof (shuffled_perm seed (graph v) g) as Hperm.
  pose proof (length_shuffled seed (graph v) g) as Hlen.
  rewrite (filter_length_perm _ _ _ Hperm).
  assert (Hnd : NoDup (shuffled seed (graph v) g)).
  { eapply Permutation_NoDup; [exact Hperm|].
    destruct v; simpl in Hwf |- *; apply Hwf. }
  rewrite final_census; [| exact Hnd | lia].
  destruct s; lia.
Qed.
End InitClaims.

Lemma indices_fit_dec (len lo count : BinNums.Z) :
  indices_fit len lo count \/ ~ indices_fit len lo count.
Proof.
  unfold indices_fit.
  destruct (Z_lt_ge_dec 0 count) as [Hc|Hc]; [|left; intros; lia].
  destruct (Z_le_gt_dec (- len) lo) as [Hlo|Hlo];
    [|right; intros Hf; destruct (Hf Hc); lia].
  destruct (Z_le_gt_dec (lo + count) len) as [Hhi|Hhi];
    [left; intros _; split; assumption
    |right; intros Hf; destruct (Hf Hc); lia].
Qed.

Lemma classic_fit (n n_infected n_skeptic : BinNums.Z) :
  counts_fit n n_infected n_skeptic \/ ~ counts_fit n n_infected n_skeptic.
Proof.
  unfold counts_fit.
  destruct (indices_fit_dec n 0 n_infected) as [H1|H1];
    [|right; intros [A _]; contradiction].
  destruct (indices_fit_dec n n_infected n_skeptic) as [H2|H2];
    [left; split; assumption | right; intros [_ B]; contradiction].
Qed.

(** [int(f * 0.0)], when it returns, is 0. *)
Lemma int_of_zero_product (f : float) (k : BinNums.Z) :
  int_of_float (f * 0)%float = Ok k -> k = 0.
Proof.
  unfold int_of_float. rewrite FloatAxioms.mul_spec.
  change (Prim2SF 0) with (S754_zero false). unfold SF64mul, SFmul.
  destruct (Prim2SF f) as [s|s| |s m e]; cbv beta iota;
    try discriminate; unfold Ok; intros [= <-]; reflexivity.
Qed.

Lemma counts_fit_positive (n n_infected n_skeptic : BinNums.Z) :
  0 <= n -> 0 <= n_infected ->
  (counts_fit n n_infected n_skeptic <->
   n_infected + Z.max 0 n_skeptic <= n).
Proof.
  intros Hn Hi. unfold counts_fit, indices_fit. split.
  - intros [H1 H2].
    destruct (Z_le_gt_dec n_infected 0), (Z_le_gt_dec n_skeptic 0);
      try (destruct H1; [lia|]); try (destruct H2; [lia|]); lia.
  - intros Hle. split; intros Hk; lia.
Qed.

Section InitNegative.
Context {G : Type} `{RandomGen G}.

(** A call whose infected count is negative. *)
Lemma init_negative (v : Variant) infected_frac skeptic_frac seed (g : G)
    (n_infected n_skeptic : BinNums.Z) :
  let n := number_of_nodes (graph v) in
  well_formed v ->
  int_of_float (float_of_int n * infected_frac)%float = Ok n_infected ->
  int_of_float (float_of_int n * skeptic_frac)%float = Ok n_skeptic ->
  n_infected < 0 ->
  (counts_fit n n_infected n_skeptic ->
   exists v' g',
     initialize_states v infected_frac skeptic_frac seed g = Ok (v', g') /\
     population Infected (get_states v') = 0) /\
  (~ counts_fit n n_infected n_skeptic ->
   initialize_states v infected_frac skeptic_frac seed g = Raise IndexError).
Proof.
  intros n Hwf Hi Hz Hneg.
  pose proof (init_plan v infected_frac skeptic_frac seed g Hwf) as Hp.
  pose proof (length_shuffled seed (graph v) g) as Hlen. fold n in Hlen.
  pose proof (shuffled_perm seed (graph v) g) as Hperm.
  rewrite <- Hlen in Hi, Hz.
  destruct (plan_outcome (shuffled seed (graph v) g) infected_frac
              skeptic_frac n_infected n_skeptic (state_of v) Hi Hz)
    as [Hfit Hout].
  rewrite Hlen in Hfit, Hout. split.
  - intros Hc. destruct (Hfit Hc) as (f' & Hf & Hno). rewrite Hf in Hp.
    destruct (initialize_states v _ _ _ g) as [[v' g']|e]; [|destruct Hp].
    cbn [ends_alike fst] in Hp. destruct Hp as (Hs & _ & _).
    exists v', g'. split; [reflexivity|].
    rewrite Hs, population_table, filter_none; [reflexivity|].
    intros u Hu. destruct (state_eqb_spec Infected (f' u)) as [E|_];
      [|reflexivity].
    exfalso. apply (Hno ltac:(lia) u); [|congruence].
    eapply Permutation_in; eassumption.
  - intros Hc. rewrite (Hout Hc) in Hp.
    destruct (initialize_states v _ _ _ g) as [[v' g']|e]; [destruct Hp|].
    cbn [ends_alike] in Hp. now rewrite Hp.
Qed.
End InitNegative.

Lemma nodupb_NoDup xs : nodupb xs = true -> NoDup xs.
Proof.
  induction xs as [|x xs IH]; simpl; [constructor|].
  intros Hb. apply andb_prop in Hb as [Hx Hxs]. constructor; [|now apply IH].
  intros Hin. apply negb_true_iff in Hx.
  assert (Ht : existsb (Nat.eqb x) xs = true).
  { apply existsb_exists. exists x. split; [exact Hin | apply Nat.eqb_refl]. }
  congruence.
Qed.

Lemma check_graph_ok gr : check_graph gr = true -> wf_graph gr.
Proof.
  unfold check_graph. intros Hb. apply andb_prop in Hb as [Hnd Hnb]. split.
  - now apply nodupb_NoDup.
  - intros v ns Hin u Hu. rewrite forallb_forall in Hnb.
    specialize (Hnb _ Hin). simpl in Hnb. rewrite forallb_forall in Hnb.
    specialize (Hnb _ Hu). apply existsb_exists in Hnb as (w & Hw & Heq).
    apply Nat.eqb_eq in Heq. now subst.
Qed.

Section InitTheorems.
Context {G : Type} `{RandomGen G}.

(** C3 (reproducibility).  Two model objects over the same graph, of any
    variant and whatever their parameters, their current states and the
    state of the shared generator before each call: [initialize_states]
    called with the same fractions and the same seed [K] gives the same
    [get_states] table on both (both calls raise the same exception when
    the fractions do not fit). *)
Theorem initialize_states_reproducible
    (v1 v2 : Variant) (infected_frac skeptic_frac : float) (K : BinNums.Z)
    (g1 g2 : G) :
  well_formed v1 -> well_formed v2 -> graph v1 = graph v2 ->
  fmap (fun r => get_states (fst r))
       (initialize_states v1 infected_frac skeptic_frac (Some K) g1) =
  fmap (fun r => get_states (fst r))
       (initialize_states v2 infected_frac skeptic_frac (Some K) g2).
Proof.
  intros Hw1 Hw2 Hgr.
  pose proof (init_plan v1 infected_frac skeptic_frac (Some K) g1 Hw1) as H1.
  pose proof (init_plan v2 infected_frac skeptic_frac (Some K) g2 Hw2) as H2.
  assert (Hxs : shuffled (Some K) (graph v2) g2 =
                shuffled (Some K) (graph v1) g1).
  { unfold shuffled, seed_if_given. now rewrite Hgr. }
  rewrite Hxs in H2.
  pose proof (plan_forgets (shuffled (Some K) (graph v1) g1) infected_frac
                skeptic_frac (state_of v1) (state_of v2)) as Hf.
  destruct (initialize_states v1 _ _ _ g1) as [[v1' g1']|e1],
           (initialize_states v2 _ _ _ g2) as [[v2' g2']|e2],
           (plan _ _ _ (state_of v1)) as [f1|x1],
           (plan _ _ _ (state_of v2)) as [f2|x2];
    cbn [ends_alike fmap fst] in *; try easy; try congruence.
  destruct H1 as (-> & _), H2 as (-> & _). rewrite <- Hgr.
  apply f_equal, table_ext. intros u Hu. apply Hf.
  eapply Permutation_in; [apply shuffled_perm | exact Hu].
Qed.

(** C4 (the initial infected count), as the code has it.  The count is
    [int(x)] for the binary64 product [x = n * infected_frac] the code
    computes, not the floor of the exact product.  After a call of
    [initialize_states] that returns, exactly [max(0, int(x))] nodes are
    infected: for [infected_frac >= 0] that is the floor of the exact
    value of the rounded product [x], with [infected_frac = 0] no node is
    infected, and for a negative count none either.  The call returns
    whenever [0 <= int(x)] and that count and the skeptic count fit in the
    population. *)
Theorem initial_infected_is_floor
    (v : Variant) (infected_frac skeptic_frac : float)
    (seed : option BinNums.Z) (g : G) :
  let n := number_of_nodes (graph v) in
  let x := (float_of_int n * infected_frac)%float in
  well_formed v ->
  (forall v' g',
     initialize_states v infected_frac skeptic_frac seed g = Ok (v', g') ->
     exists n_infected,
       int_of_float x = Ok n_infected /\
       population Infected (get_states v') = Z.max 0 n_infected /\
       ((0 <=? infected_frac)%float = true ->
        exists q, float_value x = Some q /\ n_infected = Qfloor q /\
                  population Infected (get_states v') = Qfloor q) /\
       (infected_frac = 0%float ->
        population Infected (get_states v') = 0)) /\
  (forall n_infected n_skeptic,
     int_of_float x = Ok n_infected ->
     int_of_float (float_of_int n * skeptic_frac)%float = Ok n_skeptic ->
     0 <= n_infected -> n_infected + Z.max 0 n_skeptic <= n ->
     exists v' g',
       initialize_states v infected_frac skeptic_frac seed g = Ok (v', g')).
Proof.
  intros n x Hwf. split.
  - intros v' g' Hok.
    pose proof (init_plan v infected_frac skeptic_frac seed g Hwf) as Hp.
    rewrite Hok in Hp.
    destruct (int_of_float x) as [ni|e] eqn:Hi.
    2:{ unfold plan in Hp. rewrite length_shuffled in Hp. fold n x in Hp.
        rewrite Hi in Hp. destruct Hp. }
    destruct (int_of_float (float_of_int n * skeptic_frac)%float)
      as [nz|e] eqn:Hz.
    2:{ unfold plan in Hp. rewrite length_shuffled in Hp. fold n x in Hp.
        rewrite Hi, Hz in Hp. cbn [bind] in Hp.
        destruct (foldM _ _ _) in Hp; destruct Hp. }
    exists ni. split; [reflexivity|].
    assert (Hpop : population Infected (get_states v') = Z.max 0 ni).
    { destruct (Z_lt_ge_dec ni 0) as [Hneg|Hpos].
      - destruct (init_negative v infected_frac skeptic_frac seed g ni nz
                    Hwf Hi Hz Hneg) as [Hfit Hout]. fold n in Hfit, Hout.
        destruct (classic_fit n ni nz) as [Hc|Hc].
        + destruct (Hfit Hc) as (v1 & g1 & Hv1 & Hp1).
          rewrite Hok in Hv1. injection Hv1 as <- <-. lia.
        + rewrite (Hout Hc) in Hok. discriminate Hok.
      - destruct (init_outcome v infected_frac skeptic_frac seed g ni nz
                    Hwf Hi Hz ltac:(lia)) as [Hfit Hover].
        fold n in Hfit, Hover.
        destruct (Z_le_gt_dec (ni + Z.max 0 nz) n) as [Hle|Hgt].
        + destruct (Hfit Hle) as (v1 & g1 & Hv1 & _ & _ & Hst).
          rewrite Hok in Hv1. injection Hv1 as <- <-. rewrite Hst.
          rewrite (census_after_init v seed g _ _ Infected Hwf);
            [lia | fold n; lia].
        + rewrite Hover in Hok by lia. discriminate Hok. }
    split; [exact Hpop|]. split.
    + intros Hnn.
      assert (Hx : not_negative (Prim2SF x)).
      { apply mul_not_negative.
        - apply float_of_int_not_negative. unfold n, number_of_nodes. lia.
        - now apply leb_zero_not_negative. }
      destruct (int_of_float_floor x ni Hx Hi) as (Hni & q & Hq & Hfl).
      exists q. split; [exact Hq|]. split; [exact Hfl|]. lia.
    + intros Hzero. rewrite Hpop.
      assert (Hni : ni = 0); [|lia].
      unfold x in Hi. rewrite Hzero in Hi.
      apply (int_of_zero_product (float_of_int n) ni Hi).
  - intros ni nz Hi Hz Hni Hfit.
    destruct (init_outcome v infected_frac skeptic_frac seed g ni nz Hwf Hi Hz
                Hni) as [Hok _].
    destruct (Hok Hfit) as (v' & g' & Hv' & _). now exists v', g'.
Qed.

(** C5, as the code has it.  Nothing validates the two fractions, and
    nothing catches an index outside the shuffled node list.  With
    [n_infected = int(n * infected_frac)] and
    [n_skeptic = int(n * skeptic_frac)], the call returns exactly when
    both loops find their indices in the list ([counts_fit]): when
    [n_infected <= n] and, if [n_skeptic > 0], [-n <= n_infected] and
    [n_infected + n_skeptic <= n].  It then leaves [max(0, n_infected)]
    infected nodes and, for [n_infected >= 0], [max(0, n_skeptic)]
    skeptic nodes.  In every other case it raises [IndexError]. *)
Theorem initialize_states_past_the_end
    (v : Variant) (infected_frac skeptic_frac : float)
    (seed : option BinNums.Z) (g : G) (n_infected n_skeptic : BinNums.Z) :
  let n := number_of_nodes (graph v) in
  well_formed v ->
  int_of_float (float_of_int n * infected_frac)%float = Ok n_infected ->
  int_of_float (float_of_int n * skeptic_frac)%float = Ok n_skeptic ->
  (counts_fit n n_infected n_skeptic ->
   exists v' g',
     initialize_states v infected_frac skeptic_frac seed g = Ok (v', g') /\
     population Infected (get_states v') = Z.max 0 n_infected /\
     (0 <= n_infected ->
      population Skeptic (get_states v') = Z.max 0 n_skeptic)) /\
  (~ counts_fit n n_infected n_skeptic ->
   initialize_states v infected_frac skeptic_frac seed g = Raise IndexError).
Proof.
  intros n Hwf Hi Hz.
  assert (Hn : 0 <= n) by (unfold n, number_of_nodes; lia).
  destruct (Z_lt_ge_dec n_infected 0) as [Hneg|Hpos].
  - destruct (init_negative v infected_frac skeptic_frac seed g n_infected
                n_skeptic Hwf Hi Hz Hneg) as [Hfit Hout].
    split; [|exact Hout]. intros Hc.
    destruct (Hfit Hc) as (v' & g' & Hv' & Hpop).
    exists v', g'. split; [exact Hv'|]. split; [lia|]. intros H0. lia.
  - destruct (init_outcome v infected_frac skeptic_frac seed g n_infected
                n_skeptic Hwf Hi Hz ltac:(lia)) as [Hfit Hover].
    fold n in Hfit, Hover.
    pose proof (counts_fit_positive n n_infected n_skeptic Hn ltac:(lia))
      as Hiff.
    split.
    + intros Hc. apply Hiff in Hc.
      destruct (Hfit Hc) as (v' & g' & Hv' & _ & _ & Hst).
      exists v', g'. split; [exact Hv'|]. rewrite Hst.
      rewrite !(census_after_init v seed g _ _ _ Hwf) by (fold n; lia).
      split; [lia | intros _; lia].
    + intros Hc. apply Hover.
      destruct (Z_le_gt_dec (n_infected + Z.max 0 n_skeptic) n) as [Hle|Hgt];
        [|lia].
      elim Hc. now apply Hiff.
Qed.
End InitTheorems.

#[local] Existing Instance Lcg.gen.
#[local] Set Warnings "-inexact-float".

Example baseline10_constructed :
  (let _ := RefMath.lib in
   SEIZ.init (path 10) 0.3%float 0.2%float 0.2%float 0.1%float 0.5%float
             0.4%float 1%float) = Ok Examples.baseline10.
Proof. vm_compute. reflexivity. Qed.

Lemma initialize_states_reproducible_witness :
  let v1 := BasicModerator (self Examples.basic10) in
  let v2 := BasicModerator Examples.basic10_infected in
  fmap (fun r => get_states (fst r))
       (initialize_states v1 0.1%float 0.1%float (Some 42) (Lcg.seed 0)) =
  fmap (fun r => get_states (fst r))
       (initialize_states v2 0.1%float 0.1%float (Some 42) (Lcg.seed 12345)).
Proof.
  apply initialize_states_reproducible.
  - exact (check_graph_ok (path 10) eq_refl).
  - exact (check_graph_ok (path 10) eq_refl).
  - reflexivity.
Defined.

Lemma initial_infected_is_floor_witness :
  let v := BasicModerator (self Examples.basic10) in
  let x := (float_of_int 10 * 0.25)%float in
  (forall v' g',
     initialize_states v 0.25%float 0.1%float (Some 42) (Lcg.seed 0) =
     Ok (v', g') ->
     exists n_infected,
       int_of_float x = Ok n_infected /\
       population Infected (get_states v') = Z.max 0 n_infected /\
       ((0 <=? 0.25)%float = true ->
        exists q, float_value x = Some q /\ n_infected = Qfloor q /\
                  population Infected (get_states v') = Qfloor q) /\
       (0.25%float = 0%float ->
        population Infected (get_states v') = 0)) /\
  (forall n_infected n_skeptic,
     int_of_float x = Ok n_infected ->
     int_of_float (float_of_int 10 * 0.1)%float = Ok n_skeptic ->
     0 <= n_infected -> n_infected + Z.max 0 n_skeptic <= 10 ->
     exists v' g',
       initialize_states v 0.25%float 0.1%float (Some 42) (Lcg.seed 0) =
       Ok (v', g')).
Proof.
  apply (initial_infected_is_floor
           (BasicModerator (self Examples.basic10)) 0.25%float 0.1%float
           (Some 42) (Lcg.seed 0)).
  exact (check_graph_ok (path 10) eq_refl).
Defined.

(** C4, counterexample.  Ten nodes and [infected_frac = 0.7]: the exact
    product of 10 and the binary64 number [0.7] is below 7 and its floor
    is 6, the code rounds the product to [7.0] and infects 7 nodes.  Fifty
    nodes and [infected_frac = 0.58]: the floor of [50 * 58/100] is 29,
    the code infects 28. *)
Lemma initial_infected_is_not_the_exact_floor :
  (exists q, float_value 0.7%float = Some q /\
             Qfloor (inject_Z 10 * q) = 6) /\
  fmap (fun r => population Infected (get_states (fst r)))
       (initialize_states (BasicModerator (self Examples.basic10))
          0.7%float 0.1%float (Some 42) (Lcg.seed 0)) = Ok 7 /\
  Qfloor (inject_Z 50 * (58 # 100)) = 29 /\
  fmap (fun r => population Infected (get_states (fst r)))
       (initialize_states
          (BasicModerator
             (self (SEIZBM.init (path 50) 0.3 0.2 0.2 0.5 0.1 0.4 0.1
                                0.5)%float))
          0.58%float 0.1%float (Some 42) (Lcg.seed 0)) = Ok 28.
Proof.
  split; [eexists; split; [vm_compute; reflexivity | vm_compute; reflexivity]|].
  split; [vm_compute; reflexivity|].
  split; vm_compute; reflexivity.
Qed.

(** The boundary [infected_frac = 0]. *)
Example no_infected_at_zero :
  fmap (fun r => population Infected (get_states (fst r)))
       (initialize_states (BasicModerator (self Examples.basic10))
          0%float 0.1%float (Some 42) (Lcg.seed 0)) = Ok 0.
Proof. vm_compute. reflexivity. Qed.

Example initial_infected_run :
  fmap (fun r => population Infected (get_states (fst r)))
       (initialize_states (BasicModerator (self Examples.basic10))
          0.25%float 0.1%float (Some 42) (Lcg.seed 0)) = Ok 2.
Proof. vm_compute. reflexivity. Qed.

(** C5, counterexample.  Ten nodes, [infected_frac = skeptic_frac = 0.6]:
    the fractions sum to more than 1 and [initialize_states] raises
    [IndexError], in the baseline and in the basic-moderator class. *)
Lemma initialize_states_raises_IndexError :
  (1 <? 0.6 + 0.6)%float = true /\
  initialize_states (Baseline (self Examples.baseline10)) 0.6%float 0.6%float
                    (Some 42) (Lcg.seed 0) = Raise IndexError /\
  initialize_states (BasicModerator (self Examples.basic10)) 0.6%float
                    0.6%float (Some 42) (Lcg.seed 0) = Raise IndexError.
Proof. vm_compute. repeat split; reflexivity. Qed.

Lemma initialize_states_past_the_end_witness :
  let v := Baseline (self Examples.baseline10) in
  (counts_fit 10 6 6 ->
   exists v' g',
     initialize_states v 0.6%float 0.6%float (Some 42) (Lcg.seed 0) =
     Ok (v', g') /\
     population Infected (get_states v') = Z.max 0 6 /\
     (0 <= 6 -> population Skeptic (get_states v') = Z.max 0 6)) /\
  (~ counts_fit 10 6 6 ->
   initialize_states v 0.6%float 0.6%float (Some 42) (Lcg.seed 0) =
   Raise IndexError).
Proof.
  apply (initialize_states_past_the_end
           (Baseline (self Examples.baseline10)) 0.6%float 0.6%float
           (Some 42) (Lcg.seed 0) 6 6).
  - split; [exact (check_graph_ok (path 10) eq_refl) | reflexivity].
  - reflexivity.
  - reflexivity.
Defined.

(** A negative count that does not fit: ten nodes, [infected_frac = -1.5]
    and [skeptic_frac = 0.1], the first skeptic index is [-15]. *)
Example negative_count_raises :
  ~ counts_fit 10 (-15) 1 /\
  initialize_states (Baseline (self Examples.baseline10)) (-1.5)%float
                    0.1%float (Some 42) (Lcg.seed 0) = Raise IndexError.
Proof.
  split; [|vm_compute; reflexivity].
  unfold counts_fit, indices_fit. intros [_ Hz]. destruct Hz; lia.
Qed.

(** Fractions that sum to more than 1 and still fit: three nodes,
    [0.5 + 0.6]. *)
Example fractions_over_one_fit :
  (1 <? 0.5 + 0.6)%float = true /\
  fmap (fun r => get_states (fst r))
       (initialize_states
          (BasicModerator
             (self (SEIZBM.init (path 3) 0.3 0.2 0.2 0.5 0.1 0.4 0.1 0.5)%float))
          0.5%float 0.6%float (Some 42) (Lcg.seed 0)) =
  Ok [(0%nat, Skeptic); (1%nat, Susceptible); (2%nat, Infected)].
Proof. vm_compute. split; reflexivity. Qed.

(* ================================================================== *)
(** * Loops with an invariant                                          *)
(* ================================================================== *)

Lemma foldM_inv {A B} (P : A -> Prop) (f : A -> B -> result A) (xs : list B) :
  (forall a x, In x xs -> P a -> exists a', f a x = Ok a' /\ P a') ->
  forall a, P a -> exists a', foldM f xs a = Ok a' /\ P a'.
Proof.
  induction xs as [|x xs IH]; intros Hf a Ha; simpl.
  - now exists a.
  - destruct (Hf a x (or_introl eq_refl) Ha) as (a1 & -> & Ha1). simpl.
    apply IH; [|exact Ha1]. intros; apply Hf; [now right | assumption].
Qed.

Lemma fold_left_inv {A B} (P : A -> Prop) (f : A -> B -> A) (xs : list B) :
  (forall a x, In x xs -> P a -> P (f a x)) ->
  forall a, P a -> P (fold_left f xs a).
Proof.
  induction xs as [|x xs IH]; intros Hf a Ha; simpl; [exact Ha|].
  apply IH; [intros; apply Hf; [now right | assumption]|].
  apply Hf; [now left | exact Ha].
Qed.

Section DictMore.
Context {K V : Type} `{Key K}.

Lemma NoDup_keys_set (d : dict K V) k v :
  NoDup (keys d) -> NoDup (keys (Py.set d k v)).
Proof.
  intros Hnd. destruct (in_dec (fun x y => reflect_dec _ _ (keq_spec x y))
                               k (keys d)) as [Hin|Hni].
  - now rewrite keys_set_in.
  - rewrite keys_set_notin by exact Hni.
    apply NoDup_app; [exact Hnd | repeat constructor; intros [] |].
    intros a Ha [<-|[]]. contradiction.
Qed.

Lemma keys_set_incl (d : dict K V) k v (ks : list K) :
  incl (keys d) ks -> In k ks -> incl (keys (Py.set d k v)) ks.
Proof.
  intros Hd Hk. destruct (in_dec (fun x y => reflect_dec _ _ (keq_spec x y))
                                 k (keys d)) as [Hin|Hni].
  - now rewrite keys_set_in.
  - rewrite keys_set_notin by exact Hni. intros a Ha.
    apply in_app_or in Ha as [Ha|[<-|[]]]; [now apply Hd | exact Hk].
Qed.
End DictMore.

(* ================================================================== *)
(** * The baseline step                                                *)
(* ================================================================== *)

Section BaselineStep.
Context {G : Type} `{RandomGen G}.
Variable m : SEIZ.SEIZModel.




Lemma justified_key v x : justified m v x -> In v (keys (SEIZ.states m)).
Proof.
  intros Hj. apply get_In_keys.
  destruct Hj as [[-> _]|[[-> _]|[-> _]]]; discriminate.
Qed.

Lemma sound_propose proposals v x :
  sound m proposals -> justified m v x -> sound m (SEIZ.propose proposals v x).
Proof.
  intros [Hnd Hs] Hj. unfold SEIZ.propose. split.
  - now apply NoDup_keys_set.
  - intros u plist. destruct (Nat.eq_dec v u) as [<-|Hn].
    + rewrite get_set_same. intros [= <-].
      destruct (Py.get proposals v) as [ps|] eqn:Hg.
      * destruct (Hs v ps Hg) as (_ & Hk & Hf). repeat split.
        -- now destruct ps.
        -- exact Hk.
        -- apply Forall_app. split; [exact Hf | now constructor].
      * repeat split; [discriminate | exact (justified_key v x Hj) |].
        now constructor.
    + rewrite get_set_other by exact Hn. apply Hs.
Qed.

Hypothesis Hwf : well_formed (Baseline m).

Lemma item_get v s : In (v, s) (SEIZ.states m) -> Py.get (SEIZ.states m) v = Some s.
Proof.
  intros Hin. apply get_In; [|exact Hin].
  destruct Hwf as [[Hnd _] Hk]. simpl in Hk. rewrite Hk. exact Hnd.
Qed.

Lemma neighbor_key u ns v :
  neighbors (SEIZ.seiz_graph m) u = Ok ns -> In v ns ->
  exists s, Py.get (SEIZ.states m) v = Some s.
Proof.
  intros Hn Hv. unfold neighbors in Hn.
  destruct (Py.get (SEIZ.seiz_graph m) u) as [ns'|] eqn:Hg; [|discriminate].
  injection Hn as ->. apply In_get in Hg.
  destruct Hwf as [[_ Hnb] Hk]. simpl in Hk.
  specialize (Hnb u ns Hg v Hv). rewrite <- Hk in Hnb.
  apply get_In_keys in Hnb.
  destruct (Py.get (SEIZ.states m) v) as [s|]; [now exists s | congruence].
Qed.

Lemma key_neighbors v :
  In v (keys (SEIZ.states m)) ->
  exists ns, neighbors (SEIZ.seiz_graph m) v = Ok ns.
Proof.
  intros Hv. destruct Hwf as [_ Hk]. simpl in Hk. rewrite Hk in Hv.
  apply get_In_keys in Hv. unfold neighbors.
  destruct (Py.get (SEIZ.seiz_graph m) v) as [ns|]; [now exists ns | congruence].
Qed.

(** One neighbour of a spreader [u] in state [s], [s] being [Infected] or
    [Skeptic]. *)
Lemma contact_sound cp ap (s : State) u ns acc v :
  (s = Infected \/ s = Skeptic) ->
  Py.get (SEIZ.states m) u = Some s ->
  neighbors (SEIZ.seiz_graph m) u = Ok ns -> In v ns ->
  sound m (fst acc) ->
  exists acc', SEIZ.contact m cp ap s acc v = Ok acc' /\ sound m (fst acc').
Proof.
  intros Hs Hu Hns Hv Hacc. destruct acc as [proposals g]. simpl in Hacc.
  unfold SEIZ.contact, lookup.
  destruct (neighbor_key u ns v Hns Hv) as (sv & Hsv). rewrite Hsv. simpl.
  assert (Hj : forall x, sv = Susceptible -> x = s \/ x = Exposed ->
                         justified m v x).
  { intros x -> Hx. left. split; [exact Hsv|]. exists u, ns.
    repeat split; try assumption.
    destruct Hs as [-> | ->]; [left | right]; split; assumption. }
  destruct (state_eqb_spec sv Susceptible) as [Heq|Hne].
  - destruct (rng_random g) as [u1 g1].
    destruct (u1 <? cp)%float.
    + destruct (rng_random g1) as [u2 g2].
      destruct (u2 <? ap)%float; eexists; (split; [reflexivity|]); simpl;
        apply sound_propose; auto.
    + eexists; split; [reflexivity | exact Hacc].
  - eexists; split; [reflexivity | exact Hacc].
Qed.

Lemma contacts_sound acc item :
  In item (SEIZ.states m) -> sound m (fst acc) ->
  exists acc', SEIZ.contacts m acc item = Ok acc' /\ sound m (fst acc').
Proof.
  intros Hin Hacc. destruct item as [u s]. unfold SEIZ.contacts.
  pose proof (item_get u s Hin) as Hu.
  assert (Hk : In u (keys (SEIZ.states m))).
  { apply get_In_keys. rewrite Hu. discriminate. }
  destruct (key_neighbors u Hk) as (ns & Hns).
  destruct s; try (eexists; split; [reflexivity | exact Hacc]);
    rewrite Hns; simpl;
    apply (foldM_inv (fun a => sound m (fst a))); try exact Hacc;
    intros a v Hv Ha; eapply contact_sound; eauto.
Qed.

Lemma internal_sound acc item :
  In item (SEIZ.states m) -> sound m (fst acc) ->
  sound m (fst (SEIZ.internal m acc item)).
Proof.
  intros Hin Hacc. destruct acc as [proposals g], item as [v s].
  pose proof (item_get v s Hin) as Hv. unfold SEIZ.internal.
  destruct s; try exact Hacc; destruct (rng_random g) as [u1 g1];
    match goal with |- context [if ?c then _ else _] => destruct c end;
    simpl; try exact Hacc; apply sound_propose; try exact Hacc.
  - right. left. now split.
  - right. right. now split.
Qed.

(** The proposals of a step exist and are sound. *)
Lemma collect_sound (g : G) :
  exists proposals g1,
    SEIZ.collect m g = Ok (proposals, g1) /\ sound m proposals.
Proof.
  unfold SEIZ.collect.
  destruct (foldM_inv (fun a => sound m (fst a)) (SEIZ.contacts m)
              (SEIZ.states m)) with (a := (@nil (node * list State), g))
    as (acc & -> & Hacc).
  - intros a x Hx Ha. now apply contacts_sound.
  - split; [constructor | discriminate].
  - simpl.
    pose proof (fold_left_inv (fun a => sound m (fst a)) (SEIZ.internal m)
                  (SEIZ.states m)) as Hi.
    specialize (Hi (fun a x Hx Ha => internal_sound a x Hx Ha) acc Hacc).
    destruct (fold_left (SEIZ.internal m) (SEIZ.states m) acc) as [pr g1].
    now exists pr, g1.
Qed.
End BaselineStep.

Section BaselineApply.
Context {G : Type} `{RandomGen G}.

Lemma choice_total {A} (xs : list A) (g : G) :
  xs <> [] -> exists x g', choice xs g = Ok (x, g') /\ In x xs.
Proof.
  intros Hne. unfold choice. destruct xs as [|a xs]; [contradiction|].
  pose proof (rng_randbelow_lt (length (a :: xs)) g) as Hlt.
  destruct (rng_randbelow (length (a :: xs)) g) as [i g'].
  simpl fst in Hlt.
  destruct (getitem_nth (a :: xs) (Z.of_nat i)) as (x & Hx & Hnth).
  { simpl length in *. lia. }
  rewrite Hx. exists x, g'. split; [reflexivity|].
  eapply getitem_In; eauto.
Qed.

(** The third loop: each proposed node takes one choice from its list,
    every other node keeps its state. *)
Lemma apply_all (proposals : dict node (list State)) :
  forall (st : dict node State) (g : G),
  NoDup (keys proposals) ->
  (forall v plist, In (v, plist) proposals ->
     plist <> [] /\ In v (keys st)) ->
  exists st' g',
    foldM SEIZ.apply_one proposals (st, g) = Ok (st', g') /\
    keys st' = keys st /\
    forall v,
      match Py.get proposals v with
      | None => Py.get st' v = Py.get st v
      | Some plist =>
          exists ga gb chosen,
            choice plist ga = Ok (chosen, gb) /\ In chosen plist /\
            Py.get st' v = Some chosen
      end.
Proof.
  induction proposals as [|[u pl] rest IH]; intros st g Hnd Hall.
  - exists st, g. simpl. auto.
  - simpl in Hnd. inversion Hnd as [|? ? Hu Hnd']; subst.
    destruct (Hall u pl (or_introl eq_refl)) as [Hne Hk].
    destruct (choice_total pl g Hne) as (x & g1 & Hc & Hx).
    simpl foldM. unfold SEIZ.apply_one at 1. rewrite Hc. simpl bind.
    destruct (IH (Py.set st u x) g1 Hnd') as (st' & g' & Hf & Hkeys & Hget).
    { intros v plist Hin. destruct (Hall v plist (or_intror Hin)) as [H1 H2].
      split; [exact H1|]. now rewrite keys_set_in. }
    exists st', g'. split; [exact Hf|]. split.
    { rewrite Hkeys. now apply keys_set_in. }
    intros v. simpl. destruct (Nat.eqb_spec v u) as [->|Hvu].
    + exists g, g1, x. repeat split; try assumption.
      specialize (Hget u).
      assert (Hnone : Py.get rest u = None) by now apply get_None_keys.
      rewrite Hnone in Hget. rewrite Hget. apply get_set_same.
    + specialize (Hget v). destruct (Py.get rest v); [exact Hget|].
      rewrite Hget. apply get_set_other. congruence.
Qed.

(** The step of the baseline, by its proposals. *)
Lemma baseline_step_spec (m : SEIZ.SEIZModel) (g : G) :
  well_formed (Baseline m) ->
  exists proposals g1 m' g',
    SEIZ.collect m g = Ok (proposals, g1) /\
    SEIZ.seiz_step m g = Ok (m', g') /\
    SEIZ.seiz_graph m' = SEIZ.seiz_graph m /\
    keys (SEIZ.states m') = keys (SEIZ.states m) /\
    forall v,
      match Py.get proposals v with
      | None => Py.get (SEIZ.states m') v = Py.get (SEIZ.states m) v
      | Some plist =>
          Forall (justified m v) plist /\
          exists ga gb chosen,
            choice plist ga = Ok (chosen, gb) /\ In chosen plist /\
            Py.get (SEIZ.states m') v = Some chosen
      end.
Proof.
  intros Hwf.
  destruct (collect_sound m Hwf g) as (proposals & g1 & Hc & Hnd & Hs).
  destruct (apply_all proposals (SEIZ.states m) g1 Hnd)
    as (st' & g' & Hf & Hk & Hget).
  { intros v plist Hin. apply (get_In _ _ _ Hnd) in Hin.
    destruct (Hs v plist Hin) as (H1 & H2 & _). now split. }
  exists proposals, g1, (SEIZ.with_states m st'), g'.
  split; [exact Hc|]. split.
  { unfold SEIZ.seiz_step. rewrite Hc. simpl bind. rewrite Hf. reflexivity. }
  split; [reflexivity|]. split; [exact Hk|].
  intros v. specialize (Hget v). simpl.
  destruct (Py.get proposals v) as [plist|] eqn:Hp; [|exact Hget].
  split; [|exact Hget]. apply (Hs v plist Hp).
Qed.

(** [random.choice] on a list that is not empty: the element at the index
    [randbelow] draws. *)
Lemma choice_index {A} (xs : list A) (d : A) (g : G) :
  xs <> [] ->
  choice xs g =
  Ok (nth (fst (rng_randbelow (length xs) g)) xs d,
      snd (rng_randbelow (length xs) g)) /\
  In (nth (fst (rng_randbelow (length xs) g)) xs d) xs.
Proof.
  intros Hne. unfold choice. destruct xs as [|a xs]; [contradiction|].
  pose proof (rng_randbelow_lt (length (a :: xs)) g) as Hlt.
  destruct (rng_randbelow (length (a :: xs)) g) as [i g'].
  cbn [fst snd] in *.
  assert (Hi : (i < length (a :: xs))%nat) by (apply Hlt; cbn; lia).
  destruct (getitem_nth (a :: xs) (Z.of_nat i)) as (x & Hx & Hnth); [lia|].
  rewrite Nat2Z.id in Hnth. rewrite Hx.
  rewrite (nth_error_nth _ _ d Hnth). split; [reflexivity|].
  eapply nth_error_In; exact Hnth.
Qed.

(** The third loop makes the draws of [one_choice_each] and writes what
    they pick. *)
Lemma apply_all_draws (proposals : dict node (list State)) :
  forall (st : dict node State) (g : G),
  NoDup (keys proposals) ->
  (forall v plist, In (v, plist) proposals ->
     plist <> [] /\ In v (keys st)) ->
  exists st',
    foldM SEIZ.apply_one proposals (st, g) =
    Ok (st', snd (one_choice_each proposals g)) /\
    keys st' = keys st /\
    keys (fst (one_choice_each proposals g)) = keys proposals /\
    forall v,
      match Py.get proposals v with
      | None => Py.get st' v = Py.get st v /\
                Py.get (fst (one_choice_each proposals g)) v = None
      | Some plist =>
          exists chosen,
            Py.get (fst (one_choice_each proposals g)) v = Some chosen /\
            In chosen plist /\ Py.get st' v = Some chosen
      end.
Proof.
  induction proposals as [|[u pl] rest IH]; intros st g Hnd Hall.
  - exists st. cbn. auto.
  - cbn [keys map fst] in Hnd. inversion Hnd as [|? ? Hu Hnd']; subst.
    destruct (Hall u pl (or_introl eq_refl)) as [Hne Hk].
    destruct (choice_index pl Susceptible g Hne) as [Hc Hx].
    cbn [foldM one_choice_each]. unfold SEIZ.apply_one at 1. rewrite Hc.
    destruct (rng_randbelow (length pl) g) as [i g1]. cbn [fst snd] in *.
    unfold Ok at 1. cbn [bind]. unfold Ok at 1. cbn [bind].
    destruct (IH (Py.set st u (nth i pl Susceptible)) g1 Hnd')
      as (st' & Hf & Hkeys & Hck & Hget).
    { intros v plist Hin. destruct (Hall v plist (or_intror Hin)) as [H1 H2].
      split; [exact H1|]. now rewrite keys_set_in. }
    destruct (one_choice_each rest g1) as [chosen g'] eqn:Hrest.
    cbn [fst snd] in *.
    exists st'. split; [exact Hf|]. split.
    { rewrite Hkeys. now apply keys_set_in. }
    split; [unfold keys in Hck |- *; cbn [map fst]; now rewrite Hck|].
    intros v. cbn [Py.get]. destruct (keq v u) eqn:Hvu.
    + assert (v = u) as ->.
      { destruct (Nat.eqb_spec v u) as [E|E]; [exact E|].
        now rewrite keq_neq in Hvu. }
      exists (nth i pl Susceptible). split; [reflexivity|].
      split; [exact Hx|].
      specialize (Hget u).
      assert (Hnone : Py.get rest u = None) by now apply get_None_keys.
      rewrite Hnone in Hget. destruct Hget as [Hget _].
      rewrite Hget. apply get_set_same.
    + assert (Hne' : v <> u) by (intros ->; now rewrite keq_refl in Hvu).
      specialize (Hget v). destruct (Py.get rest v) as [plist|].
      * exact Hget.
      * destruct Hget as [Hget Hnone]. split; [|exact Hnone].
        rewrite Hget. now apply get_set_other.
Qed.

(** C7 (synchronous update of the baseline step).  On a well-formed
    baseline model [step] returns.  Its proposals are those of [collect],
    which reads the configuration the step started from and writes no
    state: each proposal for a node is one the rules allow in that
    configuration ([justified]).  The third loop then makes one draw for
    each proposed node, in the order of the table and on the running
    generator: [one_choice_each], started on the generator [collect]
    left, gives the pick of every proposed node and the generator the step
    ends with.  A node with proposals takes its pick, one of its
    proposals; a node without proposals keeps its state.  (The draw is
    [randbelow(len(plist))]; its distribution is the library's.) *)
Theorem baseline_step_synchronous (m : SEIZ.SEIZModel) (g : G) :
  well_formed (Baseline m) ->
  exists proposals g1 chosen m' g',
    SEIZ.collect m g = Ok (proposals, g1) /\
    one_choice_each proposals g1 = (chosen, g') /\
    SEIZ.seiz_step m g = Ok (m', g') /\
    SEIZ.seiz_graph m' = SEIZ.seiz_graph m /\
    keys (SEIZ.states m') = keys (SEIZ.states m) /\
    keys chosen = keys proposals /\ NoDup (keys proposals) /\
    forall v,
      match Py.get proposals v with
      | None => Py.get (SEIZ.states m') v = Py.get (SEIZ.states m) v
      | Some plist =>
          plist <> [] /\ Forall (justified m v) plist /\
          exists x,
            Py.get chosen v = Some x /\ In x plist /\
            Py.get (SEIZ.states m') v = Some x
      end.
Proof.
  intros Hwf.
  destruct (collect_sound m Hwf g) as (proposals & g1 & Hc & Hnd & Hs).
  destruct (apply_all_draws proposals (SEIZ.states m) g1 Hnd)
    as (st' & Hf & Hk & Hck & Hget).
  { intros v plist Hin. apply (get_In _ _ _ Hnd) in Hin.
    destruct (Hs v plist Hin) as (H1 & H2 & _). now split. }
  destruct (one_choice_each proposals g1) as [chosen g'] eqn:Hdraw.
  cbn [fst snd] in *.
  exists proposals, g1, chosen, (SEIZ.with_states m st'), g'.
  split; [exact Hc|]. split; [exact Hdraw|]. split.
  { unfold SEIZ.seiz_step. rewrite Hc. unfold Ok at 1. cbn [bind].
    rewrite Hf. reflexivity. }
  split; [reflexivity|]. split; [exact Hk|]. split; [exact Hck|].
  split; [exact Hnd|].
  intros v. specialize (Hget v). cbn [SEIZ.states SEIZ.with_states].
  destruct (Py.get proposals v) as [plist|] eqn:Hp; [|apply Hget].
  destruct (Hs v plist Hp) as (Hne & _ & Hj).
  split; [exact Hne|]. split; [exact Hj | exact Hget].
Qed.
End BaselineApply.

Lemma baseline_step_synchronous_witness :
  let m := Examples.baseline10_alternating in
  exists proposals g1 chosen m' g',
    SEIZ.collect m (Lcg.seed 5) = Ok (proposals, g1) /\
    one_choice_each proposals g1 = (chosen, g') /\
    SEIZ.seiz_step m (Lcg.seed 5) = Ok (m', g') /\
    SEIZ.seiz_graph m' = SEIZ.seiz_graph m /\
    keys (SEIZ.states m') = keys (SEIZ.states m) /\
    keys chosen = keys proposals /\ NoDup (keys proposals) /\
    forall v,
      match Py.get proposals v with
      | None => Py.get (SEIZ.states m') v = Py.get (SEIZ.states m) v
      | Some plist =>
          plist <> [] /\ Forall (justified m v) plist /\
          exists x,
            Py.get chosen v = Some x /\ In x plist /\
            Py.get (SEIZ.states m') v = Some x
      end.
Proof.
  apply (baseline_step_synchronous Examples.baseline10_alternating
           (Lcg.seed 5)).
  split; [exact (check_graph_ok (path 10) eq_refl) | reflexivity].
Defined.

(** The step of the witness: five proposed nodes, node 7 with two
    different proposals, and the configuration the step leaves. *)
Example baseline_step_contested :
  let m := Examples.baseline10_alternating in
  fmap fst (SEIZ.collect m (Lcg.seed 5)) =
  Ok [(1%nat, [Exposed]); (3%nat, [Infected]);
      (7%nat, [Infected; Exposed]); (9%nat, [Exposed]);
      (2%nat, [Exposed])] /\
  fmap (fun r => fst (one_choice_each (fst r) (snd r)))
       (SEIZ.collect m (Lcg.seed 5)) =
  Ok [(1%nat, Exposed); (3%nat, Infected); (7%nat, Exposed);
      (9%nat, Exposed); (2%nat, Exposed)] /\
  fmap (fun r => SEIZ.states (fst r)) (SEIZ.seiz_step m (Lcg.seed 5)) =
  Ok [(0%nat, Infected); (1%nat, Exposed); (2%nat, Exposed);
      (3%nat, Infected); (4%nat, Infected); (5%nat, Susceptible);
      (6%nat, Infected); (7%nat, Exposed); (8%nat, Infected);
      (9%nat, Exposed)].
Proof. vm_compute. repeat split; reflexivity. Qed.

(* ================================================================== *)
(** * The moderated steps                                              *)
(* ================================================================== *)

Section BasicStep.
Context {G : Type} `{RandomGen G}.
Variable mo : SEIZBM.SEIZBMModel.


Lemma bm_buffer_set new_states v s :
  bm_buffer_ok mo new_states -> SEIZBM.state (SEIZBM.agents mo v) <> Skeptic ->
  bm_buffer_ok mo (Py.set new_states v s).
Proof.
  intros Hb Hv u. destruct (Nat.eq_dec v u) as [<-|Hn]; [easy|].
  rewrite get_set_other by exact Hn. apply Hb.
Qed.

Lemma bm_visit_ok acc v :
  In v (nodes (SEIZBM.bm_graph mo)) -> bm_buffer_ok mo (fst acc) ->
  exists acc', SEIZBM.visit mo acc v = Ok acc' /\ bm_buffer_ok mo (fst acc').
Proof.
  intros Hv Hacc. destruct acc as [new_states g]. simpl in Hacc.
  unfold SEIZBM.visit.
  assert (Hns : exists ns, neighbors (SEIZBM.bm_graph mo) v = Ok ns).
  { apply get_In_keys in Hv. unfold neighbors.
    destruct (Py.get (SEIZBM.bm_graph mo) v) as [ns|];
      [now exists ns | congruence]. }
  destruct Hns as (ns & Hns).
  destruct (SEIZBM.state (SEIZBM.agents mo v)) eqn:Hs.
  - rewrite Hns. simpl bind.
    destruct (SEIZBM.scan_susceptible mo ns g) as [[s|] g1];
      eexists; (split; [reflexivity|]); simpl; [|exact Hacc].
    apply bm_buffer_set; [exact Hacc | congruence].
  - destruct (rng_random g) as [u1 g1].
    destruct (u1 <? SEIZBM.epsilon mo)%float.
    + eexists; split; [reflexivity|]. simpl.
      apply bm_buffer_set; [exact Hacc | congruence].
    + rewrite Hns. simpl bind.
      destruct (SEIZBM.scan_exposed mo ns g1) as [[s|] g2];
        eexists; (split; [reflexivity|]); simpl; [|exact Hacc].
      apply bm_buffer_set; [exact Hacc | congruence].
  - destruct (rng_random g) as [u1 g1].
    destruct (u1 <? SEIZBM.mu mo)%float.
    + destruct (rng_random g1) as [u2 g2].
      destruct (u2 <? SEIZBM.m mo)%float;
        eexists; (split; [reflexivity|]); simpl; [|exact Hacc].
      apply bm_buffer_set; [exact Hacc | congruence].
    + eexists; split; [reflexivity | exact Hacc].
  - eexists; split; [reflexivity | exact Hacc].
Qed.

Lemma bm_commit_other (new_states : dict node State) :
  forall ag u, ~ In u (keys new_states) ->
  SEIZBM.commit ag new_states u = ag u.
Proof.
  induction new_states as [|[v s] rest IH]; intros ag u Hu; [reflexivity|].
  unfold SEIZBM.commit in *. simpl fold_left. simpl in Hu.
  rewrite IH by tauto. unfold SEIZBM.set_state. apply upd_other.
  intros ->. tauto.
Qed.

(** The step returns, keeps the graph and leaves every skeptic as it is. *)
Lemma bm_step_ok (g : G) :
  exists mo' g',
    SEIZBM.bm_step mo g = Ok (mo', g') /\
    SEIZBM.bm_graph mo' = SEIZBM.bm_graph mo /\
    forall u, SEIZBM.state (SEIZBM.agents mo u) = Skeptic ->
              SEIZBM.agents mo' u = SEIZBM.agents mo u.
Proof.
  unfold SEIZBM.bm_step.
  destruct (foldM_inv (fun a => bm_buffer_ok mo (fst a)) (SEIZBM.visit mo)
              (nodes (SEIZBM.bm_graph mo)))
    with (a := (@nil (node * State), g)) as ([new_states g1] & -> & Hb).
  - intros a x Hx Ha. now apply bm_visit_ok.
  - intros u Hu. now contradiction Hu.
  - simpl in Hb. exists (SEIZBM.with_agents mo
                           (SEIZBM.commit (SEIZBM.agents mo) new_states)), g1.
    split; [reflexivity|]. split; [reflexivity|].
    intros u Hu. simpl. apply bm_commit_other. intros Hin.
    apply get_In_keys in Hin. now apply (Hb u Hin).
Qed.
End BasicStep.

Section SmartStep.
Context {G : Type} `{RandomGen G}.
Variable mo : SEIZSM.SEIZSMModel.


Lemma keeps_refl ag : keeps_skeptics ag ag.
Proof. intros u Hu. exact Hu. Qed.

Lemma keeps_trans ag1 ag2 ag3 :
  keeps_skeptics ag1 ag2 -> keeps_skeptics ag2 ag3 -> keeps_skeptics ag1 ag3.
Proof. intros H12 H23 u Hu. apply H23, H12, Hu. Qed.

(** Replacing the agent of [v] keeps the skeptics when it keeps [v]
    skeptic if it was. *)
Lemma keeps_upd ag v a :
  (SEIZSM.state (ag v) = Skeptic -> SEIZSM.state a = Skeptic) ->
  keeps_skeptics ag (upd ag v a).
Proof.
  intros Hv u Hu. unfold upd. destruct (Nat.eqb_spec u v) as [->|Hn].
  - now apply Hv.
  - exact Hu.
Qed.

Lemma keeps_set_state ag v s :
  SEIZSM.state (ag v) <> Skeptic -> keeps_skeptics ag (SEIZSM.set_state ag v s).
Proof.
  intros Hv. unfold SEIZSM.set_state. apply keeps_upd. intros Hs. contradiction.
Qed.

Lemma send_one_keeps acc sender :
  keeps_skeptics (fst (fst acc)) (fst (fst (SEIZSM.send_one mo acc sender))).
Proof.
  destruct acc as [[ag toxic] g].
  change (fst (fst (ag, toxic, g))) with ag. unfold SEIZSM.send_one.
  cbv zeta. cbn [SEIZSM.state SEIZSM.profile SEIZSM.toxic_messages
                 SEIZSM.activity_level].
  destruct (SEIZSM.state (ag sender)) eqn:Hs;
    try (simpl; apply keeps_upd; intros; simpl; congruence).
  destruct (SEIZSM.T mo <=? _)%float;
    [| simpl; apply keeps_upd; intros; simpl; congruence].
  destruct (SEIZSM.moderator_intervention mo _ g) as [a g1]. simpl.
  apply keeps_upd. congruence.
Qed.

Lemma spread_one_keeps acc neighbor :
  keeps_skeptics (fst acc) (fst (SEIZSM.spread_one mo acc neighbor)).
Proof.
  destruct acc as [ag g]. change (fst (ag, g)) with ag.
  unfold SEIZSM.spread_one.
  destruct (SEIZSM.state (ag neighbor)) eqn:Hs; try apply keeps_refl;
    destruct (rng_random g) as [u1 g1];
    match goal with |- context [if ?c then _ else _] => destruct c end;
    try apply keeps_refl.
  - destruct (rng_random g1) as [u2 g2]. simpl.
    apply keeps_set_state. congruence.
  - simpl. apply keeps_set_state. congruence.
Qed.

Lemma internal_one_keeps acc v :
  keeps_skeptics (fst acc) (fst (SEIZSM.internal_one mo acc v)).
Proof.
  destruct acc as [ag g]. change (fst (ag, g)) with ag.
  unfold SEIZSM.internal_one.
  destruct (SEIZSM.state (ag v)) eqn:Hs; try apply keeps_refl.
  destruct (rng_random g) as [u1 g1].
  destruct (u1 <? SEIZSM.epsilon mo)%float.
  - simpl. apply keeps_set_state. congruence.
  - destruct (rng_random g1) as [u2 g2].
    destruct (u2 <? SEIZSM.lambd mo)%float; simpl; [|apply keeps_refl].
    apply keeps_set_state. congruence.
Qed.
End SmartStep.

Section SmartStepOk.
Context {G : Type} `{RandomGen G}.
Variable mo : SEIZSM.SEIZSMModel.
Hypothesis Hn : 0 <= SEIZSM.n mo.

Lemma send_one_toxic acc sender :
  incl (snd (fst (SEIZSM.send_one mo acc sender)))
       (snd (fst acc) ++ [sender]).
Proof.
  destruct acc as [[ag toxic] g]. unfold SEIZSM.send_one. cbv zeta.
  cbn [SEIZSM.state SEIZSM.profile SEIZSM.toxic_messages
       SEIZSM.activity_level].
  destruct (SEIZSM.state (ag sender));
    try (simpl; apply incl_appl, incl_refl).
  destruct (SEIZSM.T mo <=? _)%float; [|simpl; apply incl_appl, incl_refl].
  destruct (SEIZSM.moderator_intervention mo _ g) as [a g1]. simpl.
  apply incl_refl.
Qed.

Lemma send_messages_ok (g : G) :
  exists mo' toxic_senders g',
    SEIZSM.send_messages mo g = Ok (mo', toxic_senders, g') /\
    SEIZSM.sm_graph mo' = SEIZSM.sm_graph mo /\
    SEIZSM.n mo' = SEIZSM.n mo /\
    keeps_skeptics (SEIZSM.agents mo) (SEIZSM.agents mo') /\
    incl toxic_senders (nodes (SEIZSM.sm_graph mo)).
Proof.
  unfold SEIZSM.send_messages, sample.
  set (ns := nodes (SEIZSM.sm_graph mo)).
  assert (Hb : (Z.min (SEIZSM.n mo) (Z.of_nat (length ns)) <? 0) ||
               (Z.of_nat (length ns) <?
                Z.min (SEIZSM.n mo) (Z.of_nat (length ns))) = false).
  { apply orb_false_iff. split; apply Z.ltb_ge; lia. }
  rewrite Hb.
  pose proof (rng_sample_incl ns
                (Z.to_nat (Z.min (SEIZSM.n mo) (Z.of_nat (length ns)))) g)
    as Hincl.
  destruct (rng_sample ns _ g) as [senders g1]. simpl fst in Hincl.
  simpl bind.
  pose proof (fold_left_inv
    (fun a => keeps_skeptics (SEIZSM.agents mo) (fst (fst a)) /\
              incl (snd (fst a)) ns)
    (SEIZSM.send_one mo) senders) as Hinv.
  specialize (Hinv (fun a x Hx Ha =>
    conj (keeps_trans _ _ _ (proj1 Ha) (send_one_keeps mo a x))
         (incl_tran (send_one_toxic a x)
            (incl_app (proj2 Ha) (incl_cons (Hincl x Hx) (incl_nil_l ns)))))
    (SEIZSM.agents mo, [], g1)
    (conj (keeps_refl _) (incl_nil_l ns))).
  destruct (fold_left (SEIZSM.send_one mo) senders (SEIZSM.agents mo, [], g1))
    as [[ag toxic] g2]. simpl in Hinv.
  exists (SEIZSM.with_agents mo ag), toxic, g2.
  repeat split; try reflexivity; apply Hinv.
Qed.

Hypothesis Hgr : wf_graph (SEIZSM.sm_graph mo).

Lemma spread_toxicity_ok (toxic_senders : list node) (g : G) :
  incl toxic_senders (nodes (SEIZSM.sm_graph mo)) ->
  exists mo' g',
    SEIZSM.spread_toxicity mo toxic_senders g = Ok (mo', g') /\
    SEIZSM.sm_graph mo' = SEIZSM.sm_graph mo /\
    SEIZSM.n mo' = SEIZSM.n mo /\
    keeps_skeptics (SEIZSM.agents mo) (SEIZSM.agents mo').
Proof.
  intros Hincl. unfold SEIZSM.spread_toxicity.
  destruct (foldM_inv
    (fun a => keeps_skeptics (SEIZSM.agents mo) (fst a))
    (fun acc sender =>
       ns <- neighbors (SEIZSM.sm_graph mo) sender ;;
       Ok (fold_left (SEIZSM.spread_one mo) ns acc))
    toxic_senders) with (a := (SEIZSM.agents mo, g))
    as ([ag g1] & -> & Hk).
  - intros a sender Hs Ha.
    assert (Hns : exists ns, neighbors (SEIZSM.sm_graph mo) sender = Ok ns).
    { apply Hincl, get_In_keys in Hs. unfold neighbors.
      destruct (Py.get (SEIZSM.sm_graph mo) sender) as [ns|];
        [now exists ns | congruence]. }
    destruct Hns as (ns & ->). simpl bind. eexists. split; [reflexivity|].
    apply (fold_left_inv
             (fun a => keeps_skeptics (SEIZSM.agents mo) (fst a))); [|exact Ha].
    intros b x _ Hb. eapply keeps_trans; [exact Hb|].
    apply spread_one_keeps.
  - apply keeps_refl.
  - simpl. exists (SEIZSM.with_agents mo ag), g1. repeat split. exact Hk.
Qed.

Lemma internal_transitions_keeps (g : G) :
  keeps_skeptics (SEIZSM.agents mo)
                 (SEIZSM.agents (fst (SEIZSM.internal_transitions mo g))).
Proof.
  unfold SEIZSM.internal_transitions.
  pose proof (fold_left_inv
    (fun a => keeps_skeptics (SEIZSM.agents mo) (fst a))
    (SEIZSM.internal_one mo) (nodes (SEIZSM.sm_graph mo))) as Hinv.
  specialize (Hinv (fun a x _ Ha =>
    keeps_trans _ _ _ Ha (internal_one_keeps mo a x))
    (SEIZSM.agents mo, g) (keeps_refl _)).
  destruct (fold_left _ _ _) as [ag g1]. exact Hinv.
Qed.
End SmartStepOk.

Section SmartStepWhole.
Context {G : Type} `{RandomGen G}.

(** The step returns, keeps the graph and [n], and every skeptic stays
    one. *)
Lemma sm_step_ok (mo : SEIZSM.SEIZSMModel) (g : G) :
  wf_graph (SEIZSM.sm_graph mo) -> 0 <= SEIZSM.n mo ->
  exists mo' g',
    SEIZSM.sm_step mo g = Ok (mo', g') /\
    SEIZSM.sm_graph mo' = SEIZSM.sm_graph mo /\
    SEIZSM.n mo' = SEIZSM.n mo /\
    keeps_skeptics (SEIZSM.agents mo) (SEIZSM.agents mo').
Proof.
  intros Hgr Hn. unfold SEIZSM.sm_step.
  destruct (send_messages_ok mo Hn g)
    as (mo1 & toxic & g1 & -> & Hg1 & Hn1 & Hk1 & Hincl).
  simpl bind.
  destruct (spread_toxicity_ok mo1 toxic g1) as (mo2 & g2 & -> & Hg2 & Hn2 & Hk2).
  { now rewrite Hg1. }
  simpl bind.
  pose proof (internal_transitions_keeps mo2 g2) as Hk3.
  destruct (SEIZSM.internal_transitions mo2 g2) as [mo3 g3] eqn:Hit.
  exists mo3, g3. split; [reflexivity|].
  assert (Hg3 : SEIZSM.sm_graph mo3 = SEIZSM.sm_graph mo2 /\
                SEIZSM.n mo3 = SEIZSM.n mo2).
  { unfold SEIZSM.internal_transitions in Hit.
    destruct (fold_left _ _ _) as [ag g'] in Hit.
    injection Hit as <- _. now split. }
  destruct Hg3 as [Hg3 Hn3]. simpl in Hk3.
  repeat split; try congruence.
  eapply keeps_trans; [exact Hk1|]. eapply keeps_trans; [exact Hk2 | exact Hk3].
Qed.
End SmartStepWhole.

(* ================================================================== *)
(** * One step of any variant                                          *)
(* ================================================================== *)

Lemma get_table ks f u :
  Py.get (table ks f) u = if in_dec Nat.eq_dec u ks then Some (f u) else None.
Proof.
  induction ks as [|k ks IH]; simpl; [reflexivity|].
  destruct (Nat.eqb_spec u k) as [->|Hn].
  - destruct (Nat.eq_dec k k); [reflexivity | congruence].
  - rewrite IH. destruct (Nat.eq_dec k u); [congruence|].
    destruct (in_dec Nat.eq_dec u ks); reflexivity.
Qed.

Section StepVariant.
Context {G : Type} `{RandomGen G}.

Lemma get_states_get (v : Variant) u s :
  well_formed v ->
  (Py.get (get_states v) u = Some s <->
   In u (nodes (graph v)) /\ state_of v u = s).
Proof.
  intros Hwf. rewrite (get_states_table v Hwf), get_table.
  destruct (in_dec Nat.eq_dec u (nodes (graph v))); split.
  - intros [= <-]. now split.
  - intros [_ <-]. reflexivity.
  - discriminate.
  - intros [Hin _]. contradiction.
Qed.

(** On a well-formed model [step] returns a well-formed model over the
    same graph, in which every skeptic node is still skeptic. *)
Lemma step_ok (v : Variant) (g : G) :
  well_formed v ->
  exists v' g',
    step v g = Ok (v', g') /\ graph v' = graph v /\ well_formed v' /\
    forall u, In u (nodes (graph v)) ->
              state_of v u = Skeptic -> state_of v' u = Skeptic.
Proof.
  intros Hwf. destruct v as [m|m|m].
  - destruct (baseline_step_spec m g Hwf)
      as (proposals & g1 & m' & g' & _ & Hs & Hg & Hk & Hget).
    exists (Baseline m'), g'. cbn [step Variant_model lift fmap].
    change (step m g) with (SEIZ.seiz_step m g). rewrite Hs.
    split; [reflexivity|]. split; [exact Hg|]. split.
    { destruct Hwf as [Hgr Hkm]. split; simpl; rewrite Hg; [exact Hgr|].
      now rewrite Hk. }
    intros u Hu Hz. simpl in Hu, Hz |- *. specialize (Hget u).
    destruct Hwf as [_ Hkm]. rewrite <- Hkm in Hu. apply get_In_keys in Hu.
    destruct (Py.get (SEIZ.states m) u) as [s|] eqn:Hs0; [|congruence].
    subst s. destruct (Py.get proposals u) as [plist|].
    + destruct Hget as (Hj & _ & _ & chosen & _ & Hin & _).
      rewrite Forall_forall in Hj. specialize (Hj chosen Hin).
      destruct Hj as [[Hc _]|[[Hc _]|[Hc _]]]; congruence.
    + now rewrite Hget.
  - destruct (bm_step_ok m g) as (m' & g' & Hs & Hg & Hz).
    exists (BasicModerator m'), g'. cbn [step Variant_model lift fmap].
    change (step m g) with (SEIZBM.bm_step m g). rewrite Hs.
    split; [reflexivity|]. split; [exact Hg|]. split.
    { simpl in *. now rewrite Hg. }
    intros u _ Hu. simpl in *. now rewrite Hz.
  - destruct Hwf as [Hgr Hn].
    destruct (sm_step_ok m g Hgr Hn) as (m' & g' & Hs & Hg & Hn' & Hz).
    exists (SmartModerator m'), g'. cbn [step Variant_model lift fmap].
    change (step m g) with (SEIZSM.sm_step m g). rewrite Hs.
    split; [reflexivity|]. split; [exact Hg|]. split.
    { simpl. now rewrite Hg, Hn'. }
    intros u _ Hu. simpl in *. now apply Hz.
Qed.

(** [k] steps in a row. *)
Lemma steps_ok (k : nat) : forall (v : Variant) (g : G),
  well_formed v ->
  exists v' g',
    steps k v g = Ok (v', g') /\ graph v' = graph v /\ well_formed v' /\
    forall u, In u (nodes (graph v)) ->
              state_of v u = Skeptic -> state_of v' u = Skeptic.
Proof.
  induction k as [|k IH]; intros v g Hwf.
  - exists v, g. simpl. auto.
  - destruct (step_ok v g Hwf) as (v1 & g1 & Hs & Hg1 & Hw1 & Hz1).
    destruct (IH v1 g1 Hw1) as (v2 & g2 & Hs2 & Hg2 & Hw2 & Hz2).
    exists v2, g2. cbn [steps]. rewrite Hs. simpl bind.
    split; [exact Hs2|]. split; [congruence|]. split; [exact Hw2|].
    intros u Hu Hz. apply Hz2; [now rewrite Hg1 | now apply Hz1].
Qed.

(** C10 (the skeptic state is absorbing).  In each of the three variants,
    on a well-formed model, any number [k] of calls of [step] returns, and
    every node that [get_states] reports as ["Z"] before them is reported
    as ["Z"] after them: no step changes the state of a skeptic node, so
    the set of skeptic nodes never shrinks between two calls of
    [initialize_states]. *)
Theorem skeptic_is_absorbing (v : Variant) (g : G) (k : nat) :
  well_formed v ->
  exists v' g',
    steps k v g = Ok (v', g') /\
    forall u, Py.get (get_states v) u = Some Skeptic ->
              Py.get (get_states v') u = Some Skeptic.
Proof.
  intros Hwf. destruct (steps_ok k v g Hwf) as (v' & g' & Hs & Hg & Hw & Hz).
  exists v', g'. split; [exact Hs|]. intros u Hu.
  apply (get_states_get v u Skeptic Hwf) in Hu as [Hin Hst].
  apply (get_states_get v' u Skeptic Hw). rewrite Hg.
  split; [exact Hin | now apply Hz].
Qed.
End StepVariant.

(* ================================================================== *)
(** * [run]                                                            *)
(* ================================================================== *)

Section Run.
Context {G : Type} `{RandomGen G} {M : Type} `{EpidemicModel (G:=G) M}.
Variable P : M -> Prop.
Hypothesis step_P :
  forall m g, P m -> exists m' g', step m g = Ok (m', g') /\ P m'.

Lemma steps_P (k : nat) : forall m g,
  P m -> exists m' g', steps k m g = Ok (m', g') /\ P m'.
Proof.
  induction k as [|k IH]; intros m g Hm.
  - now exists m, g.
  - destruct (step_P m g Hm) as (m1 & g1 & Hs & H1).
    destruct (IH m1 g1 H1) as (m2 & g2 & Hs2 & H2).
    exists m2, g2. cbn [steps]. rewrite Hs. simpl bind. now split.
Qed.

(** The loop of [run] from index [lo], [j] rounds: it appends the [j]
    snapshots taken before each transition and leaves the model [j] steps
    on. *)
Lemma run_loop (j : nat) : forall (lo : BinNums.Z) (o : Model M) (g : G),
  P (self o) ->
  exists o' g',
    foldM run_body (range lo (lo + Z.of_nat j)) (o, g) = Ok (o', g') /\
    steps j (self o) g = Ok (self o', g') /\ P (self o') /\
    length (history o') = (length (history o) + j)%nat /\
    (forall i, (i < length (history o))%nat ->
       nth_error (history o') i = nth_error (history o) i) /\
    (forall i, (i < j)%nat ->
       exists m_i g_i,
         steps i (self o) g = Ok (m_i, g_i) /\
         nth_error (history o') (length (history o) + i) =
         Some (snapshot m_i (lo + Z.of_nat i))).
Proof.
  induction j as [|j IH]; intros lo o g Ho.
  - rewrite range_nil by lia. exists o, g.
    split; [reflexivity|]. split; [reflexivity|]. split; [exact Ho|].
    split; [lia|]. split; [reflexivity|]. intros i Hi. lia.
  - rewrite range_cons by lia. cbn [foldM]. unfold run_body at 1.
    cbn [self history current_step].
    destruct (step_P (self o) g Ho) as (m1 & g1 & Hs & H1).
    rewrite Hs. simpl bind.
    set (o1 := mkModel m1 (history o ++ [snapshot (self o) lo]) lo).
    destruct (IH (lo + 1) o1 g1 H1)
      as (o' & g' & Hf & Hst & HP & Hlen & Hold & Hnew).
    replace (lo + 1 + Z.of_nat j) with (lo + Z.of_nat (Datatypes.S j)) in Hf
      by lia.
    exists o', g'. split; [exact Hf|]. split.
    { cbn [steps]. rewrite Hs. exact Hst. }
    split; [exact HP|]. unfold o1 in Hlen, Hold, Hnew.
    cbn [history self] in Hlen, Hold, Hnew.
    rewrite length_app in Hlen, Hold, Hnew. simpl length in Hlen, Hold, Hnew.
    split; [lia|]. split.
    { intros i Hi. rewrite Hold by lia. apply nth_error_app1. exact Hi. }
    intros [|i] Hi.
    + exists (self o), g. split; [reflexivity|].
      rewrite Nat.add_0_r, Hold by lia.
      rewrite nth_error_app2, Nat.sub_diag by lia. simpl.
      now rewrite Z.add_0_r.
    + destruct (Hnew i) as (m_i & g_i & Hsi & Hn); [lia|].
      exists m_i, g_i. split.
      { cbn [steps]. rewrite Hs. exact Hsi. }
      replace (length (history o) + Datatypes.S i)%nat
        with (length (history o) + 1 + i)%nat by lia.
      rewrite Hn. f_equal. f_equal. lia.
Qed.

(** [run]: the history starts empty whatever it held, and ends with the
    snapshot taken after the last step. *)
Lemma run_spec (o : Model M) (k : BinNums.Z) (g : G) :
  P (self o) -> 0 <= k ->
  exists h o' g',
    run o k g = Ok (h, o', g') /\ history o' = h /\
    steps (Z.to_nat k) (self o) g = Ok (self o', g') /\
    Z.of_nat (length h) = k + 1 /\
    forall i, 0 <= i <= k ->
      exists m_i g_i,
        steps (Z.to_nat i) (self o) g = Ok (m_i, g_i) /\ P m_i /\
        nth_error h (Z.to_nat i) = Some (snapshot m_i i).
Proof.
  intros Ho Hk. unfold run. cbn [self history current_step].
  destruct (run_loop (Z.to_nat k) 0 (mkModel (self o) [] (current_step o)) g Ho)
    as (o1 & g1 & Hf & Hst & HP & Hlen & _ & Hnew).
  rewrite Z.add_0_l, Z2Nat.id in Hf by lia. rewrite Hf. simpl bind.
  cbn [self history] in *. simpl length in *.
  eexists _, _, g1. split; [reflexivity|]. cbn [history self].
  split; [reflexivity|]. split; [exact Hst|]. split.
  { rewrite length_app. simpl length. lia. }
  intros i Hi. destruct (Z.eq_dec i k) as [->|Hne].
  - exists (self o1), g1. split; [exact Hst|]. split; [exact HP|].
    rewrite nth_error_app2 by lia.
    replace (Z.to_nat k - length (history o1))%nat with 0%nat by lia.
    reflexivity.
  - destruct (Hnew (Z.to_nat i)) as (m_i & g_i & Hsi & Hn); [lia|].
    exists m_i, g_i. split; [exact Hsi|].
    destruct (steps_P (Z.to_nat i) (self o) g Ho) as (m' & g' & Hs' & HP').
    rewrite Hsi in Hs'. injection Hs' as <- <-. split; [exact HP'|].
    rewrite nth_error_app1 by lia. simpl in Hn. rewrite Hn.
    f_equal. f_equal. lia.
Qed.
End Run.

(* ================================================================== *)
(** * Conservation and the history of a run                            *)
(* ================================================================== *)


Lemma range_nth lo hi (i : nat) :
  (Z.of_nat i < hi - lo) -> nth_error (range lo hi) i = Some (lo + Z.of_nat i).
Proof.
  intros Hi. unfold range.
  rewrite nth_error_map, nth_error_seq.
  destruct (Nat.ltb_spec i (Z.to_nat (hi - lo))); [reflexivity | lia].
Qed.

Section Conservation.
Context {G : Type} `{RandomGen G}.

Lemma population_absent (s : State) (states : dict node State) :
  ~ In s (values states) -> population s states = 0.
Proof.
  intros Hn. unfold population. rewrite filter_none; [reflexivity|].
  intros x Hx. destruct (state_eqb_spec s x) as [->|_]; [|reflexivity].
  contradiction.
Qed.

Lemma census_counts (v : Variant) :
  well_formed v ->
  keys (get_states v) = nodes (graph v) /\
  census (count_states v) (get_states v) (number_of_nodes (graph v)).
Proof.
  intros Hwf. split.
  { rewrite (get_states_table v Hwf). unfold table, keys.
    rewrite map_map. apply map_id. }
  split; [intros s; apply (count_states_get v s)|]. split.
  - intros s Hs. rewrite (count_states_get v s).
    now rewrite population_absent.
  - rewrite population_total, (get_states_table v Hwf).
    unfold table. rewrite length_map. apply length_nodes.
Qed.

Lemma census_snapshot (v : Variant) (i : BinNums.Z) :
  well_formed v ->
  census (snapshot v i) (get_states v) (number_of_nodes (graph v)).
Proof.
  intros Hwf. destruct (census_counts v Hwf) as (_ & Hc & Hz & Hsum).
  split; [|split; [|exact Hsum]].
  - intros s. rewrite (snapshot_get v i s). reflexivity.
  - intros s Hs. rewrite (snapshot_get v i s).
    now rewrite population_absent.
Qed.


Lemma step_over (v : Variant) :
  forall v1 (g : G), over v v1 ->
  exists v2 g', step v1 g = Ok (v2, g') /\ over v v2.
Proof.
  intros v1 g [Hw Hg].
  destruct (step_ok v1 g Hw) as (v2 & g' & Hs & Hg2 & Hw2 & _).
  exists v2, g'. split; [exact Hs|]. split; [exact Hw2 | congruence].
Qed.

(** C2 (the history of a run).  For [steps = k >= 0] on a well-formed
    model, [run] returns.  What it returns, and leaves in [self.history],
    holds nothing of the earlier history: it is a list of [k + 1] records
    whose ["step"] fields are [0, 1, ..., k] in order; record [i] is the
    count of states of the model after [i] transitions, that is before
    transition [i + 1], and the last record is taken after the last
    transition. *)
Theorem run_history (v : Variant) (old_history : list Counts)
    (old_step : BinNums.Z) (k : BinNums.Z) (g : G) :
  well_formed v -> 0 <= k ->
  exists h o' g',
    run (mkModel v old_history old_step) k g = Ok (h, o', g') /\
    history o' = h /\
    Z.of_nat (length h) = k + 1 /\
    map (fun r : Counts => Py.get r "step"%string) h =
    map Some (range 0 (k + 1)) /\
    (forall i, 0 <= i <= k ->
       exists v_i g_i,
         steps (Z.to_nat i) v g = Ok (v_i, g_i) /\
         nth_error h (Z.to_nat i) = Some (snapshot v_i i)) /\
    steps (Z.to_nat k) v g = Ok (self o', g').
Proof.
  intros Hwf Hk.
  destruct (run_spec (over v) (step_over v)
              (mkModel v old_history old_step) k g)
    as (h & o' & g' & Hr & Hh & Hst & Hlen & Hrec);
    [split; [exact Hwf | reflexivity] | exact Hk |].
  cbn [self] in *. exists h, o', g'.
  split; [exact Hr|]. split; [exact Hh|]. split; [exact Hlen|].
  split; [|split; [|exact Hst]].
  - apply nth_error_ext. intros i. rewrite !nth_error_map.
    destruct (Nat.ltb_spec i (length h)) as [Hi|Hi].
    + destruct (Hrec (Z.of_nat i)) as (v_i & g_i & _ & _ & Hn); [lia|].
      rewrite Nat2Z.id in Hn. rewrite Hn, range_nth by lia. simpl.
      now rewrite snapshot_step.
    + rewrite (proj2 (nth_error_None h i)) by lia.
      rewrite (proj2 (nth_error_None (range 0 (k + 1)) i));
        [reflexivity | rewrite range_length; lia].
  - intros i Hi. destruct (Hrec i Hi) as (v_i & g_i & Hs & _ & Hn).
    now exists v_i, g_i.
Qed.

(** C1 (conservation).  For a well-formed model of any variant over a
    graph of [n] nodes, [get_states] has one entry for each node and
    [count_states] is its census: under each of the four keys ["S"],
    ["E"], ["I"], ["Z"] stands the number of nodes in that state, 0 for a
    state no node is in, and the four counts sum to [n].  The same holds
    after any call of [initialize_states] that returns and after [step],
    which returns; and record [i] of the history of a run is the census of
    the model after [i] steps. *)
Theorem counts_are_conserved (v : Variant) :
  let n := number_of_nodes (graph v) in
  well_formed v ->
  (keys (get_states v) = nodes (graph v) /\
   census (count_states v) (get_states v) n) /\
  (forall infected_frac skeptic_frac seed (g : G) v' g',
     initialize_states v infected_frac skeptic_frac seed g = Ok (v', g') ->
     well_formed v' /\ keys (get_states v') = nodes (graph v) /\
     census (count_states v') (get_states v') n) /\
  (forall g : G, exists v' g',
     step v g = Ok (v', g') /\ well_formed v' /\
     keys (get_states v') = nodes (graph v) /\
     census (count_states v') (get_states v') n) /\
  (forall old_history old_step k (g : G), 0 <= k ->
     exists h o' g',
       run (mkModel v old_history old_step) k g = Ok (h, o', g') /\
       Z.of_nat (length h) = k + 1 /\
       forall i, 0 <= i <= k ->
         exists v_i g_i r,
           steps (Z.to_nat i) v g = Ok (v_i, g_i) /\
           nth_error h (Z.to_nat i) = Some r /\
           keys (get_states v_i) = nodes (graph v) /\
           census r (get_states v_i) n).
Proof.
  intros n Hwf. split; [now apply census_counts|]. split; [|split].
  - intros fi fz seed g v' g' Hok.
    pose proof (init_plan v fi fz seed g Hwf) as Hp. rewrite Hok in Hp.
    destruct (plan _ _ _ _) as [f'|e]; [|destruct Hp].
    destruct Hp as (_ & Hg & Hw). cbn [fst] in *. split; [exact Hw|].
    unfold n. rewrite <- Hg. now apply census_counts.
  - intros g. destruct (step_ok v g Hwf) as (v' & g' & Hs & Hg & Hw & _).
    exists v', g'. split; [exact Hs|]. split; [exact Hw|].
    unfold n. rewrite <- Hg. now apply census_counts.
  - intros old_history old_step k g Hk.
    destruct (run_spec (over v) (step_over v)
                (mkModel v old_history old_step) k g)
      as (h & o' & g' & Hr & _ & _ & Hlen & Hrec);
      [split; [exact Hwf | reflexivity] | exact Hk |].
    exists h, o', g'. split; [exact Hr|]. split; [exact Hlen|].
    intros i Hi. cbn [self] in Hrec.
    destruct (Hrec i Hi) as (v_i & g_i & Hs & [Hw Hg] & Hn).
    exists v_i, g_i, (snapshot v_i i). split; [exact Hs|].
    split; [exact Hn|]. unfold n. rewrite <- Hg.
    split; [apply (census_counts v_i Hw) | now apply census_snapshot].
Qed.
End Conservation.

Lemma skeptic_is_absorbing_witness :
  let v := SmartModerator Examples.smart10_mixed in
  exists v' g',
    steps 4 v (Lcg.seed 9) = Ok (v', g') /\
    forall u, Py.get (get_states v) u = Some Skeptic ->
              Py.get (get_states v') u = Some Skeptic.
Proof.
  apply (skeptic_is_absorbing (SmartModerator Examples.smart10_mixed)
           (Lcg.seed 9) 4).
  split; [exact (check_graph_ok (path 10) eq_refl) | discriminate].
Defined.

(** Four steps of each variant from the mixed configuration: the states
    of the skeptic nodes 0, 1, 2 before and after. *)
Example skeptics_after_four_steps :
  let skeptics (v : Variant) :=
    map (fun u => Py.get (get_states v) u) [0; 1; 2]%nat in
  map (fun v =>
         fmap (fun r => skeptics (fst r)) (steps 4 v (Lcg.seed 9)))
      [Baseline Examples.baseline10_mixed;
       BasicModerator Examples.basic10_mixed;
       SmartModerator Examples.smart10_mixed] =
  [Ok [Some Skeptic; Some Skeptic; Some Skeptic];
   Ok [Some Skeptic; Some Skeptic; Some Skeptic];
   Ok [Some Skeptic; Some Skeptic; Some Skeptic]].
Proof. vm_compute. reflexivity. Qed.

Lemma run_history_witness :
  let v := SmartModerator Examples.smart10_mixed in
  let stale : list Counts := [[("step"%string, 99)]] in
  exists h o' g',
    run (mkModel v stale 7) 3 (Lcg.seed 5) = Ok (h, o', g') /\
    history o' = h /\
    Z.of_nat (length h) = 3 + 1 /\
    map (fun r : Counts => Py.get r "step"%string) h =
    map Some (range 0 (3 + 1)) /\
    (forall i, 0 <= i <= 3 ->
       exists v_i g_i,
         steps (Z.to_nat i) v (Lcg.seed 5) = Ok (v_i, g_i) /\
         nth_error h (Z.to_nat i) = Some (snapshot v_i i)) /\
    steps (Z.to_nat 3) v (Lcg.seed 5) = Ok (self o', g').
Proof.
  apply (run_history (SmartModerator Examples.smart10_mixed)
           [[("step"%string, 99)]] 7 3 (Lcg.seed 5)).
  - split; [exact (check_graph_ok (path 10) eq_refl) | discriminate].
  - lia.
Defined.

(** A run of three steps of the baseline from the mixed configuration. *)
Example run_three_steps :
  fmap (fun r => fst (fst r))
       (run (mkModel (Baseline Examples.baseline10_mixed)
                     [[("step"%string, 99)]] 7) 3 (Lcg.seed 5)) =
  Ok [[("Z", 3); ("I", 3); ("E", 2); ("S", 2); ("step", 0)];
      [("Z", 3); ("I", 3); ("E", 2); ("S", 2); ("step", 1)];
      [("Z", 3); ("I", 3); ("E", 2); ("S", 2); ("step", 2)];
      [("Z", 3); ("I", 3); ("E", 2); ("S", 2); ("step", 3)]]%string.
Proof. vm_compute. reflexivity. Qed.

Lemma counts_are_conserved_witness :
  let v := Baseline Examples.baseline10_mixed in
  (keys (get_states v) = nodes (graph v) /\
   census (count_states v) (get_states v) 10) /\
  (forall infected_frac skeptic_frac seed (g : BinNums.Z) v' g',
     initialize_states v infected_frac skeptic_frac seed g = Ok (v', g') ->
     well_formed v' /\ keys (get_states v') = nodes (graph v) /\
     census (count_states v') (get_states v') 10) /\
  (forall g : BinNums.Z, exists v' g',
     step v g = Ok (v', g') /\ well_formed v' /\
     keys (get_states v') = nodes (graph v) /\
     census (count_states v') (get_states v') 10) /\
  (forall old_history old_step k (g : BinNums.Z), 0 <= k ->
     exists h o' g',
       run (mkModel v old_history old_step) k g = Ok (h, o', g') /\
       Z.of_nat (length h) = k + 1 /\
       forall i, 0 <= i <= k ->
         exists v_i g_i r,
           steps (Z.to_nat i) v g = Ok (v_i, g_i) /\
           nth_error h (Z.to_nat i) = Some r /\
           keys (get_states v_i) = nodes (graph v) /\
           census r (get_states v_i) 10).
Proof.
  apply (counts_are_conserved (Baseline Examples.baseline10_mixed)).
  split; [exact (check_graph_ok (path 10) eq_refl) | reflexivity].
Defined.

(** The census of the mixed configuration: two susceptible, two exposed,
    three infected and three skeptic nodes. *)
Example census_of_mixed :
  map (fun s => Py.get (count_states (Baseline Examples.baseline10_mixed))
                       (state_name s)) all_states =
  [Some 2; Some 2; Some 3; Some 3].
Proof. vm_compute. reflexivity. Qed.

(* ================================================================== *)
(** * Export and plot before any run                                   *)
(* ================================================================== *)

Section Exports.
Context {G : Type} `{RandomGen G} {M : Type} `{EpidemicModel (G:=G) M}.

(** C6, as the code has it.  With an empty history, [plot] and
    [save_plot] raise [ValueError("No history to plot. Run the simulation
    first.")] and draw nothing; [to_json] and [save_json] make no such
    check: they return, and write, a document whose ["history"] is the
    empty list. *)
Theorem exports_on_empty_history (o : Model M) (title : option string)
    (filepath : string) (plots : dict string PlotData)
    (files : dict string JsonOutput) :
  history o = [] ->
  plot o title = Raise no_history /\
  save_plot o filepath title plots = Raise no_history /\
  exists out,
    to_json o = Ok out /\ json_history out = [] /\
    model_type out = class_name /\ parameters out = params (self o) /\
    save_json o filepath files = Ok (Py.set files filepath out).
Proof.
  intros Hh. unfold plot, save_plot, plot_series, save_json, to_json.
  rewrite Hh. repeat split. eexists. repeat split.
Qed.
End Exports.

(** C6, counterexample.  A model that never ran: [to_json] and
    [save_json] do not fail, they produce a document with an empty
    history. *)
Lemma to_json_before_run_returns :
  history Examples.basic10 = [] /\
  fmap json_history (to_json Examples.basic10) = Ok [] /\
  is_ok (save_json Examples.basic10 "results.json" []) = true.
Proof. vm_compute. repeat split; reflexivity. Qed.

Lemma exports_on_empty_history_witness :
  let o := Examples.basic10 in
  plot o None = Raise no_history /\
  save_plot o "plot.png" None [] = Raise no_history /\
  exists out,
    to_json o = Ok out /\ json_history out = [] /\
    model_type out = class_name (M:=SEIZBM.SEIZBMModel) /\
    parameters out = params (self o) /\
    save_json o "plot.png" [] = Ok (Py.set [] "plot.png"%string out).
Proof.
  apply (exports_on_empty_history Examples.basic10 None "plot.png" [] []).
  reflexivity.
Defined.

(* ================================================================== *)
(** * Moderator intervention                                           *)
(* ================================================================== *)

Section Moderator.
Context {G : Type} `{RandomGen G}.

(** C9 (smart moderator).  Below the threshold [theta] the agent is left
    as it is and nothing is drawn.  At or above it, with
    [effective_eta = eta * (1 - toxicity)], toxicity being the mean of the
    three traits: a first draw [u1] below [effective_eta] moves the agent
    to Exposed and resets its counter, and no second draw is made;
    otherwise a second draw [u2], from the generator as the first draw
    left it, below [lambd] moves the agent to Skeptic and resets its
    counter; otherwise the agent is left as it is.  Profile and activity
    level are kept throughout. *)
Theorem moderator_intervention_rule (mo : SEIZSM.SEIZSMModel)
    (a : SEIZSM.Agent) (g : G) :
  let toxicity := SEIZSM.compute_toxicity a in
  let effective_eta := (SEIZSM.eta mo * (1 - toxicity))%float in
  let u1 := fst (rng_random g) in
  let g1 := snd (rng_random g) in
  let u2 := fst (rng_random g1) in
  let g2 := snd (rng_random g1) in
  let reset s :=
    SEIZSM.mkAgent s (SEIZSM.profile a) 0 (SEIZSM.activity_level a) in
  (SEIZSM.toxic_messages a < SEIZSM.theta mo ->
   SEIZSM.moderator_intervention mo a g = (a, g)) /\
  (SEIZSM.theta mo <= SEIZSM.toxic_messages a ->
   ((u1 <? effective_eta)%float = true ->
    SEIZSM.moderator_intervention mo a g = (reset Exposed, g1)) /\
   ((u1 <? effective_eta)%float = false ->
    ((u2 <? SEIZSM.lambd mo)%float = true ->
     SEIZSM.moderator_intervention mo a g = (reset Skeptic, g2)) /\
    ((u2 <? SEIZSM.lambd mo)%float = false ->
     SEIZSM.moderator_intervention mo a g = (a, g2)))).
Proof.
  intros toxicity effective_eta u1 g1 u2 g2 reset.
  unfold SEIZSM.moderator_intervention.
  subst toxicity effective_eta u1 g1 u2 g2 reset.
  unfold SEIZSM.compute_toxicity.
  split; intros Hth.
  - replace (SEIZSM.theta mo <=? SEIZSM.toxic_messages a) with false by lia.
    reflexivity.
  - replace (SEIZSM.theta mo <=? SEIZSM.toxic_messages a) with true by lia.
    destruct (rng_random g) as [u1 g1]. cbn [fst snd].
    split; intros H1; rewrite H1; [reflexivity|].
    destruct (rng_random g1) as [u2 g2]. cbn [fst snd].
    split; intros H2; rewrite H2; reflexivity.
Qed.

(** In [send_messages] the intervention is reached only for a sender that
    is infected and whose toxicity is at least [T], after its toxic
    message counter went up by one. *)
Lemma send_one_intervenes (mo : SEIZSM.SEIZSMModel) ag toxic (g : G) sender :
  let a := ag sender in
  let sent :=
    SEIZSM.mkAgent (SEIZSM.state a) (SEIZSM.profile a)
                   (SEIZSM.toxic_messages a) (SEIZSM.activity_level a + 1) in
  let counted :=
    SEIZSM.mkAgent (SEIZSM.state a) (SEIZSM.profile a)
                   (SEIZSM.toxic_messages a + 1)
                   (SEIZSM.activity_level a + 1) in
  SEIZSM.send_one mo (ag, toxic, g) sender =
  if state_eqb (SEIZSM.state a) Infected &&
     (SEIZSM.T mo <=? SEIZSM.compute_toxicity a)%float
  then let '(a', g') := SEIZSM.moderator_intervention mo counted g in
       (upd ag sender a', toxic ++ [sender], g')
  else (upd ag sender sent, toxic, g).
Proof.
  intros a sent counted. unfold SEIZSM.send_one. subst a sent counted.
  cbv zeta. cbn [SEIZSM.state SEIZSM.profile SEIZSM.toxic_messages
                 SEIZSM.activity_level].
  unfold SEIZSM.compute_toxicity. cbn [SEIZSM.profile].
  destruct (SEIZSM.state (ag sender)); cbn [state_eqb andb]; try reflexivity;
    try (destruct (SEIZSM.T mo <=? _)%float; reflexivity).
Qed.
End Moderator.

(** The three outcomes on an agent at the threshold, with the draws of
    [Lcg] from the seeds 17, 10 and 1, and an agent below it. *)
Example moderator_intervention_runs :
  let mo := Examples.smart10_mixed in
  let a := SEIZSM.mkAgent Infected [0.9; 0.8; 0.7]%float 3 5 in
  map (fun k => SEIZSM.state (fst (SEIZSM.moderator_intervention mo a
                                     (Lcg.seed k))))
      [17; 10; 1] = [Exposed; Skeptic; Infected] /\
  SEIZSM.moderator_intervention mo
    (SEIZSM.mkAgent Infected [0.9; 0.8; 0.7]%float 2 5) (Lcg.seed 2) =
  (SEIZSM.mkAgent Infected [0.9; 0.8; 0.7]%float 2 5, Lcg.seed 2).
Proof. vm_compute. split; reflexivity. Qed.

(* ================================================================== *)
(** * Binary64: shifts and rounding                                    *)
(* ================================================================== *)

Lemma shr_1_half (r : shr_record) :
  0 <= shr_m r -> shr_m (shr_1 r) = shr_m r / 2.
Proof.
  destruct r as [m b s]. cbn [shr_m]. intros Hm. unfold shr_1.
  destruct m as [|[p|p|]|p]; cbn [shr_m].
  - reflexivity.
  - apply Z.div_unique with (r := 1); lia.
  - apply Z.div_unique with (r := 0); lia.
  - reflexivity.
  - lia.
Qed.

Lemma shr_iter_div (n : positive) : forall r : shr_record,
  0 <= shr_m r -> shr_m (iter_pos shr_1 n r) = shr_m r / 2 ^ Z.pos n.
Proof.
  induction n as [n IH|n IH|]; intros r Hr; cbn [iter_pos].
  - assert (H1 : 0 <= shr_m (shr_1 r)).
    { rewrite shr_1_half by exact Hr. apply Z.div_pos; lia. }
    assert (H2 : 0 <= shr_m (iter_pos shr_1 n (shr_1 r))).
    { rewrite IH by exact H1. apply Z.div_pos; [exact H1|].
      apply Z.pow_pos_nonneg; lia. }
    rewrite IH, IH, shr_1_half by assumption.
    rewrite !Z.div_div by (try apply Z.pow_pos_nonneg; lia).
    f_equal.
    replace (Z.pos n~1) with (1 + Z.pos n + Z.pos n) by lia.
    rewrite (Z.pow_add_r 2 (1 + Z.pos n) (Z.pos n)) by lia.
    rewrite (Z.pow_add_r 2 1 (Z.pos n)) by lia. lia.
  - assert (H2 : 0 <= shr_m (iter_pos shr_1 n r)).
    { rewrite IH by exact Hr. apply Z.div_pos; [exact Hr|].
      apply Z.pow_pos_nonneg; lia. }
    rewrite IH, IH by assumption.
    rewrite !Z.div_div by (try apply Z.pow_pos_nonneg; lia).
    f_equal.
    replace (Z.pos n~0) with (Z.pos n + Z.pos n) by lia.
    rewrite (Z.pow_add_r 2 (Z.pos n) (Z.pos n)) by lia. lia.
  - rewrite shr_1_half by exact Hr. reflexivity.
Qed.

Lemma shr_div (r : shr_record) (e n : Z) :
  0 <= shr_m r ->
  (n <= 0 -> shr r e n = (r, e)) /\
  (0 < n -> shr_m (fst (shr r e n)) = shr_m r / 2 ^ n /\
            snd (shr r e n) = e + n).
Proof.
  intros Hr. unfold shr. destruct n as [|n|n]; split; intros Hn; try lia;
    try reflexivity.
  cbn [fst snd]. split; [now apply shr_iter_div | reflexivity].
Qed.

Lemma round_nearest_even_bounds (m : Z) (l : location) :
  m <= round_nearest_even m l <= m + 1.
Proof.
  unfold round_nearest_even. destruct l as [|[| |]]; try lia.
  destruct (Z.even m); lia.
Qed.

(** The mantissa left by a shift is not negative. *)
Lemma shr_fexp_not_negative (m e : Z) (l : location) :
  0 <= m -> 0 <= shr_m (fst (shr_fexp prec emax m e l)).
Proof.
  intros Hm. unfold shr_fexp.
  set (n := fexp prec emax (Zdigits2 m + e) - e).
  assert (Hr : 0 <= shr_m (shr_record_of_loc m l)).
  { destruct l as [|[| |]]; exact Hm. }
  destruct (shr_div (shr_record_of_loc m l) e n Hr) as [Hneg Hpos].
  destruct (Z_le_gt_dec n 0) as [Hn|Hn].
  - rewrite Hneg by exact Hn. exact Hr.
  - destruct Hpos as [Hdiv _]; [lia|]. rewrite Hdiv.
    apply Z.div_pos; [exact Hr | apply Z.pow_pos_nonneg; lia].
Qed.

(** Rounding a mantissa that is not negative never gives a NaN. *)
Lemma round_aux_not_nan sx mx ex lx :
  0 <= mx -> binary_round_aux prec emax sx mx ex lx <> S754_nan.
Proof.
  intros Hm. unfold binary_round_aux.
  pose proof (shr_fexp_not_negative mx ex lx Hm) as H1.
  destruct (shr_fexp prec emax mx ex lx) as [mrs' e']. cbn [fst] in H1.
  pose proof (round_nearest_even_bounds (shr_m mrs') (loc_of_shr_record mrs'))
    as [Hlo _].
  assert (H2 : 0 <= shr_m (fst (shr_fexp prec emax
                  (round_nearest_even (shr_m mrs') (loc_of_shr_record mrs'))
                  e' loc_Exact))) by (apply shr_fexp_not_negative; lia).
  destruct (shr_fexp prec emax _ e' loc_Exact) as [mrs'' e''].
  cbn [fst] in H2.
  destruct (shr_m mrs'') as [|q|q]; [discriminate | | lia].
  destruct (e'' <=? emax - prec); discriminate.
Qed.

(** [-rate * dt <= 0] for a rate that is not negative and a finite
    positive step. *)
Lemma neg_rate_dt_not_positive (rate dt : float) :
  (0 <=? rate)%float = true -> (0 <? dt)%float = true ->
  (dt <? infinity)%float = true ->
  (- rate * dt <=? 0)%float = true.
Proof.
  rewrite !FloatAxioms.leb_spec, !FloatAxioms.ltb_spec,
    FloatAxioms.mul_spec, FloatAxioms.opp_spec.
  change (Prim2SF 0) with (S754_zero false).
  change (Prim2SF infinity) with (S754_infinity false).
  unfold SF64mul.
  destruct (Prim2SF rate) as [sr|sr| |sr mr er],
           (Prim2SF dt) as [sd|sd| |sd md ed];
    try destruct sr; try destruct sd; try discriminate;
    try reflexivity.
  intros _ _ _. unfold SFopp, SFmul, xorb.
  change (if negb false then true else false) with true.
  pose proof (round_aux_sign true (Z.pos (mr * md)) (er + ed) loc_Exact)
    as Hs.
  assert (Hn : binary_round_aux prec emax true (Z.pos (mr * md)) (er + ed)
                 loc_Exact <> S754_nan) by (apply round_aux_not_nan; lia).
  destruct (binary_round_aux prec emax true _ _ loc_Exact) as [s|s| |s m e];
    try subst s; try reflexivity. now elim Hn.
Qed.

Lemma digits2_bounds (p : positive) :
  2 ^ (Z.pos (digits2_pos p) - 1) <= Z.pos p < 2 ^ Z.pos (digits2_pos p).
Proof.
  induction p as [p IH|p IH|]; cbn [digits2_pos].
  - rewrite Pos2Z.inj_succ. replace (Z.succ (Z.pos (digits2_pos p)) - 1)
      with (Z.succ (Z.pos (digits2_pos p) - 1)) by lia.
    rewrite !Z.pow_succ_r by lia. lia.
  - rewrite Pos2Z.inj_succ. replace (Z.succ (Z.pos (digits2_pos p)) - 1)
      with (Z.succ (Z.pos (digits2_pos p) - 1)) by lia.
    rewrite !Z.pow_succ_r by lia. lia.
  - simpl. lia.
Qed.

Lemma iter_xO_pow (p d : positive) :
  Z.pos (Pos.iter xO p d) = Z.pos p * 2 ^ Z.pos d.
Proof.
  induction d as [|d IH] using Pos.peano_ind.
  - simpl. lia.
  - rewrite Pos.iter_succ, Pos2Z.inj_succ, Z.pow_succ_r by lia.
    change (Z.pos (Pos.iter xO p d)~0) with (2 * Z.pos (Pos.iter xO p d)).
    rewrite IH. lia.
Qed.

Lemma fexp_le (m e : Z) :
  0 < m -> e <= 0 -> m <= 2 ^ (- e) ->
  fexp prec emax (Zdigits2 m + e) <= 0.
Proof.
  intros Hm He Hle. unfold fexp, SpecFloat.emin, prec, emax.
  destruct m as [|p|p]; try lia. cbn [Zdigits2].
  pose proof (digits2_bounds p) as [Hlo _].
  assert (Hd : Z.pos (digits2_pos p) - 1 <= - e).
  { apply (Z.pow_le_mono_r_iff 2); lia. }
  lia.
Qed.

(** A second rounding step keeps a value of at most one. *)
Lemma shr_fexp_at_most_one (m e : Z) :
  at_most_one m e ->
  at_most_one (shr_m (fst (shr_fexp prec emax m e loc_Exact)))
              (snd (shr_fexp prec emax m e loc_Exact)).
Proof.
  intros (He & Hm0 & Hm). unfold shr_fexp.
  set (n := fexp prec emax (Zdigits2 m + e) - e).
  destruct (shr_div (shr_record_of_loc m loc_Exact) e n) as [Hneg Hpos];
    [exact Hm0|].
  destruct (Z_le_gt_dec n 0) as [Hn|Hn].
  - rewrite Hneg by exact Hn. cbn [fst snd shr_m shr_record_of_loc].
    repeat split; assumption.
  - destruct Hpos as [Hdiv Hexp]; [lia|]. rewrite Hdiv, Hexp.
    cbn [shr_m shr_record_of_loc].
    destruct (Z.eq_dec m 0) as [->|Hne].
    + rewrite Z.div_0_l by (apply Z.pow_nonzero; lia).
      assert (He' : e + n <= 0 \/ 0 < e + n) by lia.
      destruct He' as [He'|He'].
      * repeat split; try lia; apply Z.pow_nonneg; lia.
      * exfalso. unfold n, fexp, SpecFloat.emin, prec, emax in He'.
        cbn [Zdigits2] in He'. lia.
    + assert (He2 : e + n <= 0).
      { unfold n. replace (e + (fexp prec emax (Zdigits2 m + e) - e))
          with (fexp prec emax (Zdigits2 m + e)) by lia.
        apply fexp_le; lia. }
      repeat split; [exact He2 | apply Z.div_pos; [lia|] |].
      * apply Z.pow_pos_nonneg; lia.
      * replace (- (e + n)) with (- e - n) by lia.
        rewrite Z.pow_sub_r by lia.
        apply Z.div_le_mono; [apply Z.pow_pos_nonneg; lia | exact Hm].
Qed.

(** Rounding a positive value below one gives a value of at most one. *)
Lemma round_aux_at_most_one (mz ez : Z) :
  0 < mz -> ez <= 0 -> mz < 2 ^ (- ez) ->
  match binary_round_aux prec emax false mz ez loc_Exact with
  | S754_zero s => s = false
  | S754_finite s m e => s = false /\ at_most_one (Z.pos m) e
  | _ => False
  end.
Proof.
  intros Hmz Hez Hlt. unfold binary_round_aux.
  assert (H1 : at_most_one
            (round_nearest_even
               (shr_m (fst (shr_fexp prec emax mz ez loc_Exact)))
               (loc_of_shr_record (fst (shr_fexp prec emax mz ez loc_Exact))))
            (snd (shr_fexp prec emax mz ez loc_Exact))).
  { unfold shr_fexp.
    set (n := fexp prec emax (Zdigits2 mz + ez) - ez).
    destruct (shr_div (shr_record_of_loc mz loc_Exact) ez n) as [Hneg Hpos];
      [cbn; lia|].
    destruct (Z_le_gt_dec n 0) as [Hn|Hn].
    - rewrite Hneg by exact Hn. cbn. repeat split; lia.
    - destruct Hpos as [Hdiv Hexp]; [lia|].
      pose proof (round_nearest_even_bounds
                    (shr_m (fst (shr (shr_record_of_loc mz loc_Exact) ez n)))
                    (loc_of_shr_record
                       (fst (shr (shr_record_of_loc mz loc_Exact) ez n))))
        as [Hlo Hhi].
      rewrite Hexp.
      set (q := shr_m (fst (shr (shr_record_of_loc mz loc_Exact) ez n)))
        in *.
      set (r := round_nearest_even q _) in *.
      change (shr_m (shr_record_of_loc mz loc_Exact)) with mz in Hdiv.
      assert (He2 : ez + n <= 0).
      { unfold n. replace (ez + (fexp prec emax (Zdigits2 mz + ez) - ez))
          with (fexp prec emax (Zdigits2 mz + ez)) by lia.
        apply fexp_le; lia. }
      assert (Hq : mz / 2 ^ n < 2 ^ (- (ez + n))).
      { apply Z.div_lt_upper_bound; [apply Z.pow_pos_nonneg; lia|].
        rewrite <- Z.pow_add_r by lia.
        replace (n + - (ez + n)) with (- ez) by lia. exact Hlt. }
      assert (Hq0 : 0 <= mz / 2 ^ n).
      { apply Z.div_pos; [lia | apply Z.pow_pos_nonneg; lia]. }
      unfold at_most_one. rewrite <- Hdiv in Hq, Hq0. repeat split; lia. }
  destruct (shr_fexp prec emax mz ez loc_Exact) as [mrs' e'].
  cbn [fst snd] in H1.
  pose proof (shr_fexp_at_most_one _ _ H1) as H2.
  destruct (shr_fexp prec emax _ e' loc_Exact) as [mrs'' e''].
  cbn [fst snd] in H2. destruct H2 as (He'' & Hm0 & Hm'').
  destruct (shr_m mrs'') as [|m|m]; [reflexivity | | lia].
  replace (e'' <=? emax - prec) with true
    by (symmetry; apply Z.leb_le; unfold emax, prec; lia).
  split; [reflexivity|]. repeat split; assumption.
Qed.

Lemma round_at_most_one (d : positive) (e : Z) :
  e <= 0 -> Z.pos d < 2 ^ (- e) ->
  match binary_round prec emax false d e with
  | S754_zero s => s = false
  | S754_finite s m e' => s = false /\ at_most_one (Z.pos m) e'
  | _ => False
  end.
Proof.
  intros He Hlt. unfold binary_round, shl_align.
  set (t := fexp prec emax (Z.pos (digits2_pos d) + e)).
  destruct (t - e) as [|k|k] eqn:Hk;
    try (apply round_aux_at_most_one; [lia | exact He | exact Hlt]).
  apply round_aux_at_most_one; [lia | lia |].
  rewrite iter_xO_pow. replace (- t) with (- e + Z.pos k) by lia.
  rewrite Z.pow_add_r by lia.
  apply Z.mul_lt_mono_pos_r; [apply Z.pow_pos_nonneg; lia | exact Hlt].
Qed.

(** ** [1 - e] for [e] between 0 and 1 *)

(** What [0 <= e <= 1] means on the representation: a zero, or a positive
    canonical number whose mantissa is at most [2^-ee]. *)
Lemma unit_interval_repr (e : float) :
  (0 <=? e)%float = true -> (e <=? 1)%float = true ->
  match Prim2SF e with
  | S754_zero _ => True
  | S754_finite s m ee => s = false /\ ee <= -52 /\ Z.pos m <= 2 ^ (- ee)
  | _ => False
  end.
Proof.
  rewrite !FloatAxioms.leb_spec.
  change (Prim2SF 0) with (S754_zero false).
  change (Prim2SF 1) with (S754_finite false 4503599627370496 (-52)).
  pose proof (FloatAxioms.Prim2SF_valid e) as Hv.
  destruct (Prim2SF e) as [s|s| |s m ee]; unfold SFleb, SFcompare;
    [intros; exact Logic.I | | intros; discriminate | ].
  - destruct s; discriminate.
  - destruct s; [discriminate|]. intros _ Hle.
    unfold SpecFloat.valid_binary, bounded, canonical_mantissa in Hv.
    apply andb_prop in Hv as [Hc _]. apply Z.eqb_eq in Hc.
    unfold fexp, SpecFloat.emin, prec, emax in Hc.
    pose proof (digits2_bounds m) as [_ Hhi].
    destruct (Z.compare_spec ee (-52)) as [Heq|Hlt|Hgt];
      [| | discriminate].
    + subst ee. split; [reflexivity|]. split; [lia|].
      rewrite Pos.compare_cont_spec in Hle.
      change (2 ^ (- -52)) with 4503599627370496.
      destruct (Pos.compare_spec m 4503599627370496) as [Hcmp|Hcmp|Hcmp];
        [subst m; reflexivity | | discriminate].
      apply Pos2Z.pos_lt_pos in Hcmp. clear - Hcmp. lia.
    + split; [reflexivity|]. split; [lia|].
      assert (Hd : Z.pos (digits2_pos m) <= 53) by lia.
      assert (Hp : 2 ^ Z.pos (digits2_pos m) <= 2 ^ (- ee)).
      { apply Z.pow_le_mono_r; lia. }
      lia.
Qed.

(** A valid representation of a value of at most one compares below
    one. *)
Lemma at_most_one_leb (x : spec_float) :
  SpecFloat.valid_binary prec emax x = true ->
  match x with
  | S754_zero _ => True
  | S754_finite s m e => s = false /\ at_most_one (Z.pos m) e
  | _ => False
  end ->
  SFleb (S754_zero false) x = true /\
  SFleb x (S754_finite false 4503599627370496 (-52)) = true.
Proof.
  destruct x as [s|s| |s m e];
    [intros _ _; split; reflexivity | intros _ [] | intros _ [] | ].
  intros Hv (-> & He & _ & Hm). split; [reflexivity|].
  unfold SpecFloat.valid_binary, bounded, canonical_mantissa in Hv.
  apply andb_prop in Hv as [Hc _]. apply Z.eqb_eq in Hc.
  unfold fexp, SpecFloat.emin, prec, emax in Hc.
  pose proof (digits2_bounds m) as [Hlo _].
  unfold SFleb, SFcompare.
  destruct (Z.compare_spec e (-52)) as [Heq|Hlt|Hgt]; [|reflexivity|].
  - subst e. change (2 ^ (- -52)) with 4503599627370496 in Hm.
    rewrite Pos.compare_cont_spec.
    destruct (Pos.compare_spec m 4503599627370496) as [Hcmp|Hcmp|Hcmp];
      try reflexivity.
    apply Pos2Z.pos_lt_pos in Hcmp. clear - Hcmp Hm. lia.
  - exfalso. assert (Hd : Z.pos (digits2_pos m) = 53) by lia.
    rewrite Hd in Hlo. simpl in Hlo.
    assert (Hp : 2 ^ (- e) < 2 ^ 52) by (apply Z.pow_lt_mono_r; lia).
    simpl in Hp. lia.
Qed.

(** In binary64, [1 - e] lies in [[0, 1]] whenever [e] does. *)
Lemma one_minus_unit (e : float) :
  (0 <=? e)%float = true -> (e <=? 1)%float = true ->
  (0 <=? 1 - e)%float = true /\ (1 - e <=? 1)%float = true.
Proof.
  intros H0 H1. pose proof (unit_interval_repr e H0 H1) as He.
  rewrite !FloatAxioms.leb_spec.
  change (Prim2SF 0) with (S754_zero false).
  change (Prim2SF 1) with (S754_finite false 4503599627370496 (-52)).
  apply at_most_one_leb; [apply FloatAxioms.Prim2SF_valid|].
  rewrite FloatAxioms.sub_spec.
  change (Prim2SF 1) with (S754_finite false 4503599627370496 (-52)).
  unfold SF64sub, SFsub.
  destruct (Prim2SF e) as [s|s| |s m ee]; try contradiction.
  - split; [reflexivity|]. unfold at_most_one. simpl. lia.
  - destruct He as (-> & Hee & Hm).
    replace (Z.min (-52) ee) with ee by lia.
    assert (Hone : Z.pos (fst (shl_align 4503599627370496 (-52) ee)) =
                   2 ^ (- ee)).
    { unfold shl_align. destruct (ee - -52) as [|k|k] eqn:Hk; cbn [fst].
      - replace ee with (-52) by lia. reflexivity.
      - lia.
      - rewrite iter_xO_pow. replace (- ee) with (52 + Z.pos k) by lia.
        rewrite Z.pow_add_r by lia. reflexivity. }
    assert (Hme : fst (shl_align m ee ee) = m).
    { unfold shl_align. now rewrite Z.sub_diag. }
    rewrite Hone, Hme. cbn [cond_Zopp]. unfold binary_normalize.
    destruct (2 ^ (- ee) - Z.pos m) as [|d|d] eqn:Hd;
      [exact Logic.I | | lia].
    assert (Hr := round_at_most_one d ee).
    destruct (binary_round prec emax false d ee) as [s'|s'| |s' m' e'];
      [exact Logic.I | | |]; apply Hr; lia.
Qed.

(* ================================================================== *)
(** * Rates and probabilities                                          *)
(* ================================================================== *)

Section RateToProb.
Context `{MathLib}.

(** [rate_to_prob] on its domain.  For a rate that is not negative and a
    finite positive step the argument handed to [math.exp] is not
    positive; when the library returns for it a float [e] between 0 and 1,
    as the exact exponential is, [rate_to_prob] returns the binary64
    difference [1 - e], and that lies between 0 and 1, both included. *)
Theorem rate_to_prob_in_unit (rate dt e : float) :
  (0 <=? rate)%float = true -> (0 <? dt)%float = true ->
  (dt <? infinity)%float = true ->
  math_exp (- rate * dt)%float = Ok e -> in_unit e = true ->
  (- rate * dt <=? 0)%float = true /\
  SEIZ.rate_to_prob rate dt = Ok (1 - e)%float /\
  in_unit (1 - e) = true.
Proof.
  intros Hr Hd Hf He Hu.
  split; [now apply neg_rate_dt_not_positive|].
  unfold SEIZ.rate_to_prob. rewrite He. split; [reflexivity|].
  unfold in_unit in *. apply andb_prop in Hu as [H0 H1].
  destruct (one_minus_unit e H0 H1) as [Ha Hb]. now rewrite Ha, Hb.
Qed.
End RateToProb.

Lemma rate_to_prob_in_unit_witness :
  let e := 0x1.7b4c869c37c05p-1%float in
  (- 0.3 * 1 <=? 0)%float = true /\
  @SEIZ.rate_to_prob RefMath.lib 0.3 1 = Ok (1 - e)%float /\
  in_unit (1 - e) = true.
Proof.
  apply (@rate_to_prob_in_unit RefMath.lib 0.3 1); reflexivity.
Defined.

(* ================================================================== *)
(** * The constructors                                                 *)
(* ================================================================== *)

Section Constructors.
Context {G : Type} `{RandomGen G} `{MathLib}.

(** A well-formed model whose nodes are all susceptible is [fresh]. *)
Lemma all_susceptible_fresh (gr : Graph) (v : Variant) :
  well_formed v -> graph v = gr ->
  (forall u, In u (nodes gr) -> state_of v u = Susceptible) ->
  fresh gr v.
Proof.
  intros Hwf Hg Hs.
  assert (Ht : get_states v = table (nodes gr) (fun _ => Susceptible)).
  { rewrite (get_states_table v Hwf), Hg. now apply table_ext. }
  repeat split; try assumption.
  unfold all_states. cbn [map].
  rewrite !(count_states_get v), !Ht, !population_table.
  cbn [state_eqb].
  rewrite (filter_all (fun _ => true)) by reflexivity.
  rewrite (filter_none (fun _ => false)) by reflexivity.
  now rewrite length_nodes.
Qed.

(** [SEIZModel.__init__] calls [math.exp] four times, in the order
    [beta], [b], [rho], [eps]: it returns when they all do and raises what
    the first failing call raises. *)
Lemma init_returns (gr : Graph) (beta b rho eps p l dt : float) :
  match mapM (fun rate => SEIZ.rate_to_prob rate dt) [beta; b; rho; eps] with
  | inl probs =>
      exists mo, SEIZ.init gr beta b rho eps p l dt = Ok mo /\
        [SEIZ.prob_contact_I (self mo); SEIZ.prob_contact_Z (self mo);
         SEIZ.prob_E_to_I (self mo); SEIZ.prob_I_to_E (self mo)] = probs /\
        SEIZ.p (self mo) = p /\ SEIZ.l (self mo) = l /\
        SEIZ.seiz_graph (self mo) = gr /\
        SEIZ.states (self mo) =
        fold_left (fun st v => Py.set st v Susceptible) (nodes gr) [] /\
        history mo = []
  | inr e => SEIZ.init gr beta b rho eps p l dt = Raise e
  end.
Proof.
  unfold SEIZ.init. cbn [mapM].
  destruct (SEIZ.rate_to_prob beta dt) as [pI|e]; cbn [bind]; [|reflexivity].
  destruct (SEIZ.rate_to_prob b dt) as [pZ|e]; cbn [bind]; [|reflexivity].
  destruct (SEIZ.rate_to_prob rho dt) as [pEI|e]; cbn [bind]; [|reflexivity].
  destruct (SEIZ.rate_to_prob eps dt) as [pIE|e]; cbn [bind]; [|reflexivity].
  eexists. split; [reflexivity|]. cbn. repeat split.
Qed.

(** The agents [SEIZSMModel.__init__] creates are susceptible. *)
Lemma sm_init_agents (ks : list node) :
  forall acc : (node -> SEIZSM.Agent) * G,
  (forall w, SEIZSM.state (fst acc w) = Susceptible) ->
  forall w,
    SEIZSM.state
      (fst (fold_left
              (fun '(ag, g) v =>
                 let '(a, g) := SEIZSM.new_agent Susceptible g in
                 (upd ag v a, g))
              ks acc) w) = Susceptible.
Proof.
  induction ks as [|k ks IH]; intros [ag g] Hacc w; cbn [fold_left].
  - apply Hacc.
  - apply IH. intros u. unfold SEIZSM.new_agent, SEIZSM.draw_profile.
    destruct (rng_random g) as [x1 g1]. destruct (rng_random g1) as [x2 g2].
    destruct (rng_random g2) as [x3 g3]. cbn [fst]. unfold upd.
    destruct (Nat.eqb u k); [reflexivity | apply Hacc].
Qed.

(** The three constructors on a graph: every node starts susceptible, and
    the object is well formed (for the smart moderator, when the number of
    messages [n] is not negative: the constructor does not check it). *)
Theorem constructors_fresh (gr : Graph) :
  wf_graph gr ->
  (forall beta b rho eps p l dt mo,
     SEIZ.init gr beta b rho eps p l dt = Ok mo ->
     fresh gr (Baseline (self mo)) /\ history mo = []) /\
  (forall beta b rho p epsilon l mu m,
     let mo := SEIZBM.init gr beta b rho p epsilon l mu m in
     fresh gr (BasicModerator (self mo)) /\ history mo = []) /\
  (forall beta b rho p epsilon l n theta T eta lambd (g : G),
     let mo := fst (SEIZSM.init gr beta b rho p epsilon l n theta T eta
                                lambd g) in
     graph (SmartModerator (self mo)) = gr /\ history mo = [] /\
     (forall u, SEIZSM.state (SEIZSM.agents (self mo) u) = Susceptible) /\
     (0 <= n -> fresh gr (SmartModerator (self mo)))).
Proof.
  intros Hgr. split; [|split].
  - intros beta b rho eps p l dt mo Hmo.
    pose proof (init_returns gr beta b rho eps p l dt) as Hi.
    destruct (mapM _ _) as [probs|e];
      [|rewrite Hi in Hmo; discriminate Hmo].
    destruct Hi as (mo' & Hmo' & _ & _ & _ & Hg & Hst & Hh).
    assert (mo' = mo) by (rewrite Hmo' in Hmo; now injection Hmo). subst mo'.
    split; [|exact Hh].
    assert (Hk : SEIZ.states (self mo) =
                 table (nodes gr) (fun _ => Susceptible)).
    { rewrite Hst.
      apply (build_table (fun _ : unit => Susceptible) (fun _ => tt)).
      apply Hgr. }
    apply all_susceptible_fresh.
    + split; cbn; rewrite Hg; [exact Hgr|]. rewrite Hk.
      unfold table, keys. rewrite map_map. cbn. apply map_id.
    + exact Hg.
    + intros u Hu. cbn. rewrite Hk, get_table.
      destruct (in_dec Nat.eq_dec u (nodes gr)); [reflexivity | contradiction].
  - intros beta b rho p epsilon l mu m mo. split; [|reflexivity].
    apply all_susceptible_fresh; [exact Hgr | reflexivity |].
    intros u _. cbn.
    apply (fold_left_inv
             (fun ag => forall w, SEIZBM.state (ag w) = Susceptible)
             (fun ag v => upd ag v (SEIZBM.mkAgent Susceptible)));
      [|reflexivity].
    intros ag v _ Hag w. unfold upd. destruct (Nat.eqb w v); [reflexivity|].
    apply Hag.
  - intros beta b rho p epsilon l n theta T eta lambd g mo.
    assert (Hall : forall u,
              SEIZSM.state (SEIZSM.agents (self mo) u) = Susceptible).
    { subst mo. unfold SEIZSM.init.
      pose proof (sm_init_agents (nodes gr)
                    (fun _ => SEIZSM.mkAgent Susceptible [] 0 0, g)
                    (fun _ => eq_refl)) as Hinv.
      destruct (fold_left _ (nodes gr) _) as [ag g']. exact Hinv. }
    assert (Hg : graph (SmartModerator (self mo)) = gr).
    { subst mo. unfold SEIZSM.init.
      destruct (fold_left _ (nodes gr) _) as [ag g']. reflexivity. }
    assert (Hh : history mo = []).
    { subst mo. unfold SEIZSM.init.
      destruct (fold_left _ (nodes gr) _) as [ag g']. reflexivity. }
    assert (Hn : SEIZSM.n (self mo) = n).
    { subst mo. unfold SEIZSM.init.
      destruct (fold_left _ (nodes gr) _) as [ag g']. reflexivity. }
    split; [exact Hg|]. split; [exact Hh|]. split; [exact Hall|].
    intros Hn0. apply all_susceptible_fresh; [|exact Hg|].
    + cbn in Hg |- *. rewrite Hg, Hn. now split.
    + intros u _. apply Hall.
Qed.
End Constructors.

Lemma constructors_fresh_witness :
  fresh (path 10) (Baseline (self Examples.baseline10)) /\
  fresh (path 10) (BasicModerator (self Examples.basic10)) /\
  fresh (path 10) (SmartModerator (self Examples.smart10)).
Proof.
  destruct (@constructors_fresh BinNums.Z Lcg.gen RefMath.lib (path 10)
              (check_graph_ok (path 10) eq_refl)) as (Hb & Hbm & Hsm).
  split; [|split].
  - exact (proj1 (Hb _ _ _ _ _ _ _ _ baseline10_constructed)).
  - exact (proj1 (Hbm 0.3 0.2 0.2 0.5 0.1 0.4 0.1 0.5)%float).
  - apply (Hsm 0.3%float 0.2%float 0.2%float 0.5%float 0.1%float 0.4%float
                5 3 0.5%float 0.3%float 0.1%float (Lcg.seed 1)).
    discriminate.
Defined.

(* ================================================================== *)
(** * What a step of the baseline reads                                *)
(* ================================================================== *)

Section BaselineReads.
Context {G : Type} `{RandomGen G}.

Lemma foldM_ext {A B} (f f' : A -> B -> result A) (xs : list B) (a : A) :
  (forall a x, f a x = f' a x) -> foldM f xs a = foldM f' xs a.
Proof.
  intros Hf. revert a. induction xs as [|x xs IH]; intros a; cbn [foldM].
  - reflexivity.
  - rewrite Hf. destruct (f' a x) as [a'|e]; cbn [bind]; [apply IH|].
    reflexivity.
Qed.

Lemma fold_left_ext {A B} (f f' : A -> B -> A) (xs : list B) (a : A) :
  (forall a x, f a x = f' a x) -> fold_left f xs a = fold_left f' xs a.
Proof.
  intros Hf. revert a. induction xs as [|x xs IH]; intros a; cbn [fold_left].
  - reflexivity.
  - rewrite Hf. apply IH.
Qed.

(** The proposals of a step are computed from the graph, the states, the
    four converted probabilities, [p] and [l]. *)
Lemma collect_same (m1 m2 : SEIZ.SEIZModel) (g : G) :
  same_probabilities m1 m2 -> SEIZ.collect m1 g = SEIZ.collect m2 g.
Proof.
  intros (Hg & Hs & HI & HZ & HEI & HIE & Hp & Hl). unfold SEIZ.collect.
  rewrite Hs.
  rewrite (foldM_ext (SEIZ.contacts m1) (SEIZ.contacts m2)).
  - destruct (foldM _ _ _) as [acc|e]; cbn [bind]; [|reflexivity].
    f_equal. apply fold_left_ext. intros [proposals g1] [v s].
    unfold SEIZ.internal. now rewrite HEI, HIE.
  - intros acc [v s]. unfold SEIZ.contacts. rewrite Hg, HI, HZ, Hp, Hl.
    destruct s; try reflexivity;
      (destruct (neighbors _ v) as [ns|e]; cbn [bind]; [|reflexivity];
       apply foldM_ext; intros [proposals g1] w; unfold SEIZ.contact;
       now rewrite Hs).
Qed.

(** A step of the baseline reads the four probabilities the constructor
    converted, never the rates [beta], [b], [rho], [eps] or the step size
    [dt] themselves: two objects that agree on the graph, the states, the
    four probabilities, [p] and [l] take the same step, draw for draw,
    whatever rates and step size they were built from. *)
Theorem seiz_step_reads_probabilities (m1 m2 : SEIZ.SEIZModel) (g : G) :
  same_probabilities m1 m2 ->
  SEIZ.seiz_step m2 g =
  fmap (fun r => (SEIZ.with_states m2 (SEIZ.states (fst r)), snd r))
       (SEIZ.seiz_step m1 g).
Proof.
  intros Hsame. unfold SEIZ.seiz_step.
  rewrite (collect_same m1 m2 g Hsame).
  destruct Hsame as (_ & Hs & _). rewrite Hs.
  destruct (SEIZ.collect m2 g) as [[proposals g1]|e]; cbn [bind fmap];
    [|reflexivity].
  destruct (foldM _ _ _) as [[st g2]|e]; reflexivity.
Qed.
End BaselineReads.

(** The rates 0.3, 0.2, 0.2, 0.1 over a step of 1 and their halves over a
    step of 2 convert to the same probabilities. *)
Lemma seiz_step_reads_probabilities_witness :
  let m1 := Examples.baseline10_mixed in
  let m2 :=
    SEIZ.with_states
      (self (Examples.returned Examples.baseline10
               (@SEIZ.init RefMath.lib (path 10)
                  0.15%float 0.1%float 0.1%float 0.05%float 0.5%float
                  0.4%float 2%float)))
      (SEIZ.states m1) in
  (SEIZ.beta m1 =? SEIZ.beta m2)%float = false /\
  SEIZ.seiz_step m2 (Lcg.seed 3) =
  fmap (fun r => (SEIZ.with_states m2 (SEIZ.states (fst r)), snd r))
       (SEIZ.seiz_step m1 (Lcg.seed 3)).
Proof.
  split; [reflexivity|].
  apply (seiz_step_reads_probabilities Examples.baseline10_mixed).
  repeat split; reflexivity.
Defined.

(* ================================================================== *)
(** * The transitions of a step                                        *)
(* ================================================================== *)

Lemma foldM_keeps {A B} (P : A -> Prop) (f : A -> B -> result A)
    (xs : list B) :
  (forall a x a', In x xs -> f a x = Ok a' -> P a -> P a') ->
  forall a a', foldM f xs a = Ok a' -> P a -> P a'.
Proof.
  induction xs as [|x xs IH]; intros Hf a a' Hfold Ha; cbn [foldM] in Hfold.
  - injection Hfold as <-. exact Ha.
  - destruct (f a x) as [a1|e] eqn:Hfx; cbn [bind] in Hfold;
      [|discriminate].
    apply (IH (fun a0 x0 a0' Hin => Hf a0 x0 a0' (or_intror Hin)) a1 a' Hfold).
    apply (Hf a x a1 (or_introl eq_refl) Hfx Ha).
Qed.

Section BaselineRules.
Context {G : Type} `{RandomGen G}.

Lemma may_become_refl (v : Variant) (s : State) : may_become v s s = true.
Proof. destruct s; reflexivity. Qed.

Lemma baseline_step_rules (m m' : SEIZ.SEIZModel) (g g' : G) :
  well_formed (Baseline m) -> SEIZ.seiz_step m g = Ok (m', g') ->
  forall u,
    may_become (Baseline m) (state_of (Baseline m) u)
               (state_of (Baseline m') u) = true /\
    (state_of (Baseline m) u = Susceptible ->
     state_of (Baseline m') u <> Susceptible ->
     exists w, spreader (Baseline m) u w).
Proof.
  intros Hwf Hstep u.
  destruct (baseline_step_spec m g Hwf)
    as (proposals & g1 & m1 & g2 & _ & Hs & _ & _ & Hget).
  rewrite Hs in Hstep. injection Hstep as -> ->.
  specialize (Hget u). cbn [state_of].
  destruct (Py.get proposals u) as [plist|].
  - destruct Hget as (Hj & _ & _ & chosen & _ & Hin & ->).
    rewrite Forall_forall in Hj. specialize (Hj chosen Hin).
    destruct Hj as [[Hu (w & ns & Hns & Hv & Hw)]|[[Hu ->]|[Hu ->]]];
      rewrite Hu.
    + split; [reflexivity|]. intros _ _. exists w. split.
      * exists ns. now split.
      * destruct Hw as [[Hw _]|[Hw _]]; [now left | now right].
    + split; [reflexivity|]. discriminate.
    + split; [reflexivity|]. discriminate.
  - rewrite Hget. split; [apply may_become_refl|]. intros Hs1 Hs2.
    contradiction.
Qed.
End BaselineRules.

Section BasicRules.
Context {G : Type} `{RandomGen G}.
Variable mo : SEIZBM.SEIZBMModel.

Lemma scan_susceptible_some (ns : list node) : forall (g g' : G) s,
  SEIZBM.scan_susceptible mo ns g = (Some s, g') ->
  s <> Susceptible /\
  exists w, In w ns /\
    (SEIZBM.state (SEIZBM.agents mo w) = Infected \/
     SEIZBM.state (SEIZBM.agents mo w) = Skeptic).
Proof.
  induction ns as [|w ns IH]; intros g g' s Hscan;
    cbn [SEIZBM.scan_susceptible] in Hscan; [discriminate|].
  assert (Hrec : forall g0, SEIZBM.scan_susceptible mo ns g0 = (Some s, g') ->
            s <> Susceptible /\
            exists w0, In w0 (w :: ns) /\
              (SEIZBM.state (SEIZBM.agents mo w0) = Infected \/
               SEIZBM.state (SEIZBM.agents mo w0) = Skeptic)).
  { intros g0 H0. destruct (IH g0 g' s H0) as (Hs & w0 & Hin & Hw0).
    split; [exact Hs|]. exists w0. split; [now right | exact Hw0]. }
  destruct (SEIZBM.state (SEIZBM.agents mo w)) eqn:Hw;
    try (now apply (Hrec g)).
  - destruct (rng_random g) as [u1 g1].
    destruct (u1 <? SEIZBM.beta mo)%float; [|now apply (Hrec g1)].
    destruct (rng_random g1) as [u2 g2]. injection Hscan as <- _.
    split; [destruct (u2 <? SEIZBM.p mo)%float; discriminate|].
    exists w. split; [now left | now left].
  - destruct (rng_random g) as [u1 g1].
    destruct (u1 <? SEIZBM.b mo)%float; [|now apply (Hrec g1)].
    destruct (rng_random g1) as [u2 g2]. injection Hscan as <- _.
    split; [destruct (u2 <? SEIZBM.l mo)%float; discriminate|].
    exists w. split; [now left | now right].
Qed.

Lemma scan_exposed_some (ns : list node) : forall (g g' : G) s,
  SEIZBM.scan_exposed mo ns g = (Some s, g') -> s = Infected.
Proof.
  induction ns as [|w ns IH]; intros g g' s Hscan;
    cbn [SEIZBM.scan_exposed] in Hscan; [discriminate|].
  destruct (SEIZBM.state (SEIZBM.agents mo w)); try (now apply (IH g g')).
  destruct (rng_random g) as [u1 g1].
  destruct (u1 <? SEIZBM.rho mo)%float; [|now apply (IH g1 g')].
  now injection Hscan as <- _.
Qed.

Lemma bm_rules_set new_states v s :
  bm_buffer_rules mo new_states ->
  bm_entry (SEIZBM.state (SEIZBM.agents mo v)) s
    (exists w, spreader (BasicModerator mo) v w) ->
  bm_buffer_rules mo (Py.set new_states v s).
Proof.
  intros [Hnd Hb] Hv. split; [now apply NoDup_keys_set|].
  intros u s'. destruct (Nat.eq_dec v u) as [<-|Hn].
  - rewrite get_set_same. now intros [= <-].
  - rewrite get_set_other by exact Hn. apply Hb.
Qed.

Lemma bm_visit_rules acc v acc' :
  SEIZBM.visit mo acc v = Ok acc' ->
  bm_buffer_rules mo (fst acc) -> bm_buffer_rules mo (fst acc').
Proof.
  destruct acc as [new_states g]. cbn [fst]. unfold SEIZBM.visit.
  intros Hvisit Hacc.
  destruct (SEIZBM.state (SEIZBM.agents mo v)) eqn:Hs.
  - destruct (neighbors (SEIZBM.bm_graph mo) v) as [ns|e] eqn:Hns;
      cbn [bind] in Hvisit; [|discriminate].
    destruct (SEIZBM.scan_susceptible mo ns g) as [[s|] g1] eqn:Hscan;
      injection Hvisit as <-; cbn [fst]; [|exact Hacc].
    apply bm_rules_set; [exact Hacc|]. rewrite Hs.
    destruct (scan_susceptible_some ns g g1 s Hscan) as (Hne & w & Hin & Hw).
    split; [exact Hne|]. exists w. split; [|exact Hw].
    exists ns. now split.
  - destruct (rng_random g) as [u1 g1].
    destruct (u1 <? SEIZBM.epsilon mo)%float.
    + injection Hvisit as <-. cbn [fst].
      apply bm_rules_set; [exact Hacc|]. now rewrite Hs.
    + destruct (neighbors (SEIZBM.bm_graph mo) v) as [ns|e];
        cbn [bind] in Hvisit; [|discriminate].
      destruct (SEIZBM.scan_exposed mo ns g1) as [[s|] g2] eqn:Hscan;
        injection Hvisit as <-; cbn [fst]; [|exact Hacc].
      apply bm_rules_set; [exact Hacc|]. rewrite Hs.
      exact (scan_exposed_some ns g1 g2 s Hscan).
  - destruct (rng_random g) as [u1 g1].
    destruct (u1 <? SEIZBM.mu mo)%float.
    + destruct (rng_random g1) as [u2 g2].
      destruct (u2 <? SEIZBM.m mo)%float;
        injection Hvisit as <-; cbn [fst]; [|exact Hacc].
      apply bm_rules_set; [exact Hacc|]. now rewrite Hs.
    + injection Hvisit as <-. exact Hacc.
  - injection Hvisit as <-. exact Hacc.
Qed.

(** The last loop gives each buffered node its buffered state. *)
Lemma bm_commit_get (new_states : dict node State) :
  forall ag u s, NoDup (keys new_states) ->
  Py.get new_states u = Some s ->
  SEIZBM.state (SEIZBM.commit ag new_states u) = s.
Proof.
  induction new_states as [|[k x] rest IH]; intros ag u s Hnd Hget;
    [discriminate|].
  cbn [keys map fst] in Hnd. inversion Hnd as [|? ? Hk Hnd']; subst.
  unfold SEIZBM.commit. cbn [fold_left]. cbn [Py.get] in Hget.
  change (keq u k) with (Nat.eqb u k) in Hget.
  destruct (Nat.eqb_spec u k) as [->|Hn].
  - injection Hget as <-.
    change (fold_left (fun ag0 '(v, s0) => SEIZBM.set_state ag0 v s0) rest
                      (SEIZBM.set_state ag k x))
      with (SEIZBM.commit (SEIZBM.set_state ag k x) rest).
    rewrite bm_commit_other by exact Hk.
    unfold SEIZBM.set_state. now rewrite upd_same.
  - apply (IH (SEIZBM.set_state ag k x) u s Hnd' Hget).
Qed.

Lemma bm_step_rules (mo' : SEIZBM.SEIZBMModel) (g g' : G) :
  SEIZBM.bm_step mo g = Ok (mo', g') ->
  forall u,
    may_become (BasicModerator mo) (SEIZBM.state (SEIZBM.agents mo u))
               (SEIZBM.state (SEIZBM.agents mo' u)) = true /\
    (SEIZBM.state (SEIZBM.agents mo u) = Susceptible ->
     SEIZBM.state (SEIZBM.agents mo' u) <> Susceptible ->
     exists w, spreader (BasicModerator mo) u w).
Proof.
  unfold SEIZBM.bm_step. intros Hstep u.
  destruct (foldM (SEIZBM.visit mo) (nodes (SEIZBM.bm_graph mo)) ([], g))
    as [[new_states g1]|e] eqn:Hfold; cbn [bind] in Hstep; [|discriminate].
  injection Hstep as <- _. cbn [SEIZBM.agents SEIZBM.with_agents].
  assert (Hb : bm_buffer_rules mo new_states).
  { apply (foldM_keeps (fun a => bm_buffer_rules mo (fst a)) (SEIZBM.visit mo)
             (nodes (SEIZBM.bm_graph mo))
             (fun a x a' _ Hv Ha => bm_visit_rules a x a' Hv Ha)
             ([], g) (new_states, g1) Hfold).
    split; [constructor | discriminate]. }
  destruct Hb as [Hnd Hb].
  destruct (Py.get new_states u) as [s|] eqn:Hget.
  - rewrite (bm_commit_get new_states _ u s Hnd Hget).
    specialize (Hb u s Hget).
    destruct (SEIZBM.state (SEIZBM.agents mo u)); cbn [bm_entry] in Hb.
    + split; [reflexivity|]. intros _ _. apply Hb.
    + subst s. split; [reflexivity | discriminate].
    + subst s. split; [reflexivity | discriminate].
    + contradiction.
  - rewrite bm_commit_other by (now apply get_None_keys).
    split; [apply may_become_refl|]. intros H1 H2. contradiction.
Qed.
End BasicRules.

Section SmartRules.
Context {G : Type} `{RandomGen G}.

Section Follows.
Variable R : State -> State -> bool.
Hypothesis R_refl : forall s, R s s = true.
Hypothesis R_trans : forall a b c, R a b = true -> R b c = true -> R a c = true.

Lemma sm_follows_refl ag : sm_follows R ag ag.
Proof. intros u. split; [apply R_refl | reflexivity]. Qed.

Lemma sm_follows_trans ag1 ag2 ag3 :
  sm_follows R ag1 ag2 -> sm_follows R ag2 ag3 -> sm_follows R ag1 ag3.
Proof.
  intros H12 H23 u. destruct (H12 u) as [Ha Hb], (H23 u) as [Hc Hd].
  split; [eapply R_trans; eassumption | congruence].
Qed.

Lemma sm_follows_upd ag v a :
  R (SEIZSM.state (ag v)) (SEIZSM.state a) = true ->
  SEIZSM.profile a = SEIZSM.profile (ag v) ->
  sm_follows R ag (upd ag v a).
Proof.
  intros Hs Hp u. unfold upd. destruct (Nat.eqb_spec u v) as [->|Hn].
  - now split.
  - split; [apply R_refl | reflexivity].
Qed.

Lemma sm_follows_set_state ag v s :
  R (SEIZSM.state (ag v)) s = true ->
  sm_follows R ag (SEIZSM.set_state ag v s).
Proof.
  intros Hs. unfold SEIZSM.set_state. now apply sm_follows_upd.
Qed.
End Follows.

Lemma send_rule_refl s : send_rule s s = true.
Proof. destruct s; reflexivity. Qed.

Lemma send_rule_trans a b c :
  send_rule a b = true -> send_rule b c = true -> send_rule a c = true.
Proof. destruct a, b, c; cbn; congruence. Qed.

Lemma spread_rule_refl s : spread_rule s s = true.
Proof. destruct s; reflexivity. Qed.

Lemma spread_rule_trans a b c :
  spread_rule a b = true -> spread_rule b c = true -> spread_rule a c = true.
Proof. destruct a, b, c; cbn; congruence. Qed.

Lemma internal_rule_refl s : internal_rule s s = true.
Proof. destruct s; reflexivity. Qed.

Lemma internal_rule_trans a b c :
  internal_rule a b = true -> internal_rule b c = true ->
  internal_rule a c = true.
Proof. destruct a, b, c; cbn; congruence. Qed.

(** An intervention keeps the profile and the activity level, and leaves
    the state as it is or makes it exposed or skeptic. *)
Lemma moderator_intervention_keeps (mo : SEIZSM.SEIZSMModel)
    (a : SEIZSM.Agent) (g : G) :
  let a' := fst (SEIZSM.moderator_intervention mo a g) in
  SEIZSM.profile a' = SEIZSM.profile a /\
  SEIZSM.activity_level a' = SEIZSM.activity_level a /\
  (SEIZSM.state a' = SEIZSM.state a \/ SEIZSM.state a' = Exposed \/
   SEIZSM.state a' = Skeptic).
Proof.
  unfold SEIZSM.moderator_intervention.
  destruct (SEIZSM.theta mo <=? SEIZSM.toxic_messages a); [|cbn; auto].
  destruct (rng_random g) as [u1 g1].
  destruct (u1 <? _)%float; [cbn; auto|].
  destruct (rng_random g1) as [u2 g2].
  destruct (u2 <? _)%float; cbn; auto.
Qed.

(** One sender: the states move along [send_rule], and a sender is
    listed as toxic only if it is infected and its toxicity reaches [T]. *)
Lemma send_one_rules (mo : SEIZSM.SEIZSMModel) ag toxic (g : G) sender :
  let r := SEIZSM.send_one mo (ag, toxic, g) sender in
  sm_follows send_rule ag (fst (fst r)) /\
  forall w, In w (snd (fst r)) ->
    In w toxic \/
    (w = sender /\ SEIZSM.state (ag sender) = Infected /\
     (SEIZSM.T mo <=? SEIZSM.compute_toxicity (ag sender))%float = true).
Proof.
  rewrite send_one_intervenes. cbv zeta.
  destruct (SEIZSM.state (ag sender)) eqn:Hs; cbn [state_eqb andb];
    try (cbn [fst snd]; split;
         [apply sm_follows_upd;
          [apply send_rule_refl | cbn; rewrite Hs; apply send_rule_refl
          | reflexivity]
         | intros w Hw; now left]).
  destruct (SEIZSM.T mo <=? SEIZSM.compute_toxicity (ag sender))%float eqn:HT.
  - pose proof (moderator_intervention_keeps mo
                  (SEIZSM.mkAgent Infected (SEIZSM.profile (ag sender))
                     (SEIZSM.toxic_messages (ag sender) + 1)
                     (SEIZSM.activity_level (ag sender) + 1)) g)
      as (Hp & _ & Hst).
    destruct (SEIZSM.moderator_intervention mo _ g) as [a' g'].
    cbn [fst snd] in *. split.
    + apply sm_follows_upd; [apply send_rule_refl | | exact Hp].
      rewrite Hs. destruct Hst as [-> | [-> | ->]]; reflexivity.
    + intros w Hw. apply in_app_or in Hw as [Hw|[<-|[]]]; [now left|].
      right. now split.
  - cbn [fst snd]. split; [|intros w Hw; now left].
    apply sm_follows_upd; [apply send_rule_refl | | reflexivity].
    cbn. rewrite Hs. reflexivity.
Qed.

Lemma toxicity_profile (a b : SEIZSM.Agent) :
  SEIZSM.profile a = SEIZSM.profile b ->
  SEIZSM.compute_toxicity a = SEIZSM.compute_toxicity b.
Proof. unfold SEIZSM.compute_toxicity. now intros ->. Qed.

(** [send_messages]: who is listed as toxic was infected when the step
    began, with a toxicity of at least [T]. *)
Lemma send_messages_rules (mo mo1 : SEIZSM.SEIZSMModel) (g g1 : G) toxic :
  SEIZSM.send_messages mo g = Ok (mo1, toxic, g1) ->
  mo1 = SEIZSM.with_agents mo (SEIZSM.agents mo1) /\
  sm_follows send_rule (SEIZSM.agents mo) (SEIZSM.agents mo1) /\
  forall w, In w toxic ->
    SEIZSM.state (SEIZSM.agents mo w) = Infected /\
    (SEIZSM.T mo <=? SEIZSM.compute_toxicity (SEIZSM.agents mo w))%float =
    true.
Proof.
  unfold SEIZSM.send_messages.
  destruct (sample _ _ g) as [[senders g0]|e]; cbn [bind]; [|discriminate].
  pose proof (fold_left_inv
    (fun a : (node -> SEIZSM.Agent) * list node * G =>
       sm_follows send_rule (SEIZSM.agents mo) (fst (fst a)) /\
       forall w, In w (snd (fst a)) ->
         SEIZSM.state (SEIZSM.agents mo w) = Infected /\
         (SEIZSM.T mo <=?
          SEIZSM.compute_toxicity (SEIZSM.agents mo w))%float = true)
    (SEIZSM.send_one mo) senders) as Hinv.
  assert (Hres :
    (fun a : (node -> SEIZSM.Agent) * list node * G =>
       sm_follows send_rule (SEIZSM.agents mo) (fst (fst a)) /\
       forall w, In w (snd (fst a)) ->
         SEIZSM.state (SEIZSM.agents mo w) = Infected /\
         (SEIZSM.T mo <=?
          SEIZSM.compute_toxicity (SEIZSM.agents mo w))%float = true)
    (fold_left (SEIZSM.send_one mo) senders (SEIZSM.agents mo, [], g0))).
  { apply Hinv.
    - intros [[ag' tox'] g'] sender _ [Hf Ht].
      pose proof (send_one_rules mo ag' tox' g' sender) as [Hf' Ht'].
      cbn [fst snd] in Hf, Ht. split.
      + eapply sm_follows_trans; [exact send_rule_trans | exact Hf | exact Hf'].
      + intros w Hw. destruct (Ht' w Hw) as [Hin|(-> & Hs & HT)];
          [now apply Ht|].
        destruct (Hf sender) as [Hr Hp]. rewrite Hs in Hr. split.
        * destruct (SEIZSM.state (SEIZSM.agents mo sender)); cbn in Hr;
            congruence.
        * rewrite <- (toxicity_profile _ _ Hp). exact HT.
    - split; [apply sm_follows_refl; exact send_rule_refl|].
      intros w []. }
  clear Hinv. cbv beta in Hres.
  destruct (fold_left (SEIZSM.send_one mo) senders (SEIZSM.agents mo, [], g0))
    as [[ag tox] g2].
  intros [= <- <- <-]. split; [reflexivity|]. exact Hres.
Qed.

(** [spread_toxicity]: the states move along [spread_rule], and a node
    leaves the susceptible state only as a listed neighbour of a toxic
    sender. *)
Lemma spread_toxicity_rules (mo mo2 : SEIZSM.SEIZSMModel) (g g2 : G)
      (toxic : list node) :
  SEIZSM.spread_toxicity mo toxic g = Ok (mo2, g2) ->
  mo2 = SEIZSM.with_agents mo (SEIZSM.agents mo2) /\
  sm_follows spread_rule (SEIZSM.agents mo) (SEIZSM.agents mo2) /\
  forall u, SEIZSM.state (SEIZSM.agents mo u) = Susceptible ->
            SEIZSM.state (SEIZSM.agents mo2 u) <> Susceptible ->
    exists w ns, In w toxic /\
                 neighbors (SEIZSM.sm_graph mo) w = Ok ns /\ In u ns.
Proof.
  unfold SEIZSM.spread_toxicity.
  set (J := fun a : (node -> SEIZSM.Agent) * G =>
    sm_follows spread_rule (SEIZSM.agents mo) (fst a) /\
    forall u, SEIZSM.state (SEIZSM.agents mo u) = Susceptible ->
              SEIZSM.state (fst a u) <> Susceptible ->
      exists w ns, In w toxic /\
                   neighbors (SEIZSM.sm_graph mo) w = Ok ns /\ In u ns).
  destruct (foldM _ toxic (SEIZSM.agents mo, g)) as [[ag g1]|e] eqn:Hfold;
    cbn [bind]; [|discriminate].
  intros [= <- <-]. split; [reflexivity|].
  cbn [SEIZSM.agents SEIZSM.with_agents].
  change (J (ag, g1)).
  apply (foldM_keeps J _ toxic) with (a := (SEIZSM.agents mo, g))
                                     (2 := Hfold).
  - intros a w a' Hw Hbody Ha.
    destruct (neighbors (SEIZSM.sm_graph mo) w) as [ns|e] eqn:Hns;
      cbn [bind] in Hbody; [|discriminate].
    injection Hbody as <-.
    apply (fold_left_inv J (SEIZSM.spread_one mo) ns); [|exact Ha].
    intros [ag' g'] x Hx [Hf Hsp]. cbn [fst] in Hf, Hsp.
    assert (Hone : sm_follows spread_rule ag'
                     (fst (SEIZSM.spread_one mo (ag', g') x)) /\
                   forall u, u <> x ->
                     fst (SEIZSM.spread_one mo (ag', g') x) u = ag' u).
    { unfold SEIZSM.spread_one.
      destruct (SEIZSM.state (ag' x)) eqn:Hsx;
        try (cbn [fst]; split;
             [apply sm_follows_refl; exact spread_rule_refl | reflexivity]);
        destruct (rng_random g') as [u1 g1'];
        match goal with |- context [if ?c then _ else _] => destruct c end;
        try (cbn [fst]; split;
             [apply sm_follows_refl; exact spread_rule_refl | reflexivity]).
      - destruct (rng_random g1') as [u2 g2']. cbn [fst]. split.
        + apply sm_follows_set_state; [exact spread_rule_refl|].
          rewrite Hsx. destruct (u2 <? SEIZSM.p mo)%float; reflexivity.
        + intros u Hu. unfold SEIZSM.set_state. now apply upd_other.
      - cbn [fst]. split.
        + apply sm_follows_set_state; [exact spread_rule_refl|].
          now rewrite Hsx.
        + intros u Hu. unfold SEIZSM.set_state. now apply upd_other. }
    destruct Hone as [Hone Hother]. split.
    + eapply sm_follows_trans; [exact spread_rule_trans | exact Hf | exact Hone].
    + intros u Hu0 Hu1. destruct (Nat.eq_dec u x) as [->|Hn].
      * exists w, ns. now repeat split.
      * apply Hsp; [exact Hu0|]. now rewrite <- (Hother u Hn).
  - split; [apply sm_follows_refl; exact spread_rule_refl|].
    intros u Hu0 Hu1. contradiction.
Qed.

Lemma internal_transitions_rules (mo : SEIZSM.SEIZSMModel) (g : G) :
  let r := SEIZSM.internal_transitions mo g in
  fst r = SEIZSM.with_agents mo (SEIZSM.agents (fst r)) /\
  sm_follows internal_rule (SEIZSM.agents mo) (SEIZSM.agents (fst r)).
Proof.
  unfold SEIZSM.internal_transitions.
  pose proof (fold_left_inv
    (fun a : (node -> SEIZSM.Agent) * G =>
       sm_follows internal_rule (SEIZSM.agents mo) (fst a))
    (SEIZSM.internal_one mo) (nodes (SEIZSM.sm_graph mo))) as Hinv.
  destruct (fold_left _ _ (SEIZSM.agents mo, g)) as [ag g1] eqn:Hfold.
  cbn [fst SEIZSM.agents SEIZSM.with_agents]. split; [reflexivity|].
  change ag with (fst (ag, g1)). rewrite <- Hfold. apply Hinv.
  - intros [ag' g'] v _ Hf. cbn [fst] in Hf.
    eapply sm_follows_trans; [exact internal_rule_trans | exact Hf |].
    unfold SEIZSM.internal_one.
    destruct (SEIZSM.state (ag' v)) eqn:Hs;
      try (apply sm_follows_refl; exact internal_rule_refl).
    destruct (rng_random g') as [u1 g1'].
    destruct (u1 <? SEIZSM.epsilon mo)%float.
    + cbn [fst]. apply sm_follows_set_state; [exact internal_rule_refl|].
      now rewrite Hs.
    + destruct (rng_random g1') as [u2 g2'].
      destruct (u2 <? SEIZSM.lambd mo)%float; cbn [fst];
        [|apply sm_follows_refl; exact internal_rule_refl].
      apply sm_follows_set_state; [exact internal_rule_refl|].
      now rewrite Hs.
  - apply sm_follows_refl. exact internal_rule_refl.
Qed.

Lemma sm_step_rules (mo mo' : SEIZSM.SEIZSMModel) (g g' : G) :
  SEIZSM.sm_step mo g = Ok (mo', g') ->
  forall u,
    may_become (SmartModerator mo) (SEIZSM.state (SEIZSM.agents mo u))
               (SEIZSM.state (SEIZSM.agents mo' u)) = true /\
    SEIZSM.profile (SEIZSM.agents mo' u) =
    SEIZSM.profile (SEIZSM.agents mo u) /\
    (SEIZSM.state (SEIZSM.agents mo u) = Susceptible ->
     SEIZSM.state (SEIZSM.agents mo' u) <> Susceptible ->
     exists w, spreader (SmartModerator mo) u w).
Proof.
  unfold SEIZSM.sm_step. intros Hstep u.
  destruct (SEIZSM.send_messages mo g) as [[[mo1 toxic] g1]|e] eqn:Hsend;
    cbn [bind] in Hstep; [|discriminate].
  destruct (SEIZSM.spread_toxicity mo1 toxic g1) as [[mo2 g2]|e] eqn:Hspread;
    cbn [bind] in Hstep; [|discriminate].
  unfold Ok in Hstep. injection Hstep as Hstep.
  pose proof (internal_transitions_rules mo2 g2) as [_ H3].
  rewrite Hstep in H3. cbn [fst] in H3.
  destruct (send_messages_rules mo mo1 g g1 toxic Hsend) as (E1 & H1 & Ht).
  destruct (spread_toxicity_rules mo1 mo2 g1 g2 toxic Hspread)
    as (E2 & H2 & Hsp).
  destruct (H1 u) as [R1 P1], (H2 u) as [R2 P2], (H3 u) as [R3 P3].
  split; [|split].
  - destruct (SEIZSM.state (SEIZSM.agents mo u)),
             (SEIZSM.state (SEIZSM.agents mo1 u)),
             (SEIZSM.state (SEIZSM.agents mo2 u)),
             (SEIZSM.state (SEIZSM.agents mo' u));
      cbn in R1, R2, R3 |- *; congruence.
  - congruence.
  - intros Hu0 Hu3.
    assert (Hu1 : SEIZSM.state (SEIZSM.agents mo1 u) = Susceptible).
    { rewrite Hu0 in R1. destruct (SEIZSM.state (SEIZSM.agents mo1 u));
        cbn in R1; congruence. }
    assert (Hu2 : SEIZSM.state (SEIZSM.agents mo2 u) <> Susceptible).
    { intros Hu2. rewrite Hu2 in R3.
      destruct (SEIZSM.state (SEIZSM.agents mo' u)); cbn in R3; congruence. }
    destruct (Hsp u Hu1 Hu2) as (w & ns & Hw & Hns & Hin).
    exists w. cbn [spreader]. rewrite E1 in Hns. cbn in Hns.
    split; [exists ns; now split | now apply Ht].
Qed.
End SmartRules.

Section StepRules.
Context {G : Type} `{RandomGen G}.

(** What one step does to each node, in every class. *)
Lemma step_moves (v : Variant) (g : G) :
  well_formed v ->
  exists v' g',
    step v g = Ok (v', g') /\ same_class v v' = true /\
    forall u,
      may_become v (state_of v u) (state_of v' u) = true /\
      (state_of v u = Susceptible -> state_of v' u <> Susceptible ->
       exists w, spreader v u w).
Proof.
  intros Hwf. destruct (step_ok v g Hwf) as (v' & g' & Hs & _).
  exists v', g'. split; [exact Hs|].
  destruct v as [m|m|m]; cbn [step Variant_model lift] in Hs.
  - change (step m g) with (SEIZ.seiz_step m g) in Hs.
    destruct (SEIZ.seiz_step m g) as [[m' g1]|e] eqn:Hm; cbn [fmap] in Hs;
      [|discriminate].
    injection Hs as <- <-. split; [reflexivity|].
    exact (baseline_step_rules m m' g g1 Hwf Hm).
  - change (step m g) with (SEIZBM.bm_step m g) in Hs.
    destruct (SEIZBM.bm_step m g) as [[m' g1]|e] eqn:Hm; cbn [fmap] in Hs;
      [|discriminate].
    injection Hs as <- <-. split; [reflexivity|].
    exact (bm_step_rules m m' g g1 Hm).
  - change (step m g) with (SEIZSM.sm_step m g) in Hs.
    destruct (SEIZSM.sm_step m g) as [[m' g1]|e] eqn:Hm; cbn [fmap] in Hs;
      [|discriminate].
    injection Hs as <- <-. split; [reflexivity|].
    intros u. destruct (sm_step_rules m m' g g1 Hm u) as (Ha & _ & Hb).
    now split.
Qed.

(** The transitions of one step.  On a well-formed model of any of the
    three classes [step] returns, and every node moves along an edge of the
    transition table of its class ([may_become]): no class moves a skeptic
    node, only the basic moderator returns a node to the susceptible state,
    only the smart moderator makes an exposed or infected node skeptic.  A
    susceptible node changes state only if it has a [spreader]: with no
    infected (and, outside the smart moderator, no skeptic) contact it
    stays susceptible. *)
Theorem step_transitions (v : Variant) (g : G) :
  well_formed v ->
  exists v' g',
    step v g = Ok (v', g') /\ same_class v v' = true /\
    forall u,
      may_become v (state_of v u) (state_of v' u) = true /\
      (state_of v u = Susceptible -> state_of v' u <> Susceptible ->
       exists w, spreader v u w).
Proof.
  intros Hwf. destruct (step_ok v g Hwf) as (v' & g' & Hs & _).
  exists v', g'. split; [exact Hs|].
  destruct v as [m|m|m]; cbn [step Variant_model lift] in Hs.
  - change (step m g) with (SEIZ.seiz_step m g) in Hs.
    destruct (SEIZ.seiz_step m g) as [[m' g1]|e] eqn:Hm; cbn [fmap] in Hs;
      [|discriminate].
    injection Hs as <- <-. split; [reflexivity|].
    exact (baseline_step_rules m m' g g1 Hwf Hm).
  - change (step m g) with (SEIZBM.bm_step m g) in Hs.
    destruct (SEIZBM.bm_step m g) as [[m' g1]|e] eqn:Hm; cbn [fmap] in Hs;
      [|discriminate].
    injection Hs as <- <-. split; [reflexivity|].
    exact (bm_step_rules m m' g g1 Hm).
  - change (step m g) with (SEIZSM.sm_step m g) in Hs.
    destruct (SEIZSM.sm_step m g) as [[m' g1]|e] eqn:Hm; cbn [fmap] in Hs;
      [|discriminate].
    injection Hs as <- <-. split; [reflexivity|].
    intros u. destruct (sm_step_rules m m' g g1 Hm u) as (Ha & _ & Hb).
    now split.
Qed.

Lemma steps_snoc {M : Type} `{EpidemicModel (G:=G) M} (k : nat) :
  forall (m : M) (g : G),
  steps (Datatypes.S k) m g = ('(m', g') <- steps k m g ;; step m' g').
Proof.
  induction k as [|k IH]; intros m g.
  - simpl. destruct (step m g) as [[m' g']|e]; reflexivity.
  - change (steps (Datatypes.S (Datatypes.S k)) m g)
      with ('(m', g') <- step m g ;; steps (Datatypes.S k) m' g').
    change (steps (Datatypes.S k) m g)
      with ('(m', g') <- step m g ;; steps k m' g').
    destruct (step m g) as [[m1 g1]|e]; cbn [bind]; [|reflexivity].
    apply IH.
Qed.

Lemma filter_length_le {A} (q q' : A -> bool) (xs : list A) :
  (forall x, In x xs -> q x = true -> q' x = true) ->
  (length (filter q xs) <= length (filter q' xs))%nat.
Proof.
  induction xs as [|x xs IH]; intros Hq; cbn [filter]; [lia|].
  assert (IH' := IH (fun y Hy => Hq y (or_intror Hy))).
  pose proof (Hq x (or_introl eq_refl)) as Hx.
  destruct (q x), (q' x); cbn [length]; try lia.
Qed.

(** The counts after a step against the counts before it. *)
Lemma step_counts (v v' : Variant) (g g' : G) :
  well_formed v -> step v g = Ok (v', g') ->
  population Skeptic (get_states v) <= population Skeptic (get_states v') /\
  (recovers v = false ->
   population Susceptible (get_states v') <=
   population Susceptible (get_states v)).
Proof.
  intros Hwf Hs.
  destruct (step_ok v g Hwf) as (v1 & g1 & Hs1 & Hg & Hwf' & _).
  destruct (step_moves v g Hwf) as (v2 & g2 & Hs2 & _ & Hrule).
  rewrite Hs in Hs1, Hs2. injection Hs1 as <- <-. injection Hs2 as <- _.
  rewrite (get_states_table v Hwf), (get_states_table v' Hwf'), Hg.
  rewrite !population_table. split.
  - apply inj_le, filter_length_le. intros u _ Hu.
    destruct (Hrule u) as [Hm _].
    destruct (state_of v u), (state_of v' u); cbn in Hu, Hm |- *;
      try congruence; destruct v; discriminate.
  - intros Hr. apply inj_le, filter_length_le. intros u _ Hu.
    destruct (Hrule u) as [Hm _].
    destruct (state_of v u), (state_of v' u); cbn in Hu, Hm |- *;
      try congruence; destruct v; discriminate.
Qed.

Lemma step_same_class (v v' : Variant) (g g' : G) :
  step v g = Ok (v', g') -> recovers v' = recovers v.
Proof.
  intros Hs. destruct v as [m|m|m]; cbn [step Variant_model lift] in Hs;
    destruct (step m g) as [[m' g1]|e]; cbn [fmap] in Hs;
    try discriminate; now injection Hs as <- _.
Qed.

(** The history of a run, record after record: the count of skeptic nodes
    never goes down, and outside the basic moderator the count of
    susceptible nodes never goes up. *)
Theorem run_counts_monotone (v : Variant) (old_history : list Counts)
    (old_step : BinNums.Z) (k : BinNums.Z) (g : G) :
  well_formed v -> 0 <= k ->
  exists h o' g',
    run (mkModel v old_history old_step) k g = Ok (h, o', g') /\
    forall i r r', 0 <= i < k ->
      nth_error h (Z.to_nat i) = Some r ->
      nth_error h (Z.to_nat (i + 1)) = Some r' ->
      count_of r "Z" <= count_of r' "Z" /\
      (recovers v = false -> count_of r' "S" <= count_of r "S").
Proof.
  intros Hwf Hk.
  destruct (run_spec
              (fun v' => well_formed v' /\ recovers v' = recovers v)
              (fun v1 g1 (Hv1 : well_formed v1 /\ recovers v1 = recovers v) =>
                 match step_ok v1 g1 (proj1 Hv1) with
                 | ex_intro _ v2 (ex_intro _ g2 (conj Hs (conj _ (conj Hw _)))) =>
                     ex_intro _ v2 (ex_intro _ g2
                       (conj Hs (conj Hw
                          (eq_trans (step_same_class v1 v2 g1 g2 Hs)
                                    (proj2 Hv1)))))
                 end)
              (mkModel v old_history old_step) k g)
    as (h & o' & g' & Hr & _ & _ & _ & Hrec);
    [split; [exact Hwf | reflexivity] | exact Hk |].
  cbn [self] in *. exists h, o', g'. split; [exact Hr|].
  intros i r r' Hi Hn Hn'.
  destruct (Hrec i) as (v_i & g_i & Hsi & [Hwi Hci] & Hni); [lia|].
  destruct (Hrec (i + 1)) as (v_j & g_j & Hsj & _ & Hnj); [lia|].
  rewrite Hn in Hni. injection Hni as ->.
  rewrite Hn' in Hnj. injection Hnj as ->.
  replace (Z.to_nat (i + 1)) with (Datatypes.S (Z.to_nat i)) in Hsj by lia.
  rewrite steps_snoc, Hsi in Hsj. cbn [bind] in Hsj.
  destruct (step_counts v_i v_j g_i g_j Hwi Hsj) as [Hz Hsus].
  unfold count_of.
  rewrite (snapshot_get v_i i Skeptic), (snapshot_get v_j (i + 1) Skeptic).
  rewrite (snapshot_get v_i i Susceptible),
    (snapshot_get v_j (i + 1) Susceptible).
  split; [exact Hz|]. intros Hrv. apply Hsus. congruence.
Qed.
End StepRules.

Lemma step_transitions_witness :
  let v := SmartModerator Examples.smart10_mixed in
  exists v' g',
    step v (Lcg.seed 9) = Ok (v', g') /\ same_class v v' = true /\
    forall u,
      may_become v (state_of v u) (state_of v' u) = true /\
      (state_of v u = Susceptible -> state_of v' u <> Susceptible ->
       exists w, spreader v u w).
Proof.
  apply (step_transitions (SmartModerator Examples.smart10_mixed)
           (Lcg.seed 9)).
  split; [exact (check_graph_ok (path 10) eq_refl) | discriminate].
Defined.

Lemma run_counts_monotone_witness :
  let v := Baseline Examples.baseline10_mixed in
  exists h o' g',
    run (mkModel v [] 0) 5 (Lcg.seed 5) = Ok (h, o', g') /\
    forall i r r', 0 <= i < 5 ->
      nth_error h (Z.to_nat i) = Some r ->
      nth_error h (Z.to_nat (i + 1)) = Some r' ->
      count_of r "Z" <= count_of r' "Z" /\
      (recovers v = false -> count_of r' "S" <= count_of r "S").
Proof.
  apply (run_counts_monotone (Baseline Examples.baseline10_mixed) [] 0 5
           (Lcg.seed 5)).
  - split; [exact (check_graph_ok (path 10) eq_refl) | reflexivity].
  - lia.
Defined.

(* ================================================================== *)
(** * Parameters of the smart moderator                                *)
(* ================================================================== *)

Section SmartParameters.
Context {G : Type} `{RandomGen G}.

(** The smart moderator stores [b] and [l] and never reads them: two
    objects that differ only there take the same step, draw for draw. *)
Theorem sm_step_ignores_b_l (mo1 mo2 : SEIZSM.SEIZSMModel) (g : G) :
  same_but_b_l mo1 mo2 ->
  SEIZSM.sm_step mo2 g =
  fmap (fun r => (SEIZSM.with_agents mo2 (SEIZSM.agents (fst r)), snd r))
       (SEIZSM.sm_step mo1 g).
Proof.
  destruct mo1 as [gr1 pa1 beta1 b1 rho1 p1 eps1 l1 n1 th1 T1 eta1 la1 ag1],
           mo2 as [gr2 pa2 beta2 b2 rho2 p2 eps2 l2 n2 th2 T2 eta2 la2 ag2].
  unfold same_but_b_l. cbn [SEIZSM.sm_graph SEIZSM.agents SEIZSM.beta
    SEIZSM.rho SEIZSM.p SEIZSM.epsilon SEIZSM.n SEIZSM.theta SEIZSM.T
    SEIZSM.eta SEIZSM.lambd].
  intros (-> & -> & [= -> -> -> ->] & [= -> ->] & [= -> -> ->]).
  unfold SEIZSM.sm_step, SEIZSM.send_messages.
  cbn [SEIZSM.sm_graph SEIZSM.agents SEIZSM.n].
  destruct (sample _ _ g) as [[senders g0]|e]; cbn [bind fmap]; [|reflexivity].
  change (SEIZSM.send_one
            (SEIZSM.mkSEIZSM gr2 pa1 beta2 b1 rho2 p2 eps2 l1 n2 th2 T2 eta2
                             la2 ag2))
    with (SEIZSM.send_one
            (SEIZSM.mkSEIZSM gr2 pa2 beta2 b2 rho2 p2 eps2 l2 n2 th2 T2 eta2
                             la2 ag2)).
  destruct (fold_left _ senders _) as [[ag tox] g1].
  unfold Ok. cbn [bind].
  unfold SEIZSM.spread_toxicity, SEIZSM.with_agents.
  cbn [SEIZSM.sm_graph SEIZSM.agents SEIZSM.sm_params SEIZSM.beta SEIZSM.b
       SEIZSM.rho SEIZSM.p SEIZSM.epsilon SEIZSM.l SEIZSM.n SEIZSM.theta
       SEIZSM.T SEIZSM.eta SEIZSM.lambd].
  change (SEIZSM.spread_one
            (SEIZSM.mkSEIZSM gr2 pa1 beta2 b1 rho2 p2 eps2 l1 n2 th2 T2 eta2
                             la2 ag))
    with (SEIZSM.spread_one
            (SEIZSM.mkSEIZSM gr2 pa2 beta2 b2 rho2 p2 eps2 l2 n2 th2 T2 eta2
                             la2 ag)).
  destruct (foldM _ tox (ag, g1)) as [[ag' g2]|e]; unfold Ok;
    cbn [bind fmap]; [|reflexivity].
  unfold SEIZSM.internal_transitions.
  cbn [SEIZSM.sm_graph SEIZSM.agents].
  change (SEIZSM.internal_one
            (SEIZSM.mkSEIZSM gr2 pa1 beta2 b1 rho2 p2 eps2 l1 n2 th2 T2 eta2
                             la2 ag'))
    with (SEIZSM.internal_one
            (SEIZSM.mkSEIZSM gr2 pa2 beta2 b2 rho2 p2 eps2 l2 n2 th2 T2 eta2
                             la2 ag')).
  destruct (fold_left _ (nodes gr2) (ag', g2)) as [ag'' g3].
  reflexivity.
Qed.

(** [n] is not checked by the constructor; a negative [n] makes
    [random.sample] raise [ValueError] in every step, and with it every
    run of at least one step. *)
Theorem sm_negative_n_raises (mo : SEIZSM.SEIZSMModel) (g : G)
    (old_history : list Counts) (old_step k : BinNums.Z) :
  SEIZSM.n mo < 0 -> 0 < k ->
  SEIZSM.sm_step mo g = Raise sample_error /\
  run (mkModel (SmartModerator mo) old_history old_step) k g =
  Raise sample_error.
Proof.
  intros Hn Hk.
  assert (Hstep : SEIZSM.sm_step mo g = Raise sample_error).
  { unfold SEIZSM.sm_step, SEIZSM.send_messages, sample.
    replace (Z.min (SEIZSM.n mo)
                   (Z.of_nat (length (nodes (SEIZSM.sm_graph mo)))) <? 0)
      with true by lia.
    reflexivity. }
  split; [exact Hstep|].
  unfold run. rewrite range_cons by lia. cbn [foldM]. unfold run_body at 1.
  cbn [self history current_step step Variant_model lift].
  change (step mo g) with (SEIZSM.sm_step mo g). rewrite Hstep. reflexivity.
Qed.
End SmartParameters.

Lemma sm_step_ignores_b_l_witness :
  let mo1 := Examples.smart10_mixed in
  let mo2 :=
    SEIZSM.mkSEIZSM (SEIZSM.sm_graph mo1) [] (SEIZSM.beta mo1) 0.9%float
      (SEIZSM.rho mo1) (SEIZSM.p mo1) (SEIZSM.epsilon mo1) 0.9%float
      (SEIZSM.n mo1) (SEIZSM.theta mo1) (SEIZSM.T mo1) (SEIZSM.eta mo1)
      (SEIZSM.lambd mo1) (SEIZSM.agents mo1) in
  SEIZSM.sm_step mo2 (Lcg.seed 9) =
  fmap (fun r => (SEIZSM.with_agents mo2 (SEIZSM.agents (fst r)), snd r))
       (SEIZSM.sm_step mo1 (Lcg.seed 9)).
Proof.
  apply (sm_step_ignores_b_l Examples.smart10_mixed).
  repeat split; reflexivity.
Defined.

Lemma sm_negative_n_raises_witness :
  let mo :=
    self (fst (SEIZSM.init (path 10) 0.3%float 0.2%float 0.2%float 0.5%float
                 0.1%float 0.4%float (-1) 3 0.5%float 0.3%float 0.1%float
                 (Lcg.seed 1))) in
  SEIZSM.sm_step mo (Lcg.seed 2) = Raise sample_error /\
  run (mkModel (SmartModerator mo) [] 0) 5 (Lcg.seed 2) = Raise sample_error.
Proof.
  apply (sm_negative_n_raises
           (self (fst (SEIZSM.init (path 10) 0.3%float 0.2%float 0.2%float
                         0.5%float 0.1%float 0.4%float (-1) 3 0.5%float
                         0.3%float 0.1%float (Lcg.seed 1))))
           (Lcg.seed 2) [] 0 5); reflexivity.
Defined.

(* ================================================================== *)
(** * The bookkeeping of the smart moderator                           *)
(* ================================================================== *)

Section SmartInit.
Context {G : Type} `{RandomGen G}.

Lemma reset_one (ag : node -> SEIZSM.Agent) (g : G) (x : node) :
  exists pr g',
    SEIZSM.reset (ag, g) x =
    (upd ag x (SEIZSM.mkAgent Susceptible pr 0 0), g') /\
    length pr = 3%nat.
Proof.
  unfold SEIZSM.reset, SEIZSM.draw_profile.
  destruct (rng_random g) as [x1 g1]. destruct (rng_random g1) as [x2 g2].
  destruct (rng_random g2) as [x3 g3]. now exists [x1; x2; x3], g3.
Qed.

Lemma reset_fold (xs : list node) :
  forall (acc : (node -> SEIZSM.Agent) * G) u,
    (In u xs -> reset_agent (fst (fold_left SEIZSM.reset xs acc) u)) /\
    (~ In u xs -> fst (fold_left SEIZSM.reset xs acc) u = fst acc u).
Proof.
  induction xs as [|x xs IH]; intros [ag g] u; cbn [fold_left].
  - split; [intros [] | reflexivity].
  - destruct (reset_one ag g x) as (pr & g3 & -> & Hpr).
    destruct (IH (upd ag x (SEIZSM.mkAgent Susceptible pr 0 0), g3) u)
      as [Hin Hout].
    cbn [fst] in Hout |- *. split.
    + intros [->|Hu].
      * destruct (in_dec Nat.eq_dec u xs) as [Hi|Hn]; [now apply Hin|].
        rewrite (Hout Hn), upd_same. now repeat split.
      * now apply Hin.
    + intros Hn. rewrite Hout by (intros Hi; apply Hn; now right).
      apply upd_other. intros ->. apply Hn. now left.
Qed.

Lemma sm_assign_keeps (xs : list node) (s : State) ag i ag' :
  SEIZSM.assign xs s ag i = Ok ag' ->
  forall u, same_but_state (ag u) (ag' u) /\ (~ In u xs -> ag' u = ag u).
Proof.
  unfold SEIZSM.assign. destruct (getitem xs i) as [v|e] eqn:Hv;
    cbn [bind]; [|discriminate].
  intros [= <-] u. unfold SEIZSM.set_state, upd.
  destruct (Nat.eqb_spec u v) as [->|Hn].
  - split; [repeat split|]. intros Hu. elim Hu. eapply getitem_In; eauto.
  - split; [repeat split | reflexivity].
Qed.

Lemma sm_assign_loop (xs : list node) (s : State) (idx : list BinNums.Z) :
  forall ag ag', foldM (SEIZSM.assign xs s) idx ag = Ok ag' ->
  forall u, same_but_state (ag u) (ag' u) /\ (~ In u xs -> ag' u = ag u).
Proof.
  intros ag ag' Hfold.
  apply (foldM_keeps
           (fun a => forall u, same_but_state (ag u) (a u) /\
                               (~ In u xs -> a u = ag u))
           (SEIZSM.assign xs s) idx) with (2 := Hfold).
  - intros a i a' _ Ha Hinv u.
    destruct (sm_assign_keeps xs s a i a' Ha u) as [(P1 & P2 & P3) Hout].
    destruct (Hinv u) as [(Q1 & Q2 & Q3) Hout'].
    split; [repeat split; congruence|].
    intros Hu. rewrite (Hout Hu). now apply Hout'.
  - intros u. split; [repeat split | reflexivity].
Qed.

(** [initialize_states] of the smart moderator, beside the states: every
    agent of the network gets a fresh profile of three traits and both its
    counters back at 0, whatever they were, and nothing outside the
    network is touched. *)
Theorem sm_initialize_states_resets (mo mo' : SEIZSM.SEIZSMModel)
    (infected_frac skeptic_frac : float) (seed : option BinNums.Z)
    (g g' : G) :
  SEIZSM.sm_initialize_states mo infected_frac skeptic_frac seed g =
  Ok (mo', g') ->
  forall u,
    (In u (nodes (SEIZSM.sm_graph mo)) ->
     reset_agent (SEIZSM.agents mo' u)) /\
    (~ In u (nodes (SEIZSM.sm_graph mo)) ->
     SEIZSM.agents mo' u = SEIZSM.agents mo u).
Proof.
  unfold SEIZSM.sm_initialize_states.
  pose proof (rng_shuffle_perm (nodes (SEIZSM.sm_graph mo))
                (seed_if_given seed g)) as Hperm.
  destruct (rng_shuffle _ (seed_if_given seed g)) as [xs g0].
  cbn [fst] in Hperm.
  pose proof (reset_fold xs (SEIZSM.agents mo, g0)) as Hreset.
  destruct (fold_left SEIZSM.reset xs (SEIZSM.agents mo, g0)) as [ag1 g1].
  cbn [fst] in Hreset.
  destruct (int_of_float _) as [ni|e]; cbn [bind]; [|discriminate].
  destruct (foldM _ (range 0 ni) ag1) as [ag2|e] eqn:H2; cbn [bind];
    [|discriminate].
  destruct (int_of_float _) as [nz|e]; cbn [bind]; [|discriminate].
  destruct (foldM _ (range ni (ni + nz)) ag2) as [ag3|e] eqn:H3; cbn [bind];
    [|discriminate].
  intros [= <- _] u. cbn [SEIZSM.agents SEIZSM.with_agents].
  destruct (sm_assign_loop xs Infected _ ag1 ag2 H2 u)
    as [(P1 & P2 & P3) Hout2].
  destruct (sm_assign_loop xs Skeptic _ ag2 ag3 H3 u)
    as [(Q1 & Q2 & Q3) Hout3].
  destruct (Hreset u) as [Hin Hout]. split.
  - intros Hu. destruct Hin as (R1 & R2 & R3).
    { eapply Permutation_in; eauto. }
    unfold reset_agent. rewrite Q1, Q2, Q3, P1, P2, P3. now repeat split.
  - intros Hu.
    assert (Hx : ~ In u xs).
    { intros Hi. apply Hu. eapply Permutation_in;
        [apply Permutation_sym; exact Hperm | exact Hi]. }
    now rewrite (Hout3 Hx), (Hout2 Hx), (Hout Hx).
Qed.
End SmartInit.

Lemma sm_initialize_states_resets_witness :
  exists mo' g',
    SEIZSM.sm_initialize_states Examples.smart10_mixed 0.2%float 0.1%float
      (Some 42) (Lcg.seed 0) = Ok (mo', g') /\
    forall u,
      (In u (nodes (path 10)) -> reset_agent (SEIZSM.agents mo' u)) /\
      (~ In u (nodes (path 10)) ->
       SEIZSM.agents mo' u = SEIZSM.agents Examples.smart10_mixed u).
Proof.
  destruct (SEIZSM.sm_initialize_states Examples.smart10_mixed 0.2%float
              0.1%float (Some 42) (Lcg.seed 0)) as [[mo' g']|e] eqn:Hinit.
  - exists mo', g'. split; [reflexivity|].
    exact (sm_initialize_states_resets _ _ _ _ _ _ _ Hinit).
  - vm_compute in Hinit. discriminate Hinit.
Defined.

Section SmartActivity.
Context {G : Type} `{RandomGen G}.

Lemma activity_sum_ext ag ag' (ks : list node) :
  (forall u, In u ks ->
     SEIZSM.activity_level (ag' u) = SEIZSM.activity_level (ag u)) ->
  activity_sum ag' ks = activity_sum ag ks.
Proof.
  intros Hext. unfold activity_sum. f_equal. apply map_ext_in. exact Hext.
Qed.

Lemma activity_sum_upd ag v a (ks : list node) :
  NoDup ks ->
  activity_sum (upd ag v a) ks =
  activity_sum ag ks +
  (if in_dec Nat.eq_dec v ks
   then SEIZSM.activity_level a - SEIZSM.activity_level (ag v) else 0).
Proof.
  unfold activity_sum.
  induction ks as [|k ks IH]; intros Hnd; cbn [map fold_right];
    [reflexivity|].
  inversion Hnd as [|? ? Hk Hnd']; subst. rewrite (IH Hnd'). unfold upd at 1.
  destruct (Nat.eqb_spec k v) as [->|Hn].
  - destruct (in_dec Nat.eq_dec v (v :: ks)) as [_|Hc];
      [|elim Hc; now left].
    destruct (in_dec Nat.eq_dec v ks); [contradiction | lia].
  - destruct (in_dec Nat.eq_dec v (k :: ks)) as [[Hc|Hi]|Hni];
      destruct (in_dec Nat.eq_dec v ks) as [Hi'|Hni']; try lia;
      try contradiction; try congruence.
    elim Hni. now right.
Qed.

(** One sender: its agent is replaced by one whose activity level is one
    higher. *)
Lemma send_one_activity (mo : SEIZSM.SEIZSMModel) ag toxic (g : G) sender :
  exists a',
    fst (fst (SEIZSM.send_one mo (ag, toxic, g) sender)) = upd ag sender a' /\
    SEIZSM.activity_level a' = SEIZSM.activity_level (ag sender) + 1.
Proof.
  rewrite send_one_intervenes. cbv zeta.
  destruct (state_eqb _ _ && _).
  - pose proof (moderator_intervention_keeps mo
                  (SEIZSM.mkAgent (SEIZSM.state (ag sender))
                     (SEIZSM.profile (ag sender))
                     (SEIZSM.toxic_messages (ag sender) + 1)
                     (SEIZSM.activity_level (ag sender) + 1)) g)
      as (_ & Ha & _).
    destruct (SEIZSM.moderator_intervention mo _ g) as [a' g1].
    cbn [fst] in *. now exists a'.
  - cbn [fst]. eexists. split; reflexivity.
Qed.

Lemma send_fold_activity (mo : SEIZSM.SEIZSMModel) (ks senders : list node) :
  NoDup ks -> incl senders ks ->
  forall (acc : (node -> SEIZSM.Agent) * list node * G),
    let ag' := fst (fst (fold_left (SEIZSM.send_one mo) senders acc)) in
    activity_sum ag' ks =
    activity_sum (fst (fst acc)) ks + Z.of_nat (length senders) /\
    forall u, SEIZSM.activity_level (fst (fst acc) u) <=
              SEIZSM.activity_level (ag' u).
Proof.
  intros Hnd. induction senders as [|s senders IH]; intros Hincl acc.
  - cbn. split; [lia | intros; lia].
  - cbn [fold_left]. destruct acc as [[ag tox] g].
    destruct (send_one_activity mo ag tox g s) as (a' & Hupd & Hact).
    destruct (IH (fun x Hx => Hincl x (or_intror Hx))
                 (SEIZSM.send_one mo (ag, tox, g) s)) as [Hsum Hle].
    cbv zeta in Hsum, Hle |- *. rewrite Hupd in Hsum, Hle. cbn [fst].
    split.
    + rewrite Hsum, (activity_sum_upd ag s a' ks Hnd).
      destruct (in_dec Nat.eq_dec s ks) as [_|Hn];
        [|elim Hn; apply Hincl; now left].
      cbn [length]. lia.
    + intros u. specialize (Hle u). unfold upd in Hle.
      destruct (Nat.eqb_spec u s) as [Heq|_]; [rewrite Heq in *|]; lia.
Qed.

Lemma spread_toxicity_activity (mo mo2 : SEIZSM.SEIZSMModel) (g g2 : G)
      (toxic : list node) :
  SEIZSM.spread_toxicity mo toxic g = Ok (mo2, g2) ->
  forall u, SEIZSM.activity_level (SEIZSM.agents mo2 u) =
            SEIZSM.activity_level (SEIZSM.agents mo u).
Proof.
  unfold SEIZSM.spread_toxicity.
  set (J := fun a : (node -> SEIZSM.Agent) * G =>
    forall u, SEIZSM.activity_level (fst a u) =
              SEIZSM.activity_level (SEIZSM.agents mo u)).
  destruct (foldM _ toxic (SEIZSM.agents mo, g)) as [[ag g1]|e] eqn:Hfold;
    cbn [bind]; [|discriminate].
  intros [= <- <-]. cbn [SEIZSM.agents SEIZSM.with_agents].
  change (J (ag, g1)).
  apply (foldM_keeps J _ toxic) with (a := (SEIZSM.agents mo, g))
                                     (2 := Hfold).
  - intros a w a' _ Hbody Ha.
    destruct (neighbors (SEIZSM.sm_graph mo) w) as [ns|e];
      cbn [bind] in Hbody; [|discriminate].
    injection Hbody as <-.
    apply (fold_left_inv J (SEIZSM.spread_one mo) ns); [|exact Ha].
    intros [ag' g'] x _ Hj u. specialize (Hj u). cbn [fst] in Hj.
    rewrite <- Hj. unfold SEIZSM.spread_one.
    destruct (SEIZSM.state (ag' x)); try reflexivity;
      destruct (rng_random g') as [u1 g1'];
      match goal with |- context [if ?c then _ else _] => destruct c end;
      try reflexivity; try destruct (rng_random g1') as [u2 g2'];
      cbn [fst]; unfold SEIZSM.set_state, upd;
      destruct (Nat.eqb_spec u x) as [->|_]; reflexivity.
  - intros u. reflexivity.
Qed.

Lemma internal_one_activity (mo : SEIZSM.SEIZSMModel) ag (g : G) v u :
  SEIZSM.activity_level (fst (SEIZSM.internal_one mo (ag, g) v) u) =
  SEIZSM.activity_level (ag u).
Proof.
  unfold SEIZSM.internal_one.
  destruct (SEIZSM.state (ag v)); try reflexivity.
  destruct (rng_random g) as [u1 g1].
  destruct (u1 <? SEIZSM.epsilon mo)%float.
  - cbn [fst]. unfold SEIZSM.set_state, upd.
    destruct (Nat.eqb_spec u v) as [->|_]; reflexivity.
  - destruct (rng_random g1) as [u2 g2].
    destruct (u2 <? SEIZSM.lambd mo)%float; [|reflexivity].
    cbn [fst]. unfold SEIZSM.set_state, upd.
    destruct (Nat.eqb_spec u v) as [->|_]; reflexivity.
Qed.

Lemma internal_transitions_activity (mo : SEIZSM.SEIZSMModel) (g : G) :
  forall u,
    SEIZSM.activity_level
      (SEIZSM.agents (fst (SEIZSM.internal_transitions mo g)) u) =
    SEIZSM.activity_level (SEIZSM.agents mo u).
Proof.
  unfold SEIZSM.internal_transitions.
  pose proof (fold_left_inv
    (fun a : (node -> SEIZSM.Agent) * G =>
       forall u, SEIZSM.activity_level (fst a u) =
                 SEIZSM.activity_level (SEIZSM.agents mo u))
    (SEIZSM.internal_one mo) (nodes (SEIZSM.sm_graph mo))) as Hinv.
  specialize (Hinv
    (fun a v _ =>
       match a as a0
         return ((forall u, SEIZSM.activity_level (fst a0 u) =
                            SEIZSM.activity_level (SEIZSM.agents mo u)) ->
                 forall u,
                   SEIZSM.activity_level
                     (fst (SEIZSM.internal_one mo a0 v) u) =
                   SEIZSM.activity_level (SEIZSM.agents mo u))
       with
       | (ag', g') => fun Hj u => eq_trans (internal_one_activity mo ag' g' v u)
                                           (Hj u)
       end)
    (SEIZSM.agents mo, g) (fun u => eq_refl)).
  destruct (fold_left _ _ (SEIZSM.agents mo, g)) as [ag g1].
  exact Hinv.
Qed.
(** The activity levels count the messages sent.  A step of the smart
    moderator on a network of [N] nodes draws [min(n, N)] senders and adds
    one to the activity level of each: the levels of the network sum to
    [min(n, N)] more than before, and no level goes down. *)
Theorem sm_step_activity (mo mo' : SEIZSM.SEIZSMModel) (g g' : G) :
  wf_graph (SEIZSM.sm_graph mo) -> 0 <= SEIZSM.n mo ->
  SEIZSM.sm_step mo g = Ok (mo', g') ->
  total_activity mo' =
  total_activity mo +
  Z.min (SEIZSM.n mo) (number_of_nodes (SEIZSM.sm_graph mo)) /\
  forall u, SEIZSM.activity_level (SEIZSM.agents mo u) <=
            SEIZSM.activity_level (SEIZSM.agents mo' u).
Proof.
  intros [Hnd _] Hn Hstep. unfold SEIZSM.sm_step in Hstep.
  destruct (SEIZSM.send_messages mo g) as [[[mo1 toxic] g1]|e] eqn:Hsend;
    cbn [bind] in Hstep; [|discriminate].
  destruct (SEIZSM.spread_toxicity mo1 toxic g1) as [[mo2 g2]|e] eqn:Hspread;
    cbn [bind] in Hstep; [|discriminate].
  unfold Ok in Hstep. injection Hstep as Hstep.
  pose proof (internal_transitions_rules mo2 g2) as [E3 _].
  pose proof (internal_transitions_activity mo2 g2) as A3.
  rewrite Hstep in E3, A3. cbn [fst] in E3, A3.
  destruct (spread_toxicity_rules mo1 mo2 g1 g2 toxic Hspread) as (E2 & _).
  pose proof (spread_toxicity_activity mo1 mo2 g1 g2 toxic Hspread) as A2.
  unfold SEIZSM.send_messages, sample in Hsend.
  set (ks := nodes (SEIZSM.sm_graph mo)) in *.
  set (k := Z.min (SEIZSM.n mo) (Z.of_nat (length ks))) in *.
  assert (Hb : (k <? 0) || (Z.of_nat (length ks) <? k) = false).
  { apply orb_false_iff. split; apply Z.ltb_ge; lia. }
  rewrite Hb in Hsend.
  pose proof (rng_sample_incl ks (Z.to_nat k) g) as Hincl.
  pose proof (rng_sample_length ks (Z.to_nat k) g) as Hlen.
  destruct (rng_sample ks (Z.to_nat k) g) as [senders g0].
  cbn [fst] in Hincl, Hlen. unfold Ok in Hsend. cbn [bind] in Hsend.
  destruct (send_fold_activity mo ks senders Hnd Hincl
              (SEIZSM.agents mo, [], g0)) as [A1 L1].
  cbv zeta in A1, L1.
  destruct (fold_left (SEIZSM.send_one mo) senders (SEIZSM.agents mo, [], g0))
    as [[ag1 tox] g2'].
  injection Hsend as <- _ _.
  cbn [fst SEIZSM.agents SEIZSM.with_agents] in *.
  assert (Hg : SEIZSM.sm_graph mo' = SEIZSM.sm_graph mo).
  { rewrite E3, E2. reflexivity. }
  assert (Hact : forall u, SEIZSM.activity_level (SEIZSM.agents mo' u) =
                           SEIZSM.activity_level (ag1 u)).
  { intros u. now rewrite A3, A2. }
  split.
  - unfold total_activity. rewrite Hg. fold ks.
    rewrite (activity_sum_ext ag1 _ ks (fun u _ => Hact u)), A1.
    rewrite Hlen by lia. f_equal. unfold ks.
    rewrite <- (length_nodes (SEIZSM.sm_graph mo)). fold ks. fold k. lia.
  - intros u. rewrite Hact. apply L1.
Qed.
End SmartActivity.

Lemma sm_step_activity_witness :
  exists mo' g',
    SEIZSM.sm_step Examples.smart10_mixed (Lcg.seed 9) = Ok (mo', g') /\
    total_activity mo' = total_activity Examples.smart10_mixed + Z.min 5 10 /\
    forall u, SEIZSM.activity_level (SEIZSM.agents Examples.smart10_mixed u) <=
              SEIZSM.activity_level (SEIZSM.agents mo' u).
Proof.
  destruct (SEIZSM.sm_step Examples.smart10_mixed (Lcg.seed 9))
    as [[mo' g']|e] eqn:Hstep.
  - exists mo', g'. split; [reflexivity|].
    apply (sm_step_activity Examples.smart10_mixed mo' (Lcg.seed 9) g');
      [exact (check_graph_ok (path 10) eq_refl) | discriminate | exact Hstep].
  - vm_compute in Hstep. discriminate Hstep.
Defined.

(* ================================================================== *)
(** * Export and plot after a run                                      *)
(* ================================================================== *)

Lemma mapM_lookup (h : list Counts) (key : string) :
  (forall r, In r h -> Py.get r key <> None) ->
  mapM (fun r => lookup r key) h = Ok (map (fun r => count_of r key) h).
Proof.
  induction h as [|r h IH]; intros Hkey; cbn [mapM map]; [reflexivity|].
  rewrite IH by (intros r' Hr'; apply Hkey; now right).
  pose proof (Hkey r (or_introl eq_refl)) as Hr.
  unfold lookup, count_of. destruct (Py.get r key); [reflexivity|].
  contradiction.
Qed.

Section AfterRun.
Context {G : Type} `{RandomGen G}.

(** Once [run] has returned, the history is not empty and each of its
    records has the five keys: [plot] and [save_plot] do not raise, they
    draw the five columns of the history, [k + 1] points each, the steps
    being [0, ..., k]; and [to_json] exports that same history. *)
Theorem plot_after_run (v : Variant) (old_history : list Counts)
    (old_step k : BinNums.Z) (g : G) (title : option string)
    (filepath : string) (plots : dict string PlotData) :
  well_formed v -> 0 <= k ->
  exists h o' g' d,
    run (mkModel v old_history old_step) k g = Ok (h, o', g') /\
    plot o' title = Ok d /\
    save_plot o' filepath title plots = Ok (Py.set plots filepath d) /\
    fmap json_history (to_json o') = Ok h /\
    plot_steps d = range 0 (k + 1) /\
    [s_counts d; e_counts d; i_counts d; z_counts d] =
    map (fun key => map (fun r => count_of r key) h)
        ["S"; "E"; "I"; "Z"]%string /\
    Z.of_nat (length h) = k + 1.
Proof.
  intros Hwf Hk.
  destruct (run_spec (over v) (step_over v)
              (mkModel v old_history old_step) k g)
    as (h & o' & g' & Hr & Hh & _ & Hlen & Hrec);
    [split; [exact Hwf | reflexivity] | exact Hk |].
  assert (Hrecord : forall r, In r h ->
            exists v_i i, 0 <= i <= k /\ r = snapshot v_i i /\
                          nth_error h (Z.to_nat i) = Some r).
  { intros r Hin. apply In_nth_error in Hin as (j & Hj).
    assert (Hlt : (j < length h)%nat) by (apply nth_error_Some; congruence).
    destruct (Hrec (Z.of_nat j)) as (v_i & g_i & _ & _ & Hn); [lia|].
    rewrite Nat2Z.id in Hn. exists v_i, (Z.of_nat j).
    split; [lia|]. rewrite Nat2Z.id. split; congruence. }
  assert (Hkeys : forall s r, In r h -> Py.get r (state_name s) <> None).
  { intros s r Hin. destruct (Hrecord r Hin) as (v_i & i & _ & -> & _).
    rewrite (snapshot_get v_i i s). discriminate. }
  assert (Hstepkey : forall r, In r h -> Py.get r "step"%string <> None).
  { intros r Hin. destruct (Hrecord r Hin) as (v_i & i & _ & -> & _).
    rewrite snapshot_step. discriminate. }
  assert (Hsteps : map (fun r : Counts => count_of r "step") h =
                   range 0 (k + 1)).
  { apply nth_error_ext. intros j. rewrite nth_error_map.
    destruct (Nat.ltb_spec j (length h)) as [Hj|Hj].
    - destruct (Hrec (Z.of_nat j)) as (v_i & g_i & _ & _ & Hn); [lia|].
      rewrite Nat2Z.id in Hn. rewrite Hn, range_nth by lia. cbn [option_map].
      unfold count_of. rewrite snapshot_step. f_equal; lia.
    - rewrite (proj2 (nth_error_None h j)) by lia.
      rewrite (proj2 (nth_error_None (range 0 (k + 1)) j));
        [reflexivity | rewrite range_length; lia]. }
  assert (Hplot : exists d,
    plot_series o' title = Ok d /\ plot_steps d = range 0 (k + 1) /\
    [s_counts d; e_counts d; i_counts d; z_counts d] =
    map (fun key => map (fun r : Counts => count_of r key) h)
        ["S"; "E"; "I"; "Z"]%string).
  { unfold plot_series. rewrite Hh.
    destruct h as [|r0 h0] eqn:Eh; [cbn [length] in Hlen; lia|].
    rewrite <- Eh in *.
    rewrite (mapM_lookup h "step" Hstepkey).
    rewrite (mapM_lookup h "S" (Hkeys Susceptible)).
    rewrite (mapM_lookup h "E" (Hkeys Exposed)).
    rewrite (mapM_lookup h "I" (Hkeys Infected)).
    rewrite (mapM_lookup h "Z" (Hkeys Skeptic)).
    cbn [bind Ok]. eexists. split; [reflexivity|]. cbn. now split. }
  destruct Hplot as (d & Hd & Hds & Hcols).
  exists h, o', g', d. split; [exact Hr|]. split; [exact Hd|]. split.
  { unfold save_plot. rewrite Hd. reflexivity. }
  split; [unfold to_json; cbn; now rewrite Hh|].
  split; [exact Hds|]. split; [exact Hcols | exact Hlen].
Qed.
End AfterRun.

Lemma plot_after_run_witness :
  let v := BasicModerator Examples.basic10_mixed in
  exists h o' g' d,
    run (mkModel v [] 0) 3 (Lcg.seed 5) = Ok (h, o', g') /\
    plot o' None = Ok d /\
    save_plot o' "seiz.png" None [] = Ok (Py.set [] "seiz.png"%string d) /\
    fmap json_history (to_json o') = Ok h /\
    plot_steps d = range 0 (3 + 1) /\
    [s_counts d; e_counts d; i_counts d; z_counts d] =
    map (fun key => map (fun r => count_of r key) h)
        ["S"; "E"; "I"; "Z"]%string /\
    Z.of_nat (length h) = 3 + 1.
Proof.
  apply (plot_after_run (BasicModerator Examples.basic10_mixed) [] 0 3
           (Lcg.seed 5) None "seiz.png" []).
  - exact (check_graph_ok (path 10) eq_refl).
  - lia.
Defined.

(* ================================================================== *)
(** * Runs, one after the other                                        *)
(* ================================================================== *)

Section RunComposition.
Context {G : Type} `{RandomGen G}.

Lemma steps_add {M : Type} `{EpidemicModel (G:=G) M} (a b : nat) :
  forall (m : M) (g : G),
  steps (a + b) m g = ('(m', g') <- steps a m g ;; steps b m' g').
Proof.
  induction a as [|a IH]; intros m g; cbn [Nat.add steps].
  - reflexivity.
  - destruct (step m g) as [[m1 g1]|e]; cbn [bind]; [apply IH | reflexivity].
Qed.

(** The last index of the loop of [run] is what it leaves in
    [_current_step]. *)
Lemma run_loop_current_step {M : Type} `{EpidemicModel (G:=G) M}
    (lo hi : BinNums.Z) (o o' : Model M) (g g' : G) :
  lo <= hi ->
  foldM run_body (range lo (hi + 1)) (o, g) = Ok (o', g') ->
  current_step o' = hi.
Proof.
  intros Hle. rewrite range_snoc, foldM_app by exact Hle.
  destruct (foldM run_body (range lo hi) (o, g)) as [[o1 g1]|e];
    cbn [bind foldM]; [|discriminate].
  unfold run_body. cbn [self history current_step].
  destruct (step (self o1) g1) as [[m2 g2]|e]; cbn [bind]; [|discriminate].
  unfold Ok. intros Heq. injection Heq as <- _. reflexivity.
Qed.

(** Two runs in a row against one long run.  From the same object and the
    same generator, [run(j)] followed by [run(k)] ends in the state and
    with the generator of [run(j + k)].  The history of [run(j)] is the
    first [j + 1] records of the long history, and record [i] of the
    second run counts the same object as record [j + i] of the long one,
    under the step index [i] in place of [j + i]. *)
Theorem run_resumes (v : Variant) (old_history : list Counts)
    (old_step j k : BinNums.Z) (g : G) :
  well_formed v -> 0 <= j -> 0 <= k ->
  exists h1 o1 g1 h2 o2 g2 h o g',
    run (mkModel v old_history old_step) j g = Ok (h1, o1, g1) /\
    run o1 k g1 = Ok (h2, o2, g2) /\
    run (mkModel v old_history old_step) (j + k) g = Ok (h, o, g') /\
    self o2 = self o /\ g2 = g' /\
    h1 = firstn (Z.to_nat (j + 1)) h /\
    forall i, 0 <= i <= k ->
      exists v_i,
        nth_error h (Z.to_nat (j + i)) = Some (snapshot v_i (j + i)) /\
        nth_error h2 (Z.to_nat i) = Some (snapshot v_i i).
Proof.
  intros Hwf Hj Hk.
  assert (Hov : over v v) by (split; [exact Hwf | reflexivity]).
  destruct (run_spec (over v) (step_over v)
              (mkModel v old_history old_step) j g Hov Hj)
    as (h1 & o1 & g1 & Hr1 & _ & Hst1 & Hlen1 & Hrec1).
  cbn [self] in Hst1, Hrec1.
  assert (Hov1 : over v (self o1)).
  { destruct (Hrec1 j) as (m & gm & Hs & Hm & _); [lia|].
    rewrite Hst1 in Hs. now injection Hs as <- _. }
  destruct (run_spec (over v) (step_over v) o1 k g1 Hov1 Hk)
    as (h2 & o2 & g2 & Hr2 & _ & Hst2 & Hlen2 & Hrec2).
  destruct (run_spec (over v) (step_over v)
              (mkModel v old_history old_step) (j + k) g Hov)
    as (h & o & g' & Hr & _ & Hst & Hlen & Hrec); [lia|].
  cbn [self] in Hst, Hrec.
  assert (Hadd : forall i, 0 <= i ->
            steps (Z.to_nat (j + i)) v g = steps (Z.to_nat i) (self o1) g1).
  { intros i Hi. rewrite Z2Nat.inj_add, steps_add, Hst1 by lia.
    reflexivity. }
  exists h1, o1, g1, h2, o2, g2, h, o, g'.
  split; [exact Hr1|]. split; [exact Hr2|]. split; [exact Hr|].
  assert (Hend : Ok (self o2, g2) = Ok (self o, g')).
  { rewrite <- Hst2, <- Hst. symmetry. apply Hadd. exact Hk. }
  injection Hend as Hs Hg.
  split; [exact Hs|]. split; [exact Hg|]. split.
  - apply nth_error_ext. intros i. rewrite nth_error_firstn.
    destruct (Nat.ltb_spec i (Z.to_nat (j + 1))) as [Hi|Hi].
    + destruct (Hrec1 (Z.of_nat i)) as (m & gm & Hs1 & _ & Hn1); [lia|].
      destruct (Hrec (Z.of_nat i)) as (m' & gm' & Hs' & _ & Hn'); [lia|].
      rewrite Nat2Z.id in *. rewrite Hs1 in Hs'. injection Hs' as <- _.
      now rewrite Hn1, Hn'.
    + apply nth_error_None. lia.
  - intros i Hi.
    destruct (Hrec (j + i)) as (m & gm & Hsm & _ & Hn); [lia|].
    destruct (Hrec2 i Hi) as (m2 & gm2 & Hsm2 & _ & Hn2).
    rewrite Hadd, Hsm2 in Hsm by lia. injection Hsm as <- _.
    exists m2. split; assumption.
Qed.

(** The bookkeeping of [run].  When [steps] is 0 or negative the loop is
    not entered: no step is taken and nothing is drawn, [_current_step]
    keeps its value and the history is the one record of the object as it
    is, under the step index [steps] itself.  After [steps >= 1] the last
    record carries the index [steps] and [_current_step] is one behind,
    at [steps - 1]. *)
Theorem run_bookkeeping (v : Variant) (old_history : list Counts)
    (old_step k : BinNums.Z) (g : G) :
  well_formed v ->
  exists h o' g',
    run (mkModel v old_history old_step) k g = Ok (h, o', g') /\
    last h [] = snapshot (self o') k /\
    (k <= 0 ->
     h = [snapshot v k] /\ self o' = v /\ g' = g /\
     current_step o' = old_step) /\
    (0 < k -> current_step o' = k - 1).
Proof.
  intros Hwf.
  destruct (Z_le_gt_dec k 0) as [Hk|Hk].
  - exists [snapshot v k], (mkModel v [snapshot v k] old_step), g.
    unfold run. rewrite range_nil by exact Hk.
    cbn [foldM self history current_step bind Ok app last].
    repeat split; try reflexivity. lia.
  - assert (Hov : over v v) by (split; [exact Hwf | reflexivity]).
    destruct (run_spec (over v) (step_over v)
                (mkModel v old_history old_step) k g Hov)
      as (h & o' & g' & Hr & Hh & Hst & Hlen & Hrec); [lia|].
    cbn [self] in Hst, Hrec. exists h, o', g'.
    split; [exact Hr|]. split; [|split; [lia|]].
    + destruct (Hrec k) as (m & gm & Hs & _ & Hn); [lia|].
      rewrite Hst in Hs. injection Hs as <- _.
      assert (Hsplit : h = removelast h ++ [last h []]).
      { apply app_removelast_last. intros ->. cbn [length] in Hlen. lia. }
      assert (Hl : length (removelast h) = Z.to_nat k).
      { apply (f_equal (@length _)) in Hsplit.
        rewrite length_app in Hsplit. cbn [length] in Hsplit. lia. }
      rewrite Hsplit, nth_error_app2, Hl, Nat.sub_diag in Hn by lia.
      cbn [nth_error] in Hn. now injection Hn.
    + intros _. unfold run in Hr. cbn [self history current_step] in Hr.
      destruct (foldM run_body (range 0 k) (mkModel v [] old_step, g))
        as [[o1 g1]|e] eqn:Hloop; cbn [bind] in Hr; [|discriminate].
      unfold Ok in Hr. injection Hr as _ <- _. cbn [current_step].
      replace k with (k - 1 + 1) in Hloop by lia.
      apply run_loop_current_step in Hloop; [exact Hloop | lia].
Qed.
End RunComposition.

Lemma run_resumes_witness :
  let v := Baseline Examples.baseline10_mixed in
  exists h1 o1 g1 h2 o2 g2 h o g',
    run (mkModel v [] 0) 2 (Lcg.seed 5) = Ok (h1, o1, g1) /\
    run o1 3 g1 = Ok (h2, o2, g2) /\
    run (mkModel v [] 0) (2 + 3) (Lcg.seed 5) = Ok (h, o, g') /\
    self o2 = self o /\ g2 = g' /\
    h1 = firstn (Z.to_nat (2 + 1)) h /\
    forall i, 0 <= i <= 3 ->
      exists v_i,
        nth_error h (Z.to_nat (2 + i)) = Some (snapshot v_i (2 + i)) /\
        nth_error h2 (Z.to_nat i) = Some (snapshot v_i i).
Proof.
  apply (run_resumes (Baseline Examples.baseline10_mixed) [] 0 2 3
           (Lcg.seed 5)).
  - split; [exact (check_graph_ok (path 10) eq_refl) | reflexivity].
  - lia.
  - lia.
Defined.

Lemma run_bookkeeping_witness :
  let v := SmartModerator Examples.smart10_mixed in
  exists h o' g',
    run (mkModel v [] 7) (-3) (Lcg.seed 5) = Ok (h, o', g') /\
    last h [] = snapshot (self o') (-3) /\
    (-3 <= 0 ->
     h = [snapshot v (-3)] /\ self o' = v /\ g' = Lcg.seed 5 /\
     current_step o' = 7) /\
    (0 < -3 -> current_step o' = -3 - 1).
Proof.
  apply (run_bookkeeping (SmartModerator Examples.smart10_mixed) [] 7 (-3)
           (Lcg.seed 5)).
  split; [exact (check_graph_ok (path 10) eq_refl) | simpl; lia].
Defined.

(* ================================================================== *)
(** * Binary64: where [1 - e] is 1                                     *)
(* ================================================================== *)

Lemma shr_1_round_bit (r : shr_record) :
  0 <= shr_m r -> shr_r (shr_1 r) = Z.odd (shr_m r).
Proof.
  destruct r as [m b s]. cbn [shr_m]. intros Hm. unfold shr_1.
  destruct m as [|[p|p|]|p]; cbn [shr_r]; try reflexivity. lia.
Qed.

(** The mantissa and the round bit of a record, for the value
    [y / 2^(k+1)] shifted so far. *)
Lemma shr_iter_round_bit (y : Z) (n : positive) : forall (r : shr_record) k,
  0 <= y -> 0 <= k ->
  shr_m r = y / 2 ^ (k + 1) -> shr_r r = Z.odd (y / 2 ^ k) ->
  shr_m (iter_pos shr_1 n r) = y / 2 ^ (k + Z.pos n + 1) /\
  shr_r (iter_pos shr_1 n r) = Z.odd (y / 2 ^ (k + Z.pos n)).
Proof.
  assert (Hone : forall (r : shr_record) k, 0 <= y -> 0 <= k ->
            shr_m r = y / 2 ^ (k + 1) -> shr_r r = Z.odd (y / 2 ^ k) ->
            shr_m (shr_1 r) = y / 2 ^ (k + 1 + 1) /\
            shr_r (shr_1 r) = Z.odd (y / 2 ^ (k + 1))).
  { intros r k Hy Hk Hm Hr.
    assert (Hm0 : 0 <= shr_m r).
    { rewrite Hm. apply Z.div_pos; [exact Hy | apply Z.pow_pos_nonneg; lia]. }
    split.
    - rewrite shr_1_half, Hm by exact Hm0.
      rewrite Z.div_div by (try apply Z.pow_pos_nonneg; lia).
      f_equal. rewrite (Z.pow_add_r 2 (k + 1) 1) by lia. reflexivity.
    - rewrite shr_1_round_bit, Hm by exact Hm0. reflexivity. }
  induction n as [n IH|n IH|]; intros r k Hy Hk Hm Hr; cbn [iter_pos].
  - destruct (Hone r k Hy Hk Hm Hr) as [Hm1 Hr1].
    destruct (IH (shr_1 r) (k + 1) Hy ltac:(lia) Hm1 Hr1) as [Hm2 Hr2].
    destruct (IH _ (k + 1 + Z.pos n) Hy ltac:(lia) Hm2 Hr2) as [Hm3 Hr3].
    replace (k + Z.pos n~1) with (k + 1 + Z.pos n + Z.pos n) by lia.
    split; assumption.
  - destruct (IH r k Hy Hk Hm Hr) as [Hm2 Hr2].
    destruct (IH _ (k + Z.pos n) Hy ltac:(lia) Hm2 Hr2) as [Hm3 Hr3].
    replace (k + Z.pos n~0) with (k + Z.pos n + Z.pos n) by lia.
    split; assumption.
  - apply Hone; assumption.
Qed.

(** A value in the upper half of the last binade below one, down to the
    midpoint included, rounds to one. *)
Lemma round_aux_to_one (d : positive) (n : Z) :
  0 < n ->
  (9007199254740992 - 1) * 2 ^ n + 2 ^ (n - 1) <= Z.pos d ->
  Z.pos d < 9007199254740992 * 2 ^ n ->
  binary_round_aux prec emax false (Z.pos d) (-53 - n) loc_Exact =
  S754_finite false 4503599627370496 (-52).
Proof.
  intros Hn Hlo Hhi.
  assert (HX : 2 ^ n = 2 * 2 ^ (n - 1)).
  { rewrite <- Z.pow_succ_r by lia. f_equal. lia. }
  assert (HY : 0 < 2 ^ (n - 1)) by (apply Z.pow_pos_nonneg; lia).
  assert (Hdig : Zdigits2 (Z.pos d) = 53 + n).
  { cbn [Zdigits2]. pose proof (digits2_bounds d) as [Hdl Hdh].
    assert (H1 : 2 ^ (Z.pos (digits2_pos d) - 1) < 2 ^ (53 + n)).
    { rewrite (Z.pow_add_r 2 53 n) by lia.
      change (2 ^ 53) with 9007199254740992. lia. }
    assert (H2 : 2 ^ (52 + n) < 2 ^ Z.pos (digits2_pos d)).
    { rewrite (Z.pow_add_r 2 52 n) by lia.
      change (2 ^ 52) with 4503599627370496. lia. }
    apply Z.pow_lt_mono_r_iff in H1; [|lia|lia].
    apply Z.pow_lt_mono_r_iff in H2; [|lia|lia]. lia. }
  unfold binary_round_aux, shr_fexp. rewrite Hdig.
  replace (53 + n + (-53 - n)) with 0 by lia.
  change (fexp prec emax 0) with (-53).
  replace (-53 - (-53 - n)) with n by lia.
  destruct n as [|p|p]; try lia. cbn [shr shr_record_of_loc].
  replace (-53 - Z.pos p + Z.pos p) with (-53) by lia.
  destruct (shr_iter_round_bit (2 * Z.pos d) p
              (Build_shr_record (Z.pos d) false false) 0)
    as [Hm Hr]; [lia | lia | | |].
  { cbn [shr_m]. change (2 ^ (0 + 1)) with 2.
    apply Z.div_unique with (r := 0); lia. }
  { cbn [shr_r]. change (2 ^ 0) with 1. rewrite Z.div_1_r.
    rewrite Z.odd_mul. reflexivity. }
  assert (Hq : 2 * Z.pos d / 2 ^ (0 + Z.pos p + 1) = 9007199254740991).
  { symmetry. rewrite (Z.pow_add_r 2 (0 + Z.pos p) 1) by lia.
    change (2 ^ 1) with 2. replace (0 + Z.pos p) with (Z.pos p) by lia.
    apply Z.div_unique
      with (r := 2 * Z.pos d - 2 ^ Z.pos p * 2 * 9007199254740991); lia. }
  assert (Hb : 2 * Z.pos d / 2 ^ (0 + Z.pos p) = 18014398509481983).
  { symmetry. replace (0 + Z.pos p) with (Z.pos p) by lia.
    apply Z.div_unique
      with (r := 2 * Z.pos d - 2 ^ Z.pos p * 18014398509481983); lia. }
  rewrite Hq in Hm. rewrite Hb in Hr.
  destruct (iter_pos shr_1 p (Build_shr_record (Z.pos d) false false))
    as [q r s].
  cbn [shr_m shr_r] in Hm, Hr. subst q r.
  destruct s; vm_compute; reflexivity.
Qed.

(** What [0 <= e <= 2^-54] means on the representation. *)
Lemma tiny_repr (e : float) :
  (0 <=? e)%float = true -> (e <=? 0x1p-54)%float = true ->
  match Prim2SF e with
  | S754_zero _ => True
  | S754_finite s m ee =>
      s = false /\ ee <= -106 /\ Z.pos m <= 2 ^ (-54 - ee)
  | _ => False
  end.
Proof.
  rewrite !FloatAxioms.leb_spec.
  change (Prim2SF 0) with (S754_zero false).
  change (Prim2SF 0x1p-54) with (S754_finite false 4503599627370496 (-106)).
  pose proof (FloatAxioms.Prim2SF_valid e) as Hv.
  destruct (Prim2SF e) as [s|s| |s m ee]; unfold SFleb, SFcompare;
    [intros; exact Logic.I | | intros; discriminate | ].
  - destruct s; discriminate.
  - destruct s; [discriminate|]. intros _ Hle.
    unfold SpecFloat.valid_binary, bounded, canonical_mantissa in Hv.
    apply andb_prop in Hv as [Hc _]. apply Z.eqb_eq in Hc.
    unfold fexp, SpecFloat.emin, prec, emax in Hc.
    pose proof (digits2_bounds m) as [_ Hhi].
    destruct (Z.compare_spec ee (-106)) as [Heq|Hlt|Hgt];
      [| | discriminate].
    + subst ee. split; [reflexivity|]. split; [lia|].
      rewrite Pos.compare_cont_spec in Hle.
      change (2 ^ (-54 - -106)) with 4503599627370496.
      destruct (Pos.compare_spec m 4503599627370496) as [Hcmp|Hcmp|Hcmp];
        [subst m; reflexivity | | discriminate].
      apply Pos2Z.pos_lt_pos in Hcmp. clear - Hcmp. lia.
    + split; [reflexivity|]. split; [lia|].
      assert (Hd : Z.pos (digits2_pos m) <= 53) by lia.
      assert (Hp : 2 ^ Z.pos (digits2_pos m) <= 2 ^ (-54 - ee)).
      { apply Z.pow_le_mono_r; lia. }
      lia.
Qed.

(** In binary64, [1 - e] is [1] for every [e] from 0 to [2^-54]. *)
Lemma one_minus_tiny (e : float) :
  (0 <=? e)%float = true -> (e <=? 0x1p-54)%float = true ->
  (1 - e)%float = 1%float.
Proof.
  intros H0 H1. pose proof (tiny_repr e H0 H1) as He.
  apply FloatAxioms.Prim2SF_inj. rewrite FloatAxioms.sub_spec.
  change (Prim2SF 1) with (S754_finite false 4503599627370496 (-52)).
  unfold SF64sub, SFsub.
  destruct (Prim2SF e) as [s|s| |s m ee]; try contradiction.
  - reflexivity.
  - destruct He as (-> & Hee & Hm).
    replace (Z.min (-52) ee) with ee by lia.
    assert (Hone : Z.pos (fst (shl_align 4503599627370496 (-52) ee)) =
                   2 ^ (- ee)).
    { unfold shl_align. destruct (ee - -52) as [|k|k] eqn:Hk; cbn [fst].
      - lia.
      - lia.
      - rewrite iter_xO_pow. replace (- ee) with (52 + Z.pos k) by lia.
        rewrite Z.pow_add_r by lia. reflexivity. }
    assert (Hme : fst (shl_align m ee ee) = m).
    { unfold shl_align. now rewrite Z.sub_diag. }
    rewrite Hone, Hme. cbn [cond_Zopp]. unfold binary_normalize.
    set (n := -53 - ee).
    assert (Hn : 0 < n) by (unfold n; lia).
    assert (HX : 2 ^ n = 2 * 2 ^ (n - 1)).
    { rewrite <- Z.pow_succ_r by lia. f_equal. lia. }
    assert (HY : 0 < 2 ^ (n - 1)) by (apply Z.pow_pos_nonneg; lia).
    assert (Htop : 2 ^ (- ee) = 9007199254740992 * 2 ^ n).
    { replace (- ee) with (53 + n) by (unfold n; lia).
      rewrite Z.pow_add_r by lia. reflexivity. }
    assert (Hm' : Z.pos m <= 2 ^ (n - 1)).
    { replace (n - 1) with (-54 - ee) by (unfold n; lia). exact Hm. }
    destruct (2 ^ (- ee) - Z.pos m) as [|d|d] eqn:Hd; [lia | | lia].
    unfold binary_round.
    assert (Hdig : Z.pos (digits2_pos d) = 53 + n).
    { pose proof (digits2_bounds d) as [Hdl Hdh].
      assert (H1' : 2 ^ (Z.pos (digits2_pos d) - 1) < 2 ^ (53 + n)).
      { rewrite (Z.pow_add_r 2 53 n) by lia.
        change (2 ^ 53) with 9007199254740992. lia. }
      assert (H2' : 2 ^ (52 + n) < 2 ^ Z.pos (digits2_pos d)).
      { rewrite (Z.pow_add_r 2 52 n) by lia.
        change (2 ^ 52) with 4503599627370496. lia. }
      apply Z.pow_lt_mono_r_iff in H1'; [|lia|lia].
      apply Z.pow_lt_mono_r_iff in H2'; [|lia|lia]. lia. }
    rewrite Hdig. replace (53 + n + ee) with 0 by (unfold n; lia).
    change (fexp prec emax 0) with (-53).
    unfold shl_align. destruct (-53 - ee) as [|k|k] eqn:Hk; try lia.
    replace ee with (-53 - n) by (unfold n; lia).
    apply round_aux_to_one; lia.
Qed.

(* ================================================================== *)
(** * [rate_to_prob] at the upper end                                  *)
(* ================================================================== *)

Section Saturation.
Context `{MathLib}.

(** [rate_to_prob] reaches 1.  As soon as the exponential the library
    returns is at most [2^-54], the difference [1 - e] rounds to [1.0]:
    the probability of a large [rate * dt] is exactly 1, not a value
    below it. *)
Theorem rate_to_prob_saturates (rate dt e : float) :
  math_exp (- rate * dt)%float = Ok e ->
  (0 <=? e)%float = true -> (e <=? 0x1p-54)%float = true ->
  SEIZ.rate_to_prob rate dt = Ok 1%float.
Proof.
  intros He H0 H1. unfold SEIZ.rate_to_prob. rewrite He.
  unfold Ok. cbn [bind]. now rewrite (one_minus_tiny e H0 H1).
Qed.
End Saturation.

Lemma rate_to_prob_saturates_witness :
  exists e,
    RefMath.exp (- 40 * 1)%float = Ok e /\
    (0 <? e)%float = true /\
    @SEIZ.rate_to_prob RefMath.lib 40%float 1%float = Ok 1%float.
Proof.
  destruct (RefMath.exp (- 40 * 1)%float) as [e|x] eqn:He.
  - exists e. split; [reflexivity|].
    split; [vm_compute in He; injection He as <-; reflexivity|].
    apply (@rate_to_prob_saturates RefMath.lib 40%float 1%float e).
    + exact He.
    + vm_compute in He. injection He as <-. reflexivity.
    + vm_compute in He. injection He as <-. reflexivity.
  - vm_compute in He. discriminate He.
Defined.

(* ================================================================== *)
(** * Rates, probabilities and the three constructors                  *)
(* ================================================================== *)

Section Conversion.
Context {G : Type} `{RandomGen G} `{MathLib}.

End Conversion.



(* ================================================================== *)
(** * [initialize_states] with a negative fraction                     *)
(* ================================================================== *)

Lemma assign_wrap (xs : list node) (s : State) (k : nat) :
  forall (lo : BinNums.Z) f,
  - Z.of_nat (length xs) <= lo -> lo + Z.of_nat k <= 0 ->
  foldM (plan_assign xs s) (range lo (lo + Z.of_nat k)) f =
  foldM (plan_assign xs s)
        (range (lo + Z.of_nat (length xs))
               (lo + Z.of_nat (length xs) + Z.of_nat k)) f.
Proof.
  induction k as [|k IH]; intros lo f Hlo Hhi.
  - rewrite !range_nil by lia. reflexivity.
  - rewrite (range_cons lo), (range_cons (lo + Z.of_nat (length xs)))
      by lia.
    cbn [foldM]. unfold plan_assign at 1 3.
    rewrite (getitem_wrap xs lo) by lia.
    destruct (getitem xs (lo + Z.of_nat (length xs))) as [u|e];
      cbn [bind]; [|reflexivity].
    unfold Ok. cbn [bind].
    replace (lo + Z.of_nat (Datatypes.S k)) with (lo + 1 + Z.of_nat k)
      by lia.
    replace (lo + Z.of_nat (length xs) + Z.of_nat (Datatypes.S k))
      with (lo + 1 + Z.of_nat (length xs) + Z.of_nat k) by lia.
    replace (lo + Z.of_nat (length xs) + 1)
      with (lo + 1 + Z.of_nat (length xs)) by lia.
    apply IH; lia.
Qed.

(** The nodes of a slice painted skeptic on a susceptible ground, counted
    over the whole list. *)
Lemma slice_census (A B C : list node) (s : State) :
  NoDup (A ++ B ++ C) ->
  length (filter
            (fun v => state_eqb s (paint Skeptic (fun _ => Susceptible) B v))
            (A ++ B ++ C)) =
  match s with
  | Skeptic => length B
  | Susceptible => (length A + length C)%nat
  | _ => 0%nat
  end.
Proof.
  intros Hnd.
  assert (HA : forall x, In x A ->
            paint Skeptic (fun _ => Susceptible) B x = Susceptible).
  { intros x Hx. apply paint_out. intros HB.
    apply (NoDup_app_disjoint A (B ++ C) Hnd x Hx).
    apply in_or_app. now left. }
  assert (HB : forall x, In x B ->
            paint Skeptic (fun _ => Susceptible) B x = Skeptic).
  { intros x Hx. now apply paint_in. }
  assert (HC : forall x, In x C ->
            paint Skeptic (fun _ => Susceptible) B x = Susceptible).
  { intros x Hx. apply paint_out. intros HB'.
    apply NoDup_app_remove_l in Hnd.
    exact (NoDup_app_disjoint B C Hnd x HB' Hx). }
  rewrite !filter_app, !length_app.
  destruct s.
  - rewrite (filter_all _ A), (filter_none _ B), (filter_all _ C);
      try (intros x Hx; rewrite ?HA, ?HB, ?HC by exact Hx; reflexivity).
    cbn [length]. lia.
  - rewrite (filter_none _ A), (filter_none _ B), (filter_none _ C);
      try (intros x Hx; rewrite ?HA, ?HB, ?HC by exact Hx; reflexivity).
    reflexivity.
  - rewrite (filter_none _ A), (filter_none _ B), (filter_none _ C);
      try (intros x Hx; rewrite ?HA, ?HB, ?HC by exact Hx; reflexivity).
    reflexivity.
  - rewrite (filter_none _ A), (filter_all _ B), (filter_none _ C);
      try (intros x Hx; rewrite ?HA, ?HB, ?HC by exact Hx; reflexivity).
    cbn [length]. lia.
Qed.

Section NegativeFraction.
Context {G : Type} `{RandomGen G}.

(** Nothing checks the sign of [infected_frac].  A negative fraction gives
    a negative count [n_infected = int(n * infected_frac)]: the first loop
    is not entered, so no node is infected, and the indices of the second
    loop start below zero, where Python counts from the end of the
    shuffled list.  With [n_skeptic <= -n_infected] the skeptics are the
    [n_skeptic] nodes from position [n + n_infected] on; with
    [-n_infected > n] and at least one skeptic to place the first index is
    out of range and the call raises [IndexError]. *)
Theorem negative_infected_frac
    (v : Variant) (infected_frac skeptic_frac : float)
    (seed : option BinNums.Z) (g : G) (n_infected n_skeptic : BinNums.Z) :
  let n := number_of_nodes (graph v) in
  let xs := shuffled seed (graph v) g in
  well_formed v ->
  int_of_float (float_of_int n * infected_frac)%float = Ok n_infected ->
  int_of_float (float_of_int n * skeptic_frac)%float = Ok n_skeptic ->
  n_infected < 0 ->
  (n_skeptic <= - n_infected -> (0 < n_skeptic -> - n_infected <= n) ->
   exists v' g',
     initialize_states v infected_frac skeptic_frac seed g = Ok (v', g') /\
     get_states v' =
     table (nodes (graph v))
           (paint Skeptic (fun _ => Susceptible)
                  (firstn (Z.to_nat n_skeptic)
                          (skipn (Z.to_nat (n + n_infected)) xs))) /\
     population Infected (get_states v') = 0 /\
     population Skeptic (get_states v') = Z.max 0 n_skeptic) /\
  (0 < n_skeptic -> n < - n_infected ->
   initialize_states v infected_frac skeptic_frac seed g = Raise IndexError).
Proof.
  intros n xs Hwf Hi Hz Hneg.
  pose proof (init_plan v infected_frac skeptic_frac seed g Hwf) as Hp.
  pose proof (length_shuffled seed (graph v) g) as Hlen.
  fold n xs in Hlen, Hp.
  pose proof (shuffled_perm seed (graph v) g) as Hperm. fold xs in Hperm.
  assert (Hnd : NoDup xs).
  { eapply Permutation_NoDup; [exact Hperm|].
    destruct v; simpl in Hwf |- *; apply Hwf. }
  assert (Hplan : plan xs infected_frac skeptic_frac (state_of v) =
                  foldM (plan_assign xs Skeptic)
                        (range n_infected (n_infected + n_skeptic))
                        (paint Susceptible (state_of v) xs)).
  { unfold plan. rewrite Hlen, Hi. unfold Ok at 1. cbn [bind].
    rewrite range_nil by lia. cbn [foldM]. unfold Ok at 1. cbn [bind].
    rewrite Hz. unfold Ok at 1. cbn [bind]. reflexivity. }
  rewrite Hplan in Hp. clear Hplan. split.
  - intros Hle Hfit.
    set (k := Z.to_nat n_skeptic).
    set (lo := Z.to_nat (n + n_infected)).
    assert (Hloop : foldM (plan_assign xs Skeptic)
                      (range n_infected (n_infected + n_skeptic))
                      (paint Susceptible (state_of v) xs) =
                    Ok (paint Skeptic (paint Susceptible (state_of v) xs)
                              (firstn k (skipn lo xs)))).
    { destruct (Z_le_gt_dec n_skeptic 0) as [Hz0|Hz0].
      - rewrite range_nil by lia.
        replace k with 0%nat by (unfold k; lia). reflexivity.
      - specialize (Hfit ltac:(lia)).
        replace (n_infected + n_skeptic)
          with (n_infected + Z.of_nat k) by (unfold k; lia).
        rewrite assign_wrap by lia. rewrite Hlen.
        replace (n_infected + n) with (Z.of_nat lo) by (unfold lo; lia).
        rewrite <- Nat2Z.inj_add. apply assign_range.
        unfold lo, k. lia. }
    rewrite Hloop in Hp.
    destruct (initialize_states v _ _ _ g) as [[v' g']|e]; [|destruct Hp].
    cbn [ends_alike fst] in Hp. destruct Hp as (Hs & _ & _).
    assert (Hst : get_states v' =
                  table (nodes (graph v))
                        (paint Skeptic (fun _ => Susceptible)
                               (firstn k (skipn lo xs)))).
    { rewrite Hs. apply table_ext. intros u Hu.
      assert (Hux : In u xs) by (eapply Permutation_in; eassumption).
      destruct (in_dec Nat.eq_dec u (firstn k (skipn lo xs))) as [Hin|Hout].
      - now rewrite !paint_in.
      - rewrite (paint_out Skeptic _ (paint Susceptible (state_of v) xs) u
                   Hout).
        rewrite (paint_out Skeptic _ (fun _ => Susceptible) u Hout).
        now apply paint_in. }
    exists v', g'. split; [reflexivity|]. split; [exact Hst|].
    rewrite Hst, !population_table.
    rewrite !(filter_length_perm _ _ _ Hperm).
    assert (Hx : xs = firstn lo xs ++ firstn k (skipn lo xs) ++
                      skipn k (skipn lo xs))
      by now rewrite !firstn_skipn.
    assert (Hcount := slice_census (firstn lo xs) (firstn k (skipn lo xs))
                        (skipn k (skipn lo xs))).
    rewrite <- Hx in Hcount.
    rewrite !Hcount by exact Hnd.
    split; [reflexivity|].
    rewrite length_firstn, length_skipn.
    destruct (Z_le_gt_dec n_skeptic 0) as [Hz0|Hz0].
    + unfold k. lia.
    + specialize (Hfit ltac:(lia)). unfold k, lo. lia.
  - intros Hz0 Hout.
    rewrite range_cons in Hp by lia. cbn [foldM] in Hp.
    unfold plan_assign at 1 in Hp.
    rewrite getitem_below in Hp by lia. cbn [bind] in Hp.
    destruct (initialize_states v _ _ _ g) as [[v' g']|e]; [destruct Hp|].
    cbn [ends_alike] in Hp. now rewrite Hp.
Qed.
End NegativeFraction.

Lemma negative_infected_frac_witness :
  let v := BasicModerator Examples.basic10_mixed in
  let xs := shuffled (Some 42) (path 10) (Lcg.seed 0) in
  (2 <= - -3 -> (0 < 2 -> - -3 <= 10) ->
   exists v' g',
     initialize_states v (-0.3)%float 0.2%float (Some 42) (Lcg.seed 0) =
     Ok (v', g') /\
     get_states v' =
     table (nodes (path 10))
           (paint Skeptic (fun _ => Susceptible)
                  (firstn (Z.to_nat 2) (skipn (Z.to_nat (10 + -3)) xs))) /\
     population Infected (get_states v') = 0 /\
     population Skeptic (get_states v') = Z.max 0 2) /\
  (0 < 2 -> 10 < - -3 ->
   initialize_states v (-0.3)%float 0.2%float (Some 42) (Lcg.seed 0) =
   Raise IndexError).
Proof.
  apply (negative_infected_frac (BasicModerator Examples.basic10_mixed)
           (-0.3)%float 0.2%float (Some 42) (Lcg.seed 0) (-3) 2).
  - exact (check_graph_ok (path 10) eq_refl).
  - reflexivity.
  - reflexivity.
  - lia.
Defined.

(* ================================================================== *)
(** * Profiles and counters of the smart moderator                     *)
(* ================================================================== *)

Section SmartInert.
Context {G : Type} `{RandomGen G}.

Lemma sm_inert_refl T ag : sm_inert T ag ag.
Proof. intros u. repeat split; auto. Qed.

Lemma sm_inert_trans T ag1 ag2 ag3 :
  sm_inert T ag1 ag2 -> sm_inert T ag2 ag3 -> sm_inert T ag1 ag3.
Proof.
  intros H12 H23 u.
  destruct (H12 u) as (P12 & N12 & M12), (H23 u) as (P23 & N23 & M23).
  split; [congruence|]. split; [auto|].
  intros Hs Ht. destruct (M12 Hs Ht) as [Hs2 Ht2].
  assert (Ht' : (T <=? SEIZSM.compute_toxicity (ag2 u))%float = false).
  { unfold SEIZSM.compute_toxicity in *. now rewrite P12. }
  destruct (M23 Hs2 Ht') as [Hs3 Ht3]. split; congruence.
Qed.

(** The moderator leaves the counter or puts it back to 0. *)
Lemma moderator_intervention_counter (mo : SEIZSM.SEIZSMModel)
    (a : SEIZSM.Agent) (g : G) :
  let a' := fst (SEIZSM.moderator_intervention mo a g) in
  SEIZSM.toxic_messages a' = SEIZSM.toxic_messages a \/
  SEIZSM.toxic_messages a' = 0.
Proof.
  unfold SEIZSM.moderator_intervention.
  destruct (SEIZSM.theta mo <=? SEIZSM.toxic_messages a); [|cbn; auto].
  destruct (rng_random g) as [u1 g1].
  destruct (u1 <? _)%float; [cbn; auto|].
  destruct (rng_random g1) as [u2 g2].
  destruct (u2 <? _)%float; cbn; auto.
Qed.

Lemma send_one_inert (mo : SEIZSM.SEIZSMModel) ag toxic (g : G) sender :
  sm_inert (SEIZSM.T mo) ag
           (fst (fst (SEIZSM.send_one mo (ag, toxic, g) sender))).
Proof.
  rewrite send_one_intervenes. cbv zeta.
  destruct (state_eqb _ _ && _) eqn:Hc.
  - apply andb_prop in Hc as [_ Htox].
    pose proof (moderator_intervention_keeps mo
                  (SEIZSM.mkAgent (SEIZSM.state (ag sender))
                     (SEIZSM.profile (ag sender))
                     (SEIZSM.toxic_messages (ag sender) + 1)
                     (SEIZSM.activity_level (ag sender) + 1)) g)
      as (Hp & _ & _).
    pose proof (moderator_intervention_counter mo
                  (SEIZSM.mkAgent (SEIZSM.state (ag sender))
                     (SEIZSM.profile (ag sender))
                     (SEIZSM.toxic_messages (ag sender) + 1)
                     (SEIZSM.activity_level (ag sender) + 1)) g)
      as Hcount.
    destruct (SEIZSM.moderator_intervention mo _ g) as [a' g1].
    cbv zeta in Hp, Hcount.
    cbn [fst SEIZSM.profile SEIZSM.toxic_messages] in *.
    intros u. unfold upd.
    destruct (Nat.eqb_spec u sender) as [->|_];
      [|repeat split; auto].
    split; [exact Hp|]. split; [lia|].
    intros _ Hmild. rewrite Hmild in Htox. discriminate Htox.
  - cbn [fst]. intros u. unfold upd.
    destruct (Nat.eqb_spec u sender) as [->|_]; repeat split; auto.
Qed.

Lemma set_state_inert T ag (x : node) (s : State) :
  SEIZSM.state (ag x) <> Infected ->
  sm_inert T ag (SEIZSM.set_state ag x s).
Proof.
  intros Hx u. unfold SEIZSM.set_state, upd.
  destruct (Nat.eqb_spec u x) as [->|_]; [|repeat split; auto].
  cbn [SEIZSM.profile SEIZSM.toxic_messages SEIZSM.state].
  split; [reflexivity|]. split; [auto|]. intros Hs. contradiction.
Qed.

Lemma spread_one_inert (mo : SEIZSM.SEIZSMModel) ag (g : G) (x : node) :
  sm_inert (SEIZSM.T mo) ag (fst (SEIZSM.spread_one mo (ag, g) x)).
Proof.
  unfold SEIZSM.spread_one.
  destruct (SEIZSM.state (ag x)) eqn:Hx; try apply sm_inert_refl.
  - destruct (rng_random g) as [u1 g1].
    destruct (u1 <? SEIZSM.beta mo)%float; [|apply sm_inert_refl].
    destruct (rng_random g1) as [u2 g2]. cbn [fst].
    apply set_state_inert. congruence.
  - destruct (rng_random g) as [u1 g1].
    destruct (u1 <? SEIZSM.rho mo)%float; [|apply sm_inert_refl].
    cbn [fst]. apply set_state_inert. congruence.
Qed.

Lemma internal_one_inert (mo : SEIZSM.SEIZSMModel) ag (g : G) (x : node) :
  sm_inert (SEIZSM.T mo) ag (fst (SEIZSM.internal_one mo (ag, g) x)).
Proof.
  unfold SEIZSM.internal_one.
  destruct (SEIZSM.state (ag x)) eqn:Hx; try apply sm_inert_refl.
  destruct (rng_random g) as [u1 g1].
  destruct (u1 <? SEIZSM.epsilon mo)%float.
  - cbn [fst]. apply set_state_inert. congruence.
  - destruct (rng_random g1) as [u2 g2].
    destruct (u2 <? SEIZSM.lambd mo)%float; [|apply sm_inert_refl].
    cbn [fst]. apply set_state_inert. congruence.
Qed.

Lemma sm_step_inert (mo mo' : SEIZSM.SEIZSMModel) (g g' : G) :
  SEIZSM.sm_step mo g = Ok (mo', g') ->
  SEIZSM.T mo' = SEIZSM.T mo /\
  sm_inert (SEIZSM.T mo) (SEIZSM.agents mo) (SEIZSM.agents mo').
Proof.
  intros Hstep. unfold SEIZSM.sm_step in Hstep.
  destruct (SEIZSM.send_messages mo g) as [[[mo1 toxic] g1]|e] eqn:Hsend;
    cbn [bind] in Hstep; [|discriminate].
  destruct (SEIZSM.spread_toxicity mo1 toxic g1) as [[mo2 g2]|e] eqn:Hspread;
    cbn [bind] in Hstep; [|discriminate].
  unfold Ok in Hstep. injection Hstep as Hstep.
  (* send_messages *)
  assert (H1 : SEIZSM.T mo1 = SEIZSM.T mo /\
               sm_inert (SEIZSM.T mo) (SEIZSM.agents mo) (SEIZSM.agents mo1)).
  { unfold SEIZSM.send_messages in Hsend.
    destruct (sample _ _ g) as [[senders g0]|e]; cbn [bind] in Hsend;
      [|discriminate].
    assert (Hinv : sm_inert (SEIZSM.T mo) (SEIZSM.agents mo)
              (fst (fst (fold_left (SEIZSM.send_one mo) senders
                           (SEIZSM.agents mo, [], g0))))).
    { apply (fold_left_inv
               (fun acc : (node -> SEIZSM.Agent) * list node * G =>
                  sm_inert (SEIZSM.T mo) (SEIZSM.agents mo) (fst (fst acc)))).
      - intros [[ag tox] gg] x _ Hacc. cbn [fst] in Hacc.
        eapply sm_inert_trans; [exact Hacc | apply send_one_inert].
      - apply sm_inert_refl. }
    destruct (fold_left (SEIZSM.send_one mo) senders _) as [[ag1 tox] g2'].
    unfold Ok in Hsend. injection Hsend as <- _ _.
    cbn [fst SEIZSM.agents SEIZSM.with_agents SEIZSM.T] in *.
    split; [reflexivity | exact Hinv]. }
  destruct H1 as [T1 I1].
  (* spread_toxicity *)
  assert (H2 : SEIZSM.T mo2 = SEIZSM.T mo1 /\
               sm_inert (SEIZSM.T mo1) (SEIZSM.agents mo1)
                        (SEIZSM.agents mo2)).
  { unfold SEIZSM.spread_toxicity in Hspread.
    destruct (foldM _ toxic (SEIZSM.agents mo1, g1)) as [[ag g3]|e] eqn:Hfold;
      cbn [bind] in Hspread; [|discriminate].
    unfold Ok in Hspread. injection Hspread as <- _.
    cbn [SEIZSM.agents SEIZSM.with_agents SEIZSM.T].
    split; [reflexivity|].
    set (J := fun a : (node -> SEIZSM.Agent) * G =>
                sm_inert (SEIZSM.T mo1) (SEIZSM.agents mo1) (fst a)).
    change (J (ag, g3)).
    apply (foldM_keeps J _ toxic) with (a := (SEIZSM.agents mo1, g1))
                                       (2 := Hfold).
    - intros a w a' _ Hbody Ha.
      destruct (neighbors (SEIZSM.sm_graph mo1) w) as [ns|e];
        cbn [bind] in Hbody; [|discriminate].
      unfold Ok in Hbody. injection Hbody as <-.
      apply (fold_left_inv J (SEIZSM.spread_one mo1) ns); [|exact Ha].
      intros [ag' gg] x _ Hj. unfold J in *. cbn [fst] in Hj.
      eapply sm_inert_trans; [exact Hj | apply spread_one_inert].
    - apply sm_inert_refl. }
  destruct H2 as [T2 I2].
  (* internal_transitions *)
  assert (H3 : SEIZSM.T (fst (SEIZSM.internal_transitions mo2 g2)) =
               SEIZSM.T mo2 /\
               sm_inert (SEIZSM.T mo2) (SEIZSM.agents mo2)
                 (SEIZSM.agents (fst (SEIZSM.internal_transitions mo2 g2)))).
  { unfold SEIZSM.internal_transitions.
    assert (Hinv : sm_inert (SEIZSM.T mo2) (SEIZSM.agents mo2)
              (fst (fold_left (SEIZSM.internal_one mo2)
                      (nodes (SEIZSM.sm_graph mo2)) (SEIZSM.agents mo2, g2)))).
    { apply (fold_left_inv
               (fun acc : (node -> SEIZSM.Agent) * G =>
                  sm_inert (SEIZSM.T mo2) (SEIZSM.agents mo2) (fst acc))).
      - intros [ag gg] x _ Hacc. cbn [fst] in Hacc.
        eapply sm_inert_trans; [exact Hacc | apply internal_one_inert].
      - apply sm_inert_refl. }
    destruct (fold_left (SEIZSM.internal_one mo2) _ _) as [ag3 g3].
    cbn [fst SEIZSM.agents SEIZSM.with_agents SEIZSM.T] in *.
    split; [reflexivity | exact Hinv]. }
  rewrite Hstep in H3. cbn [fst] in H3. destruct H3 as [T3 I3].
  split; [congruence|].
  rewrite T2, T1 in I3. rewrite T1 in I2.
  eapply sm_inert_trans; [exact I1|].
  eapply sm_inert_trans; [exact I2 | exact I3].
Qed.

Lemma sm_steps_inert (k : nat) : forall (mo mo' : SEIZSM.SEIZSMModel) (g g' : G),
  steps k mo g = Ok (mo', g') ->
  SEIZSM.T mo' = SEIZSM.T mo /\
  sm_inert (SEIZSM.T mo) (SEIZSM.agents mo) (SEIZSM.agents mo').
Proof.
  induction k as [|k IH]; intros mo mo' g g' Hs; cbn [steps] in Hs.
  - unfold Ok in Hs. injection Hs as <- _.
    split; [reflexivity | apply sm_inert_refl].
  - change (step mo g) with (SEIZSM.sm_step mo g) in Hs.
    destruct (SEIZSM.sm_step mo g) as [[mo1 g1]|e] eqn:Hstep;
      cbn [bind] in Hs; [|discriminate].
    destruct (sm_step_inert mo mo1 g g1 Hstep) as [T1 I1].
    destruct (IH mo1 mo' g1 g' Hs) as [T2 I2].
    split; [congruence|]. rewrite T1 in I2.
    eapply sm_inert_trans; eassumption.
Qed.

(** Under the smart moderator, over any number of steps.  No profile ever
    changes, so the toxicity of an agent is fixed by [initialize_states];
    a counter of toxic messages never becomes negative; and an infected
    agent whose toxicity is below [T] is never counted as a toxic sender
    and never moderated: it is infected for ever, its counter as it
    was. *)
Theorem sm_mild_infected_stays (mo mo' : SEIZSM.SEIZSMModel) (g g' : G)
    (k : nat) :
  steps k mo g = Ok (mo', g') ->
  forall u,
    SEIZSM.profile (SEIZSM.agents mo' u) =
    SEIZSM.profile (SEIZSM.agents mo u) /\
    (0 <= SEIZSM.toxic_messages (SEIZSM.agents mo u) ->
     0 <= SEIZSM.toxic_messages (SEIZSM.agents mo' u)) /\
    (SEIZSM.state (SEIZSM.agents mo u) = Infected ->
     (SEIZSM.T mo <=? SEIZSM.compute_toxicity (SEIZSM.agents mo u))%float =
     false ->
     SEIZSM.state (SEIZSM.agents mo' u) = Infected /\
     SEIZSM.toxic_messages (SEIZSM.agents mo' u) =
     SEIZSM.toxic_messages (SEIZSM.agents mo u)).
Proof.
  intros Hs. exact (proj2 (sm_steps_inert k mo mo' g g' Hs)).
Qed.
End SmartInert.

Lemma sm_mild_infected_stays_witness :
  let mo :=
    SEIZSM.with_agents Examples.smart10_mixed
      (fun v => SEIZSM.mkAgent (Examples.mixed v) [0.1; 0.2; 0.3]%float 0 0)
  in
  exists mo' g',
    steps 6 mo (Lcg.seed 9) = Ok (mo', g') /\
    SEIZSM.profile (SEIZSM.agents mo' 4%nat) = [0.1; 0.2; 0.3]%float /\
    SEIZSM.state (SEIZSM.agents mo' 4%nat) = Infected /\
    SEIZSM.toxic_messages (SEIZSM.agents mo' 4%nat) = 0.
Proof.
  intros mo.
  destruct (steps 6 mo (Lcg.seed 9)) as [[mo' g']|e] eqn:Hs.
  - exists mo', g'. split; [reflexivity|].
    destruct (sm_mild_infected_stays mo mo' (Lcg.seed 9) g' 6 Hs 4%nat)
      as (Hp & _ & Hm).
    split; [exact Hp|]. apply Hm; reflexivity.
  - vm_compute in Hs. discriminate Hs.
Defined.

(* ================================================================== *)
(** * A run without [initialize_states]                                *)
(* ================================================================== *)

Section Unseeded.
Context {G : Type} `{RandomGen G}.

Lemma neighbors_node (gr : Graph) (w : node) (ns : list node) :
  neighbors gr w = Ok ns -> In w (nodes gr) /\ In (w, ns) gr.
Proof.
  unfold neighbors. destruct (Py.get gr w) as [ns'|] eqn:Hg; [|discriminate].
  unfold Ok. intros [= ->]. split; [|now apply In_get].
  apply get_In_keys. congruence.
Qed.

(** With every node susceptible no node has a spreading contact. *)
Lemma no_spreader (v : Variant) (u : node) :
  well_formed v -> all_susceptible v -> ~ exists w, spreader v u w.
Proof.
  intros Hwf Hall [w Hw]. destruct v as [m|m|m]; cbn [spreader] in Hw.
  - destruct Hw as [(ns & Hn & _) Hst].
    apply neighbors_node in Hn as [Hnode _].
    specialize (Hall w Hnode). cbn [state_of] in Hall.
    destruct (Py.get (SEIZ.states m) w) as [s|];
      destruct Hst as [Hst|Hst]; congruence.
  - destruct Hw as [(ns & Hn & Hin) Hst].
    apply neighbors_node in Hn as [_ Hpair].
    destruct Hwf as [_ Hnb]. specialize (Hall w (Hnb _ _ Hpair _ Hin)).
    cbn [state_of] in Hall. destruct Hst as [Hst|Hst]; congruence.
  - destruct Hw as [(ns & Hn & _) [Hst _]].
    apply neighbors_node in Hn as [Hnode _].
    specialize (Hall w Hnode). cbn [state_of] in Hall. congruence.
Qed.

Lemma step_all_susceptible (v : Variant) :
  forall v1 (g : G),
  over v v1 /\ all_susceptible v1 ->
  exists v2 g', step v1 g = Ok (v2, g') /\ over v v2 /\ all_susceptible v2.
Proof.
  intros v1 g [[Hwf Hg] Hall].
  destruct (step_ok v1 g Hwf) as (v2 & g' & Hs & Hg2 & Hwf2 & _).
  destruct (step_moves v1 g Hwf) as (v2' & g2' & Hs' & _ & Hrule).
  rewrite Hs in Hs'. injection Hs' as E1 E2. subst v2' g2'.
  exists v2, g'. split; [exact Hs|]. split; [split; congruence|].
  intros u Hu. rewrite Hg2 in Hu. destruct (Hrule u) as [_ Hsp].
  destruct (state_of v2 u) eqn:E; try reflexivity; exfalso;
    apply (no_spreader v1 u Hwf Hall); apply Hsp;
    try (now apply Hall); discriminate.
Qed.

(** A model run as its constructor leaves it.  Nothing obliges a caller to
    seed the epidemic with [initialize_states]: on a model whose nodes are
    all susceptible [run] raises nothing, no step changes a state, and
    every record of the history reads [S = n, E = I = Z = 0]. *)
Theorem unseeded_run_is_flat (v : Variant) (old_history : list Counts)
    (old_step k : BinNums.Z) (g : G) :
  well_formed v -> all_susceptible v -> 0 <= k ->
  exists h o' g',
    run (mkModel v old_history old_step) k g = Ok (h, o', g') /\
    get_states (self o') = get_states v /\
    Forall (fun r => map (count_of r) ["S"; "E"; "I"; "Z"]%string =
                     [number_of_nodes (graph v); 0; 0; 0]) h.
Proof.
  intros Hwf Hall Hk.
  destruct (run_spec (fun v1 => over v v1 /\ all_susceptible v1)
              (step_all_susceptible v)
              (mkModel v old_history old_step) k g)
    as (h & o' & g' & Hr & _ & Hst & Hlen & Hrec);
    [split; [split; [exact Hwf | reflexivity] | exact Hall] | exact Hk |].
  cbn [self] in Hst, Hrec. exists h, o', g'. split; [exact Hr|].
  assert (Hflat : forall v1, over v v1 -> all_susceptible v1 ->
            get_states v1 = table (nodes (graph v)) (fun _ => Susceptible)).
  { intros v1 [Hw1 Hg1] Ha1. rewrite (get_states_table v1 Hw1), Hg1.
    apply table_ext. intros u Hu. apply Ha1. now rewrite Hg1. }
  split.
  - destruct (Hrec k) as (m & gm & Hs & [Hov Ha] & _); [lia|].
    rewrite Hst in Hs. injection Hs as <- _.
    rewrite (Hflat (self o') Hov Ha).
    symmetry. apply Hflat; [split; [exact Hwf | reflexivity] | exact Hall].
  - apply Forall_forall. intros r Hin.
    apply In_nth_error in Hin as (j & Hj).
    assert (Hlt : (j < length h)%nat) by (apply nth_error_Some; congruence).
    destruct (Hrec (Z.of_nat j)) as (m & gm & _ & [Hov Ha] & Hn); [lia|].
    rewrite Nat2Z.id, Hj in Hn. injection Hn as ->.
    unfold count_of. cbn [map].
    rewrite (snapshot_get m _ Susceptible), (snapshot_get m _ Exposed),
      (snapshot_get m _ Infected), (snapshot_get m _ Skeptic).
    rewrite (Hflat m Hov Ha), !population_table. cbn [state_eqb].
    rewrite (filter_all (fun _ => true)) by reflexivity.
    rewrite (filter_none (fun _ => false)) by reflexivity.
    now rewrite length_nodes.
Qed.
End Unseeded.

Lemma unseeded_run_is_flat_witness :
  let v := SmartModerator (self Examples.smart10) in
  exists h o' g',
    run (mkModel v [] 0) 4 (Lcg.seed 5) = Ok (h, o', g') /\
    get_states (self o') = get_states v /\
    Forall (fun r => map (count_of r) ["S"; "E"; "I"; "Z"]%string =
                     [10; 0; 0; 0]) h.
Proof.
  apply (unseeded_run_is_flat (SmartModerator (self Examples.smart10)) [] 0 4
           (Lcg.seed 5)).
  - split; [exact (check_graph_ok (path 10) eq_refl) | simpl; lia].
  - intros u Hu. vm_compute in Hu.
    repeat (destruct Hu as [<-|Hu]; [vm_compute; reflexivity|]).
    destruct Hu.
  - lia.
Defined.

(* ================================================================== *)
(** * [initialize_states] with a fraction that is not a number         *)
(* ================================================================== *)

Lemma is_nan_repr (x : float) :
  PrimFloat.is_nan x = true -> Prim2SF x = S754_nan.
Proof.
  unfold PrimFloat.is_nan. rewrite FloatAxioms.eqb_spec.
  destruct (Prim2SF x) as [s|s| |s m e]; unfold SFeqb, SFcompare;
    try reflexivity.
  - destruct s; discriminate.
  - destruct s; discriminate.
  - rewrite Z.compare_refl, Pos.compare_cont_refl.
    destruct s; discriminate.
Qed.

Lemma int_of_nan_product (n : BinNums.Z) (x : float) :
  PrimFloat.is_nan x = true ->
  int_of_float (float_of_int n * x)%float = Raise nan_error.
Proof.
  intros Hx. apply is_nan_repr in Hx. unfold int_of_float.
  rewrite FloatAxioms.mul_spec, Hx. unfold SF64mul, SFmul.
  destruct (Prim2SF (float_of_int n)); reflexivity.
Qed.

Section NotANumber.
Context {G : Type} `{RandomGen G}.

(** Neither fraction is validated, but both go through [int]: a NaN for
    [infected_frac] makes [initialize_states] raise [ValueError], in all
    three classes; so does a NaN for [skeptic_frac] as soon as the
    infected nodes could be placed. *)
Theorem initialize_states_rejects_nan
    (v : Variant) (infected_frac skeptic_frac : float)
    (seed : option BinNums.Z) (g : G) :
  let n := number_of_nodes (graph v) in
  well_formed v ->
  (PrimFloat.is_nan infected_frac = true ->
   initialize_states v infected_frac skeptic_frac seed g = Raise nan_error) /\
  (forall n_infected,
     int_of_float (float_of_int n * infected_frac)%float = Ok n_infected ->
     n_infected <= n ->
     PrimFloat.is_nan skeptic_frac = true ->
     initialize_states v infected_frac skeptic_frac seed g = Raise nan_error).
Proof.
  intros n Hwf.
  pose proof (init_plan v infected_frac skeptic_frac seed g Hwf) as Hp.
  pose proof (length_shuffled seed (graph v) g) as Hlen. fold n in Hlen.
  unfold plan in Hp. rewrite Hlen in Hp. split.
  - intros Hnan.
    rewrite (int_of_nan_product n infected_frac Hnan) in Hp.
    cbn [bind] in Hp.
    destruct (initialize_states v _ _ _ g) as [[v' g']|e]; [destruct Hp|].
    cbn [ends_alike] in Hp. now rewrite Hp.
  - intros n_infected Hi Hle Hnan.
    rewrite Hi, (int_of_nan_product n skeptic_frac Hnan) in Hp.
    unfold Ok at 1 in Hp. cbn [bind] in Hp.
    assert (Hloop : exists f',
      foldM (plan_assign (shuffled seed (graph v) g) Infected)
            (range 0 n_infected)
            (paint Susceptible (state_of v) (shuffled seed (graph v) g)) =
      Ok f').
    { destruct (Z_le_gt_dec n_infected 0) as [Hneg|Hpos].
      - rewrite range_nil by lia. eexists. reflexivity.
      - replace n_infected with (Z.of_nat (0 + Z.to_nat n_infected)) by lia.
        change 0 with (Z.of_nat 0) at 1. rewrite assign_range by lia.
        eexists. reflexivity. }
    destruct Hloop as [f' Hloop]. rewrite Hloop in Hp.
    unfold Ok at 1 in Hp. cbn [bind] in Hp.
    destruct (initialize_states v _ _ _ g) as [[v' g']|e]; [destruct Hp|].
    cbn [ends_alike] in Hp. now rewrite Hp.
Qed.
End NotANumber.

Lemma initialize_states_rejects_nan_witness :
  let v := SmartModerator Examples.smart10_mixed in
  initialize_states v nan 0.1%float (Some 42) (Lcg.seed 0) =
  Raise nan_error /\
  initialize_states v 0.2%float nan (Some 42) (Lcg.seed 0) =
  Raise nan_error.
Proof.
  assert (Hwf : well_formed (SmartModerator Examples.smart10_mixed))
    by (split; [exact (check_graph_ok (path 10) eq_refl) | simpl; lia]).
  split.
  - apply (initialize_states_rejects_nan
             (SmartModerator Examples.smart10_mixed) nan 0.1%float (Some 42)
             (Lcg.seed 0) Hwf).
    reflexivity.
  - apply (proj2 (initialize_states_rejects_nan
                    (SmartModerator Examples.smart10_mixed) 0.2%float nan
                    (Some 42) (Lcg.seed 0) Hwf) 2).
    + reflexivity.
    + vm_compute. discriminate.
    + reflexivity.
Defined.
